(** * libpi2cslave: the BSC I2C slave driver of src/pi2cslave.c

    A shallow embedding of the driver over an explicit model of its
    environment.  The driver talks to the hardware only through two windows
    of volatile 32-bit registers ([bsc] and [gpio_reg]); every access is a
    call to a register bus that may change the hardware state, and every
    run yields the sequence of events it performed (register loads and
    stores, callback invocations, sleeps, diagnostics, system calls).

    Constants are those of src/pi2cslave.h (the source includes them under
    the name bcm_low_level.h). *)

From Stdlib Require Import ZArith Lia String List.
From stdpp Require Import base list.
Import ListNotations.

Local Open Scope Z_scope.

(** ** Machine integers *)

Definition wrap8 (x : Z) : Z := x mod 2 ^ 8.
Definition wrap16 (x : Z) : Z := x mod 2 ^ 16.
Definition wrap32 (x : Z) : Z := x mod 2 ^ 32.

Definition INT_MAX : Z := 2 ^ 31 - 1.

(** Conversion of an integer to [int] (two's complement). *)
Definition to_int32 (x : Z) : Z :=
  let r := wrap32 x in if r <? 2 ^ 31 then r else r - 2 ^ 32.

(** ** Constants of pi2cslave.h *)

Definition BCM_IO_BASE : Z := 0x3F000000.
Definition GPIO_BASE : Z := BCM_IO_BASE + 0x200000.
Definition GPIO_LEN : Z := 0xF4.
Definition BSC_BASE : Z := BCM_IO_BASE + 0x214000.
Definition BSC_LEN : Z := 0x40.

Definition GPIO_COUNT : Z := 28.
Definition GPSET0 : Z := 0x1C.
Definition GPCLR0 : Z := 0x28.

Definition GPIO_FUN_IN : Z := 0x0.
Definition GPIO_FUN_OUT : Z := 0x1.
Definition GPIO_FUN_ALT3 : Z := 0x7.
Definition GPIO_FUN_MASK : Z := 0x7.
Definition GPIO_FUN_SHIFT : Z := 3.
Definition GPIO_FUN_PER_REG : Z := 10.

Definition GPIO_SDA : Z := 18.
Definition GPIO_SCL : Z := 19.

Definition BSC_DR : Z := 0.
Definition BSC_RSR : Z := 1.
Definition BSC_SLV : Z := 2.
Definition BSC_CR : Z := 3.
Definition BSC_FR : Z := 4.
Definition BSC_IMSC : Z := 6.
Definition BSC_ICR : Z := 9.

Definition CR_RXE : Z := Z.shiftl 1 9.
Definition CR_TXE : Z := Z.shiftl 1 8.
Definition CR_BRK : Z := Z.shiftl 1 7.
Definition CR_I2C : Z := Z.shiftl 1 2.
Definition CR_EN : Z := Z.shiftl 1 0.

Definition FR_RXFLEVEL_OFF : Z := 11.
Definition FR_TXFLEVEL_OFF : Z := 6.
Definition FR_RXFLEVEL : Z := Z.shiftl 0x1F FR_RXFLEVEL_OFF.
Definition FR_TXFLEVEL : Z := Z.shiftl 0x1F FR_TXFLEVEL_OFF.
Definition FR_RXBUSY : Z := Z.shiftl 1 5.
Definition FR_TXFE : Z := Z.shiftl 1 4.
Definition FR_RXFF : Z := Z.shiftl 1 3.
Definition FR_TXFF : Z := Z.shiftl 1 2.
Definition FR_RXFE : Z := Z.shiftl 1 1.
Definition FR_TXBUSY : Z := Z.shiftl 1 0.

Definition RSR_UE : Z := Z.shiftl 1 1.
Definition RSR_OE : Z := Z.shiftl 1 0.

Definition FIFO_LEN : Z := 16.

(** [enum gpio_state]; kept as an integer because [bcm_set_gpio_out] has a
    [default] branch for values outside the enumeration. *)
Definition GPIO_STATE_FLOAT : Z := 0.
Definition GPIO_STATE_LOW : Z := 1.
Definition GPIO_STATE_HIGH : Z := 2.

Definition WRITE_USLEEP_INTERVAL : Z := 25.

(** ** Pointers, events, outcomes *)

(** The two physical register windows the driver maps. *)
Inductive window := WIN_BSC | WIN_GPIO.

(** Values of the globals [bsc] and [gpio_reg]: the null pointer they are
    initialised with, the [MAP_FAILED] value ((void* )-1) that mmap returns
    on failure, or a pointer to a mapped window. *)
Inductive ptr := NULL | MAP_FAILED | Mapped (win : window).

Definition is_null (p : ptr) : bool :=
  match p with NULL => true | _ => false end.

Inductive event :=
| EvLoad (win : window) (idx v : Z)
| EvStore (win : window) (idx v : Z)
| EvCallback (addr : Z) (r : option Z)
| EvSleep (us : Z)
| EvTestCancel
| EvDiag (msg : string)
| EvOpen (fd : Z)
| EvClose (fd : Z)
| EvMmap (len base : Z) (p : ptr)
| EvMunmap (p : ptr) (len : Z).

(** How a run ends: it returns a value, it has undefined behaviour (a
    dereference of a pointer that is not a mapping, an access outside the
    mapped page or outside the caller's buffer, a signed overflow), the
    thread is cancelled at a cancellation point, or the model ran out of
    loop fuel. *)
Inductive outcome (A : Type) :=
| Ok (a : A)
| Fault
| Cancelled
| OutOfFuel.
Arguments Ok {A} a.
Arguments Fault {A}.
Arguments Cancelled {A}.
Arguments OutOfFuel {A}.

(** The register bus: what the hardware answers to a load, how it changes
    on a store, and how it changes while the driver sleeps. *)
Class Bus (H : Type) := {
  bus_load : window -> Z -> H -> Z * H;
  bus_store : window -> Z -> Z -> H -> H;
  bus_usleep : Z -> H -> H
}.

(** The system calls of [init_bcm_reg_mem]: the result of open(2) and, for
    a length and a physical base, the result of mmap(2). *)
Record os := mkOs {
  os_open : Z;
  os_mmap : Z -> Z -> ptr
}.

(** Both windows start on a page boundary and fit in one 4096-byte page. *)
Definition PAGE_WORDS : Z := 1024.

Section Driver.
Context {H : Type} `{!Bus H}.

(** The file-scope variables of pi2cslave.c, the hardware behind the
    register windows, and the number of cancellation points the thread
    still passes before a cancellation request is acted upon ([None]:
    no request arrives). *)
Record world := mkWorld {
  mem_fd : Z;
  bsc : ptr;
  gpio_reg : ptr;
  hw : H;
  cancel_after : option nat
}.

Definition set_mem_fd (fd : Z) (w : world) : world :=
  mkWorld fd (bsc w) (gpio_reg w) (hw w) (cancel_after w).
Definition set_bsc (p : ptr) (w : world) : world :=
  mkWorld (mem_fd w) p (gpio_reg w) (hw w) (cancel_after w).
Definition set_gpio_reg (p : ptr) (w : world) : world :=
  mkWorld (mem_fd w) (bsc w) p (hw w) (cancel_after w).
Definition set_hw (h : H) (w : world) : world :=
  mkWorld (mem_fd w) (bsc w) (gpio_reg w) h (cancel_after w).
Definition set_cancel_after (c : option nat) (w : world) : world :=
  mkWorld (mem_fd w) (bsc w) (gpio_reg w) (hw w) c.

(** ** The monad of driver code: state, events, outcome *)

Definition M (A : Type) : Type := world -> outcome A * world * list event.

Definition ret {A} (a : A) : M A := fun w => (Ok a, w, []).

Definition bind {A B} (m : M A) (k : A -> M B) : M B := fun w =>
  match m w with
  | (Ok a, w1, t1) =>
      match k a w1 with (r, w2, t2) => (r, w2, t1 ++ t2) end
  | (Fault, w1, t1) => (Fault, w1, t1)
  | (Cancelled, w1, t1) => (Cancelled, w1, t1)
  | (OutOfFuel, w1, t1) => (OutOfFuel, w1, t1)
  end.

Definition fault {A} : M A := fun w => (Fault, w, []).
Definition out_of_fuel {A} : M A := fun w => (OutOfFuel, w, []).
Definition emit (e : event) : M unit := fun w => (Ok tt, w, [e]).

Notation "'let*' x ':=' c1 'in' c2" := (bind c1 (fun x => c2))
  (at level 10, x pattern, c1 at level 100, c2 at level 200).

(** [p[idx]] read through the global pointer [p]. *)
Definition load (p : world -> ptr) (idx : Z) : M Z := fun w =>
  match p w with
  | Mapped win =>
      if (0 <=? idx) && (idx <? PAGE_WORDS) then
        let '(v, h) := bus_load win idx (hw w) in
        (Ok (wrap32 v), set_hw h w, [EvLoad win idx (wrap32 v)])
      else (Fault, w, [])
  | _ => (Fault, w, [])
  end.

(** [p[idx] = v] written through the global pointer [p]. *)
Definition store (p : world -> ptr) (idx v : Z) : M unit := fun w =>
  match p w with
  | Mapped win =>
      if (0 <=? idx) && (idx <? PAGE_WORDS) then
        (Ok tt, set_hw (bus_store win idx (wrap32 v) (hw w)) w,
         [EvStore win idx (wrap32 v)])
      else (Fault, w, [])
  | _ => (Fault, w, [])
  end.

Definition usleep (us : Z) : M unit := fun w =>
  (Ok tt, set_hw (bus_usleep us (hw w)) w, [EvSleep us]).

(** [pthread_testcancel()]. *)
Definition testcancel : M unit := fun w =>
  match cancel_after w with
  | None => (Ok tt, w, [EvTestCancel])
  | Some O => (Cancelled, w, [EvTestCancel])
  | Some (S n) => (Ok tt, set_cancel_after (Some n) w, [EvTestCancel])
  end.

(** [fprintf(stderr, ...)] and [perror]. *)
Definition diag (msg : string) : M unit := emit (EvDiag msg).

Definition get {A} (f : world -> A) : M A := fun w => (Ok (f w), w, []).
Definition modify (f : world -> world) : M unit := fun w => (Ok tt, f w, []).

(** ** init_bcm_reg_mem, shutdown_bcm_reg_mem *)

Definition do_mmap (sys : os) (len base : Z) : M ptr :=
  let p := os_mmap sys len base in
  let* _ := emit (EvMmap len base p) in ret p.

Definition init_bcm_reg_mem (sys : os) : M bool :=
  let* _ := modify (set_mem_fd (os_open sys)) in
  let* _ := emit (EvOpen (os_open sys)) in
  let* fd := get mem_fd in
  if fd <? 0 then
    let* _ := diag "pi2cslave: Unable to open /dev/mem" in
    ret false
  else
    let* p := do_mmap sys BSC_LEN BSC_BASE in
    let* _ := modify (set_bsc p) in
    let* b := get bsc in
    if is_null b then
      let* _ := diag "pi2cslave: Unable to mmap BSC memory" in
      let* _ := emit (EvClose fd) in
      ret false
    else
      let* q := do_mmap sys GPIO_LEN GPIO_BASE in
      let* _ := modify (set_gpio_reg q) in
      let* b := get bsc in
      if is_null b then
        let* _ := diag "pi2cslave: Unable to mmap GPIO memory" in
        let* _ := emit (EvMunmap b BSC_LEN) in
        let* _ := emit (EvClose fd) in
        ret false
      else ret true.

Definition shutdown_bcm_reg_mem : M unit :=
  let* b := get bsc in
  let* _ := (if is_null b then ret tt
             else let* _ := emit (EvMunmap b BSC_LEN) in modify (set_bsc NULL)) in
  let* g := get gpio_reg in
  let* _ := (if is_null g then ret tt
             else let* _ := emit (EvMunmap g GPIO_LEN) in modify (set_gpio_reg NULL)) in
  let* fd := get mem_fd in
  if 0 <=? fd then
    let* _ := emit (EvClose fd) in modify (set_mem_fd (-1))
  else ret tt.

(** ** gpio_set_mode, init_bsc_i2c_slv, bcm_set_gpio_out *)

(** [gpio] and [mode] are [uint32_t]; [reg] and [shift] are [int]. *)
Definition gpio_set_mode (gpio mode : Z) : M unit :=
  let reg := to_int32 (gpio / GPIO_FUN_PER_REG) in
  let shift := to_int32 ((gpio mod GPIO_FUN_PER_REG) * GPIO_FUN_SHIFT) in
  let* v := load gpio_reg reg in
  let* _ := store gpio_reg reg
              (Z.land v (wrap32 (Z.lnot (Z.shiftl GPIO_FUN_MASK shift)))) in
  let* v := load gpio_reg reg in
  store gpio_reg reg (Z.lor v (wrap32 (Z.shiftl mode shift))).

Definition init_bsc_i2c_slv (i2c_addr : Z) : M bool :=
  let* b := get bsc in
  if is_null b then
    let* _ := diag "pi2cslave: init_bcm_reg_mem() has not been called" in
    ret false
  else
    let* _ := gpio_set_mode GPIO_SDA GPIO_FUN_ALT3 in
    let* _ := gpio_set_mode GPIO_SCL GPIO_FUN_ALT3 in
    let* _ := store bsc BSC_CR CR_BRK in
    let* _ := store bsc BSC_RSR 0 in
    let* _ := store bsc BSC_IMSC 0xf in
    let* _ := store bsc BSC_ICR 0xf in
    let* _ := store bsc BSC_SLV (Z.shiftr i2c_addr 1) in
    let* _ := store bsc BSC_CR
                (Z.lor (Z.lor (Z.lor CR_TXE CR_RXE) CR_I2C) CR_EN) in
    ret true.

(** [gpio] is an [int]; [state] is the integer value of the enum. *)
Definition bcm_set_gpio_out (gpio state : Z) : M bool :=
  let* g := get gpio_reg in
  if is_null g then
    let* _ := diag "pi2cslave: init_bcm_reg_mem() has not been called" in
    ret false
  else if (gpio <? 0) || (GPIO_COUNT <=? gpio) then
    let* _ := diag "pi2cslave: Invalid GPIO" in
    ret false
  else if state =? GPIO_STATE_FLOAT then
    let* _ := gpio_set_mode (wrap32 gpio) GPIO_FUN_IN in
    ret true
  else if state =? GPIO_STATE_LOW then
    let* v := load gpio_reg GPCLR0 in
    let* _ := store gpio_reg GPCLR0 (Z.lor v (wrap32 (Z.shiftl 1 gpio))) in
    let* _ := gpio_set_mode (wrap32 gpio) GPIO_FUN_OUT in
    ret true
  else if state =? GPIO_STATE_HIGH then
    let* v := load gpio_reg GPSET0 in
    let* _ := store gpio_reg GPSET0 (Z.lor v (wrap32 (Z.shiftl 1 gpio))) in
    let* _ := gpio_set_mode (wrap32 gpio) GPIO_FUN_OUT in
    ret true
  else
    let* _ := diag "pi2cslave: Invalid GPIO state" in
    ret false.

(** ** shutdown_bsc_i2c_slv, bsc_i2c_receiving *)

Definition shutdown_bsc_i2c_slv : M unit := store bsc BSC_CR 0.

Definition bsc_i2c_receiving : M bool :=
  let* fr := load bsc BSC_FR in
  ret (negb (Z.land fr FR_RXBUSY =? 0)).

(** ** bsc_i2c_read_poll *)

(** [buf[i] = v] in the caller's buffer; a write past its end is
    undefined behaviour. *)
Definition buf_store (buf : list Z) (i v : Z) : M (list Z) :=
  if (0 <=? i) && (i <? Z.of_nat (length buf))
  then ret (<[Z.to_nat i := v]> buf)
  else fault.

(** [bsc[BSC_RSR] &= ~flag], a load followed by a store. *)
Definition rsr_clear (flag : Z) : M unit :=
  let* v := load bsc BSC_RSR in
  store bsc BSC_RSR (Z.land v (wrap32 (Z.lnot flag))).

(** The body of the [for] loop of [bsc_i2c_read_poll]. *)
Definition read_poll_body (buf : list Z) (read : Z) : M (list Z * Z) :=
  let* _ := testcancel in
  let* rsr := load bsc BSC_RSR in
  let* _ := (if Z.land rsr RSR_OE =? 0 then ret tt
             else let* _ := diag "pi2cslave: Overflow!" in rsr_clear RSR_OE) in
  let* d := load bsc BSC_DR in
  let* buf' := buf_store buf read (Z.land d 0xFF) in
  ret (buf', read + 1).

(** [for (; len && !RX_EMPTY(); len--)]: the recursion is on [len]. *)
Fixpoint read_poll_loop (len : nat) (buf : list Z) (read : Z)
  : M (list Z * Z) :=
  match len with
  | O => ret (buf, read)
  | S len' =>
      let* fr := load bsc BSC_FR in
      if Z.land fr FR_RXFE =? 0 then
        let* (buf', read') := read_poll_body buf read in
        read_poll_loop len' buf' read'
      else ret (buf, read)
  end.

(** [buf] is [None] for a null pointer; [len] is a [size_t].  The result
    is the returned [int] and the buffer as the run leaves it. *)
Definition bsc_i2c_read_poll (buf : option (list Z)) (len : Z)
  : M (Z * option (list Z)) :=
  let* _ := testcancel in
  match buf with
  | None => ret (0, None)
  | Some b =>
      if len =? 0 then ret (0, Some b)
      else
        let* (b', read) := read_poll_loop (Z.to_nat len) b 0 in
        ret (to_int32 read, Some b')
  end.

(** ** bsc_i2c_write *)

Section Write.
(** The callback, a function of the address and of its own state: it
    yields a byte ([uint8_t]) or nothing. *)
Context {C : Type} (cb : Z -> C -> option Z * C).

Definition call_cb (addr : Z) (c : C) : M (option Z * C) :=
  let '(r, c') := cb (wrap16 addr) c in
  let r8 := option_map wrap8 r in
  let* _ := emit (EvCallback (wrap16 addr) r8) in
  ret (r8, c').

(** [offset++] on an [int]. *)
Definition incr_int (x : Z) : M Z :=
  if x <? INT_MAX then ret (x + 1) else fault.

(** The inner loop, [while (!(bsc[BSC_FR] & FR_TXFF))]: the loop state is
    [addr], [offset] and the callback's state. *)
Fixpoint write_fill (fuel : nat) (addr offset : Z) (c : C)
  : M (Z * Z * C) :=
  match fuel with
  | O => out_of_fuel
  | S fuel' =>
      let* fr := load bsc BSC_FR in
      if Z.land fr FR_TXFF =? 0 then
        let* _ := testcancel in
        let* rsr := load bsc BSC_RSR in
        let* _ := (if Z.land rsr RSR_UE =? 0 then ret tt
                   else let* _ := diag "pi2cslave: Underrun!" in
                        rsr_clear RSR_UE) in
        let* (r, c') := call_cb addr c in
        let addr' := wrap16 (addr + 1) in
        match r with
        | Some byte =>
            let* _ := store bsc BSC_DR byte in
            let* offset' := incr_int offset in
            write_fill fuel' addr' offset' c'
        | None => ret (addr', offset, c')
        end
      else ret (addr, offset, c)
  end.

(** The outer loop, [while (RX_EMPTY())]; [ifuel] bounds each run of the
    inner loop. *)
Fixpoint write_serve (ifuel fuel : nat) (addr offset : Z) (c : C)
  : M (Z * Z * C) :=
  match fuel with
  | O => out_of_fuel
  | S fuel' =>
      let* fr := load bsc BSC_FR in
      if Z.land fr FR_RXFE =? 0 then ret (addr, offset, c)
      else
        let* _ := testcancel in
        let* (addr', offset', c') := write_fill ifuel addr offset c in
        let* _ := usleep WRITE_USLEEP_INTERVAL in
        write_serve ifuel fuel' addr' offset' c'
  end.

(** [bsc[BSC_CR] &= ~CR_TXE; bsc[BSC_CR] |= CR_TXE;] *)
Definition txe_toggle : M unit :=
  let* v := load bsc BSC_CR in
  let* _ := store bsc BSC_CR (Z.land v (wrap32 (Z.lnot CR_TXE))) in
  let* v := load bsc BSC_CR in
  store bsc BSC_CR (Z.lor v CR_TXE).

(** [while (!(bsc[BSC_FR] & FR_TXFE))] *)
Fixpoint write_flush_loop (fuel : nat) : M unit :=
  match fuel with
  | O => out_of_fuel
  | S fuel' =>
      let* fr := load bsc BSC_FR in
      if Z.land fr FR_TXFE =? 0 then
        let* _ := txe_toggle in write_flush_loop fuel'
      else ret tt
  end.

(** The flush of lines 226-231: the loop, then one more toggle. *)
Definition write_flush (fuel : nat) : M unit :=
  let* _ := write_flush_loop fuel in txe_toggle.

(** [GET_FR_TXFLEVEL()] on a value read from the flag register. *)
Definition txflevel (fr : Z) : Z :=
  Z.shiftr (Z.land fr FR_TXFLEVEL) FR_TXFLEVEL_OFF.

(** [int ret = offset - GET_FR_TXFLEVEL() - 1]: the subtraction is done
    on [uint32_t] and the result converted back to [int]. *)
Definition write_ret (offset fr : Z) : Z :=
  to_int32 (wrap32 (wrap32 (wrap32 offset - txflevel fr) - 1)).

Definition bsc_i2c_write (fuel : nat) (addr : Z) (c : C) : M (Z * C) :=
  let* _ := testcancel in
  let* (_, offset, c') := write_serve fuel fuel addr 0 c in
  let* fr := load bsc BSC_FR in
  let r := write_ret offset fr in
  let* _ := write_flush fuel in
  ret (if r <? 0 then 0 else r, c').
End Write.

End Driver.

Arguments world H : clear implicits.
Arguments M H A : clear implicits.

(** ** A simulated peripheral

    The hardware is not part of the repository.  This simulation follows
    what pi2cslave.c and pi2cslave.h say about it: the flag-register layout
    of the header, two FIFOs of [FIFO_LEN] bytes, a transmit byte that is
    taken off the FIFO and staged for sending, and the behaviour the flush
    of [bsc_i2c_write] relies on (when TX is disabled and re-enabled the
    staged byte is dropped and the next one is taken off the FIFO).  The bus
    master acts while the driver sleeps, one scripted action per sleep. *)

Inductive master_action :=
| MasterRead
| MasterWrite (b : Z)
| MasterIdle.

Record sim := mkSim {
  sim_rx : list Z;
  sim_tx : list Z;
  sim_staged : option Z;
  sim_cr : Z;
  sim_rsr : Z;
  sim_regs : Z -> Z;
  sim_gpio : Z -> Z;
  sim_master : list master_action;
  sim_sent : list Z
}.

Definition flag (b : bool) (bit : Z) : Z := if b then bit else 0.

Definition is_nil {A} (l : list A) : bool :=
  match l with [] => true | _ => false end.

Definition sim_fr (s : sim) : Z :=
  let ntx := Z.of_nat (length (sim_tx s)) in
  let nrx := Z.of_nat (length (sim_rx s)) in
  Z.lor (flag (is_nil (sim_rx s)) FR_RXFE)
 (Z.lor (flag (FIFO_LEN <=? ntx) FR_TXFF)
 (Z.lor (flag (FIFO_LEN <=? nrx) FR_RXFF)
 (Z.lor (flag (is_nil (sim_tx s)) FR_TXFE)
 (Z.lor (Z.land (Z.shiftl ntx FR_TXFLEVEL_OFF) FR_TXFLEVEL)
        (Z.land (Z.shiftl nrx FR_RXFLEVEL_OFF) FR_RXFLEVEL))))).

Definition upd (f : Z -> Z) (i v : Z) : Z -> Z :=
  fun j => if j =? i then v else f j.

(** Take the next byte off the TX FIFO and stage it. *)
Definition sim_stage (s : sim) : sim :=
  mkSim (sim_rx s) (tail (sim_tx s)) (head (sim_tx s)) (sim_cr s) (sim_rsr s)
        (sim_regs s) (sim_gpio s) (sim_master s) (sim_sent s).

Definition txe_on (cr : Z) : bool := negb (Z.land cr CR_TXE =? 0).

Definition sim_load (win : window) (idx : Z) (s : sim) : Z * sim :=
  match win with
  | WIN_GPIO => (sim_gpio s idx, s)
  | WIN_BSC =>
      if idx =? BSC_DR then
        match sim_rx s with
        | [] => (0, s)
        | b :: rx =>
            (b, mkSim rx (sim_tx s) (sim_staged s) (sim_cr s) (sim_rsr s)
                      (sim_regs s) (sim_gpio s) (sim_master s) (sim_sent s))
        end
      else if idx =? BSC_RSR then (sim_rsr s, s)
      else if idx =? BSC_CR then (sim_cr s, s)
      else if idx =? BSC_FR then (sim_fr s, s)
      else (sim_regs s idx, s)
  end.

Definition sim_store (win : window) (idx v : Z) (s : sim) : sim :=
  match win with
  | WIN_GPIO =>
      mkSim (sim_rx s) (sim_tx s) (sim_staged s) (sim_cr s) (sim_rsr s)
            (sim_regs s) (upd (sim_gpio s) idx v) (sim_master s) (sim_sent s)
  | WIN_BSC =>
      if idx =? BSC_DR then
        let tx := if Z.of_nat (length (sim_tx s)) <? FIFO_LEN
                  then sim_tx s ++ [wrap8 v] else sim_tx s in
        let s' := mkSim (sim_rx s) tx (sim_staged s) (sim_cr s) (sim_rsr s)
                        (sim_regs s) (sim_gpio s) (sim_master s) (sim_sent s) in
        match sim_staged s with
        | None => if txe_on (sim_cr s) then sim_stage s' else s'
        | Some _ => s'
        end
      else if idx =? BSC_RSR then
        mkSim (sim_rx s) (sim_tx s) (sim_staged s) (sim_cr s) v
              (sim_regs s) (sim_gpio s) (sim_master s) (sim_sent s)
      else if idx =? BSC_CR then
        let s' := mkSim (sim_rx s) (sim_tx s) (sim_staged s) v (sim_rsr s)
                        (sim_regs s) (sim_gpio s) (sim_master s) (sim_sent s) in
        if negb (txe_on (sim_cr s)) && txe_on v then sim_stage s' else s'
      else
        mkSim (sim_rx s) (sim_tx s) (sim_staged s) (sim_cr s) (sim_rsr s)
              (upd (sim_regs s) idx v) (sim_gpio s) (sim_master s) (sim_sent s)
  end.

Definition sim_usleep (us : Z) (s : sim) : sim :=
  match sim_master s with
  | [] => s
  | MasterIdle :: m =>
      mkSim (sim_rx s) (sim_tx s) (sim_staged s) (sim_cr s) (sim_rsr s)
            (sim_regs s) (sim_gpio s) m (sim_sent s)
  | MasterRead :: m =>
      match sim_staged s with
      | Some b =>
          mkSim (sim_rx s) (tail (sim_tx s)) (head (sim_tx s)) (sim_cr s)
                (sim_rsr s) (sim_regs s) (sim_gpio s) m (sim_sent s ++ [b])
      | None =>
          mkSim (sim_rx s) (sim_tx s) None (sim_cr s)
                (Z.lor (sim_rsr s) RSR_UE) (sim_regs s) (sim_gpio s) m
                (sim_sent s)
      end
  | MasterWrite b :: m =>
      if Z.of_nat (length (sim_rx s)) <? FIFO_LEN then
        mkSim (sim_rx s ++ [wrap8 b]) (sim_tx s) (sim_staged s) (sim_cr s)
              (sim_rsr s) (sim_regs s) (sim_gpio s) m (sim_sent s)
      else
        mkSim (sim_rx s) (sim_tx s) (sim_staged s) (sim_cr s)
              (Z.lor (sim_rsr s) RSR_OE) (sim_regs s) (sim_gpio s) m
              (sim_sent s)
  end.

#[global] Instance sim_bus : Bus sim := {
  bus_load := sim_load;
  bus_store := sim_store;
  bus_usleep := sim_usleep
}.

(** The peripheral after power-up, with a script for the master. *)
Definition sim_reset (m : list master_action) : sim :=
  mkSim [] [] None 0 0 (fun _ => 0) (fun _ => 0) m [].

(** The world before [init_bcm_reg_mem], and the world after a map in which
    both windows were mapped. *)
Definition world_unmapped {H} (h : H) : world H :=
  mkWorld (-1) NULL NULL h None.
Definition world_mapped {H} (h : H) : world H :=
  mkWorld 3 (Mapped WIN_BSC) (Mapped WIN_GPIO) h None.

(** A callback that serves the bytes of a table indexed by address. *)
Definition table_cb (tbl : list Z) (addr : Z) (c : unit) : option Z * unit :=
  (tbl !! Z.to_nat addr, c).

(** * Vocabulary of the statements *)

(** ** Events of a run *)

Definition is_reg_access (e : event) : bool :=
  match e with EvLoad _ _ _ | EvStore _ _ _ => true | _ => false end.

Definition is_sleep (e : event) : bool :=
  match e with EvSleep _ => true | _ => false end.

(** The stores of a trace to one window, as (index, value) pairs. *)
Fixpoint stores_to (win : window) (tr : list event) : list (Z * Z) :=
  match tr with
  | [] => []
  | EvStore win' idx v :: tr' =>
      match win, win' with
      | WIN_BSC, WIN_BSC | WIN_GPIO, WIN_GPIO => (idx, v) :: stores_to win tr'
      | _, _ => stores_to win tr'
      end
  | _ :: tr' => stores_to win tr'
  end.

(** The callback invocations of a trace: address passed, result. *)
Fixpoint cbs (tr : list event) : list (Z * option Z) :=
  match tr with
  | [] => []
  | EvCallback a r :: tr' => (a, r) :: cbs tr'
  | _ :: tr' => cbs tr'
  end.

(** The number of invocations in which the callback produced a byte. *)
Fixpoint cb_oks (l : list (Z * option Z)) : Z :=
  match l with
  | [] => 0
  | (_, Some _) :: l' => 1 + cb_oks l'
  | (_, None) :: l' => cb_oks l'
  end.

(** The values stored to the data register, in order. *)
Fixpoint dr_stores (tr : list event) : list Z :=
  match tr with
  | [] => []
  | EvStore _ idx v :: tr' =>
      if idx =? BSC_DR then v :: dr_stores tr' else dr_stores tr'
  | _ :: tr' => dr_stores tr'
  end.

(** The bytes the callback produced, in order. *)
Fixpoint cb_bytes (l : list (Z * option Z)) : list Z :=
  match l with
  | [] => []
  | (_, Some b) :: l' => b :: cb_bytes l'
  | (_, None) :: l' => cb_bytes l'
  end.

(** ** Properties of traces *)

Definition no_sleep (tr : list event) : Prop :=
  Forall (fun e => is_sleep e = false) tr.

Definition no_reg_access (tr : list event) : Prop :=
  Forall (fun e => is_reg_access e = false) tr.

(** The addresses [n] successive invocations receive when the first one
    receives [a]: the counter is a [uint16_t]. *)
Definition addr_run (a : Z) (n : nat) : list Z :=
  map (fun i => wrap16 (a + Z.of_nat i)) (seq 0 n).

(** The events of a flush that count: stores to the control register with
    transmit-enable on, stores with it off, loads of the flag register
    that find the TX FIFO not empty. *)
Definition is_txe_enable (e : event) : bool :=
  match e with
  | EvStore WIN_BSC idx v => (idx =? BSC_CR) && txe_on v
  | _ => false
  end.

Definition is_txe_disable (e : event) : bool :=
  match e with
  | EvStore WIN_BSC idx v => (idx =? BSC_CR) && negb (txe_on v)
  | _ => false
  end.

Definition is_tx_busy_poll (e : event) : bool :=
  match e with
  | EvLoad WIN_BSC idx v => (idx =? BSC_FR) && (Z.land v FR_TXFE =? 0)
  | _ => false
  end.

Definition count (P : event -> bool) (tr : list event) : nat :=
  length (List.filter P tr).

(** ** Outcomes and computations *)

Definition not_ok {A} (r : outcome A) : Prop :=
  match r with Ok _ => False | _ => True end.

(** A failed run, seen at another result type. *)
Definition recast {A B} (r : outcome A) : outcome B :=
  match r with
  | Ok _ => Fault
  | Fault => Fault
  | Cancelled => Cancelled
  | OutOfFuel => OutOfFuel
  end.

(** A computation that invokes no callback and whose results satisfy [R]. *)
Definition quiet {H} `{!Bus H} {A} (m : M H A) (R : A -> Prop) : Prop :=
  forall w r w' tr, m w = (r, w', tr) ->
    cbs tr = [] /\ forall a, r = Ok a -> R a.

(** A computation that leaves the [bsc] pointer as it found it. *)
Definition keeps {H} `{!Bus H} {A} (m : M H A) : Prop :=
  forall w a w' tr, m w = (Ok a, w', tr) -> bsc w' = bsc w.

(** In a run of [m] that returns, the stores to the data register are the
    bytes the callback produced during that run. *)
Definition queues {H} `{!Bus H} {A} (m : M H A) : Prop :=
  forall w a w' tr, m w = (Ok a, w', tr) -> dr_stores tr = cb_bytes (cbs tr).

(** What the two filling loops guarantee, in terms of the callback
    invocations [l] of a run started with address [addr] and count
    [offset]: the invocations received consecutive addresses from [addr]
    on, and if the run returned, the address counter has advanced once per
    invocation and the count once per invocation that produced a byte. *)
Definition tx_post {C} (addr offset : Z) (r : outcome (Z * Z * C))
    (l : list (Z * option Z)) : Prop :=
  map fst l = addr_run addr (length l)
  /\ forall addr' offset' c', r = Ok (addr', offset', c') ->
       wrap16 addr' = wrap16 (addr + Z.of_nat (length l))
       /\ offset' = offset + cb_oks l
       /\ offset' <= Z.max offset INT_MAX.

(** ** Inputs: system-call results, simulated boards *)

(** System-call results: everything succeeds; the GPIO mapping fails
    (with MAP_FAILED, as mmap does, or with a null pointer); the BSC
    mapping fails; /dev/mem cannot be opened. *)
Definition os_all_ok : os :=
  mkOs 3 (fun len base => if base =? BSC_BASE then Mapped WIN_BSC
                          else Mapped WIN_GPIO).
Definition os_gpio_map_fails : os :=
  mkOs 3 (fun len base => if base =? BSC_BASE then Mapped WIN_BSC
                          else MAP_FAILED).
Definition os_gpio_map_null : os :=
  mkOs 3 (fun len base => if base =? BSC_BASE then Mapped WIN_BSC
                          else NULL).
Definition os_bsc_map_fails : os :=
  mkOs 3 (fun len base => if base =? BSC_BASE then MAP_FAILED
                          else Mapped WIN_GPIO).
Definition os_open_fails : os :=
  mkOs (-1) (fun len base => MAP_FAILED).

(** A simulated board after [init_bsc_i2c_slv], with a script for the bus
    master. *)
Definition sim_board (m : list master_action) : world sim :=
  snd (fst (init_bsc_i2c_slv 0x42 (world_mapped (sim_reset m)))).

(** ** Values the driver computes *)

(** The function-select register and field of a pin, as [gpio_set_mode]
    computes them. *)
Definition fsel_reg (gpio : Z) : Z := to_int32 (gpio / GPIO_FUN_PER_REG).
Definition fsel_shift (gpio : Z) : Z :=
  to_int32 ((gpio mod GPIO_FUN_PER_REG) * GPIO_FUN_SHIFT).

Definition sim_with_cr (v : Z) (s : sim) : sim :=
  mkSim (sim_rx s) (sim_tx s) (sim_staged s) v (sim_rsr s)
        (sim_regs s) (sim_gpio s) (sim_master s) (sim_sent s).

(** The two values a toggle stores: transmit-enable off, then on. *)
Definition cr_off (cr : Z) : Z :=
  wrap32 (Z.land (wrap32 cr) (wrap32 (Z.lnot CR_TXE))).
Definition cr_on (cr : Z) : Z := wrap32 (Z.lor (wrap32 (cr_off cr)) CR_TXE).

(** ** Register accesses by kind *)


(** The system calls [shutdown_bcm_reg_mem] makes in a world: it unmaps
    each pointer that is not null and closes the descriptor if it is not
    negative. *)
Definition release_calls (b g : ptr) (fd : Z) : list event :=
  (if is_null b then [] else [EvMunmap b BSC_LEN])
  ++ (if is_null g then [] else [EvMunmap g GPIO_LEN])
  ++ (if 0 <=? fd then [EvClose fd] else []).

(** ** GPIO function-select fields *)

(** The 3-bit function code of a pin, read from the value of its
    function-select register, and from the GPIO window as a memory. *)
Definition fsel_field (v pin : Z) : Z :=
  Z.land (Z.shiftr v ((pin mod GPIO_FUN_PER_REG) * GPIO_FUN_SHIFT)) GPIO_FUN_MASK.

Definition fsel_of (g : Z -> Z) (pin : Z) : Z :=
  fsel_field (g (pin / GPIO_FUN_PER_REG)) pin.

(** What a function-select register that held [v] holds after the two
    read-modify-write cycles of [gpio_set_mode], when it behaves as a
    memory. *)
Definition fsel_write (v gpio mode : Z) : Z :=
  wrap32 (Z.lor
            (wrap32 (wrap32 (Z.land (wrap32 v)
                               (wrap32 (Z.lnot (Z.shiftl GPIO_FUN_MASK
                                                  (fsel_shift gpio)))))))
            (wrap32 (Z.shiftl mode (fsel_shift gpio)))).

(** ** Shapes of computations: events emitted, cancellation *)





(** The byte [bsc_i2c_read_poll] puts in the buffer for a value of the data
    register. *)
Definition rx_byte (x : Z) : Z := Z.land (wrap32 x) 0xFF.

(** ** Whole-run trace properties *)

(** Every run of [m], whatever its outcome, has a trace that satisfies [P]
    (which may depend on where [bsc] points), and a run that returns
    leaves [bsc] where it was. *)
Definition traced {H} `{!Bus H} {A} (P : ptr -> list event -> Prop)
    (m : M H A) : Prop :=
  forall w r w' tr, m w = (r, w', tr) ->
    P (bsc w) tr /\ forall a, r = Ok a -> bsc w' = bsc w.

(** When [bsc] points to the BSC window, every event passes [ok]. *)
Definition only (ok : event -> bool) (p : ptr) (tr : list event) : Prop :=
  p = Mapped WIN_BSC -> Forall (fun e => ok e = true) tr.

(** The events of [bsc_i2c_write]: loads of the flag, status and control
    registers, stores to the data, status and control registers,
    invocations of the callback, sleeps of [WRITE_USLEEP_INTERVAL],
    cancellation points and the underrun report. *)
Definition write_event (e : event) : bool :=
  match e with
  | EvLoad WIN_BSC idx _ =>
      (idx =? BSC_FR) || (idx =? BSC_RSR) || (idx =? BSC_CR)
  | EvStore WIN_BSC idx _ =>
      (idx =? BSC_DR) || (idx =? BSC_RSR) || (idx =? BSC_CR)
  | EvCallback _ _ => true
  | EvSleep us => us =? WRITE_USLEEP_INTERVAL
  | EvTestCancel => true
  | EvDiag msg => String.eqb msg "pi2cslave: Underrun!"
  | _ => false
  end.

(** The events of [bsc_i2c_read_poll]: loads of the flag, status and data
    registers, stores to the status register, cancellation points and the
    overflow report. *)
Definition read_event (e : event) : bool :=
  match e with
  | EvLoad WIN_BSC idx _ =>
      (idx =? BSC_FR) || (idx =? BSC_RSR) || (idx =? BSC_DR)
  | EvStore WIN_BSC idx _ => idx =? BSC_RSR
  | EvTestCancel => true
  | EvDiag msg => String.eqb msg "pi2cslave: Overflow!"
  | _ => false
  end.

Definition is_rsr_store (e : event) : bool :=
  match e with EvStore _ idx _ => idx =? BSC_RSR | _ => false end.

(** A trace in which the status register is only ever stored to as the
    last step of clearing error bit [bit]: a load of the register that
    showed the bit set, the report [msg], a second load, and the store of
    the value just loaded with the bit cleared. *)
Inductive rsr_rmw (bit : Z) (msg : string) : list event -> Prop :=
| rsr_rmw_nil : rsr_rmw bit msg []
| rsr_rmw_other e t :
    is_rsr_store e = false -> rsr_rmw bit msg t -> rsr_rmw bit msg (e :: t)
| rsr_rmw_clear win v0 v x t :
    Z.testbit v0 bit = true ->
    Z.testbit x bit = false ->
    (forall i, i <> bit -> Z.testbit x i = Z.testbit v i) ->
    rsr_rmw bit msg t ->
    rsr_rmw bit msg (EvLoad win BSC_RSR v0 :: EvDiag msg
                     :: EvLoad win BSC_RSR v :: EvStore win BSC_RSR x :: t).

(** ** The transmit path of the simulated peripheral *)

(** Every byte the peripheral has taken from the driver and not dropped, in
    order: those the master has read, the one staged, those in the TX
    FIFO. *)
Definition chan (s : sim) : list Z :=
  sim_sent s ++ option_list (sim_staged s) ++ sim_tx s.

(** The transmitter at work: transmit is enabled, a byte is staged whenever
    the TX FIFO is not empty, and the FIFO holds at most [FIFO_LEN]
    bytes. *)
Definition tx_live (s : sim) : Prop :=
  txe_on (sim_cr s) = true
  /\ (sim_staged s = None -> sim_tx s = [])
  /\ (length (sim_tx s) <= 16)%nat.

(** [s'] is [s] after the driver has queued the bytes [q]: nothing was
    dropped, and the master may have read some. *)
Definition fed (s : sim) (q : list Z) (s' : sim) : Prop :=
  chan s' = chan s ++ q
  /\ (length (sim_sent s) <= length (sim_sent s'))%nat
  /\ tx_live s'.

(** A script in which the master never writes. *)
Definition no_write (m : list master_action) : bool :=
  forallb (fun a => match a with MasterWrite _ => false | _ => true end) m.

Definition sim_with_rsr (v : Z) (s : sim) : sim :=
  mkSim (sim_rx s) (sim_tx s) (sim_staged s) (sim_cr s) v
        (sim_regs s) (sim_gpio s) (sim_master s) (sim_sent s).

(** The number of bytes the transmitter can still take before the TX FIFO
    is full. *)
Definition room (s : sim) : nat :=
  (16 - length (sim_tx s))
  + match sim_staged s with None => 1 | Some _ => 0 end.

(** mmap returns a null pointer for the BSC window. *)
Definition os_bsc_map_null : os :=
  mkOs 3 (fun len base => if base =? BSC_BASE then NULL else Mapped WIN_GPIO).

(** The events of [init_bcm_reg_mem]: open, mmap, close, and the reports of
    a failed open and of a failed BSC mapping. *)
Definition init_event (e : event) : bool :=
  match e with
  | EvOpen _ | EvMmap _ _ _ | EvClose _ => true
  | EvDiag msg =>
      String.eqb msg "pi2cslave: Unable to open /dev/mem"
      || String.eqb msg "pi2cslave: Unable to mmap BSC memory"
  | _ => false
  end.

(** With [bsc] pointing to a mapped window, the bytes stored to the data
    register are the bytes the callback produced. *)
Definition dr_matches (p : ptr) (tr : list event) : Prop :=
  (exists win, p = Mapped win) -> dr_stores tr = cb_bytes (cbs tr).

(** The values loaded from the data register, in order. *)
Fixpoint dr_loads (tr : list event) : list Z :=
  match tr with
  | [] => []
  | EvLoad _ idx v :: tr' =>
      if idx =? BSC_DR then v :: dr_loads tr' else dr_loads tr'
  | _ :: tr' => dr_loads tr'
  end.

(** * Facts *)

(** ** Machine integers and bits *)

Lemma wrap32_range x : 0 <= wrap32 x < 2 ^ 32.
Proof. unfold wrap32. apply Z.mod_pos_bound. lia. Qed.

Lemma wrap32_small x : 0 <= x < 2 ^ 32 -> wrap32 x = x.
Proof. intros Hx. unfold wrap32. apply Z.mod_small. exact Hx. Qed.

Lemma wrap32_idem x : wrap32 (wrap32 x) = wrap32 x.
Proof. apply wrap32_small, wrap32_range. Qed.

Lemma to_int32_small x : - 2 ^ 31 <= x < 2 ^ 31 -> to_int32 x = x.
Proof.
  intros Hx. unfold to_int32, wrap32.
  destruct (Z_lt_le_dec x 0) as [Hneg | Hpos].
  - replace (x mod 2 ^ 32) with (x + 2 ^ 32).
    + destruct (Z.ltb_spec (x + 2 ^ 32) (2 ^ 31)); lia.
    + apply Z.mod_unique with (q := -1); lia.
  - rewrite Z.mod_small by lia.
    destruct (Z.ltb_spec x (2 ^ 31)); lia.
Qed.

Lemma to_int32_le x : 0 <= x -> to_int32 x <= x.
Proof.
  intros Hx. unfold to_int32, wrap32.
  assert (Hm : 0 <= x mod 2 ^ 32 <= x).
  { split; [apply Z.mod_pos_bound; lia | apply Z.mod_le; lia]. }
  destruct (Z.ltb_spec (x mod 2 ^ 32) (2 ^ 31)); lia.
Qed.

Lemma testbit_wrap32 x i : Z.testbit (wrap32 x) i = (i <? 32) && Z.testbit x i.
Proof. unfold wrap32. apply Z.testbit_mod_pow2. lia. Qed.

(** The bits of [~(m << s)] once converted to [uint32_t]. *)
Lemma testbit_clear_mask m s i :
  0 <= i ->
  Z.testbit (wrap32 (Z.lnot (Z.shiftl m s))) i
  = (i <? 32) && negb (Z.testbit m (i - s)).
Proof.
  intros Hi. rewrite testbit_wrap32, Z.lnot_spec, Z.shiftl_spec by lia.
  reflexivity.
Qed.

(** The bits of [v & ~(1 << k)] on [uint32_t]: bit [k] is clear, the
    others are those of [v]. *)
Lemma testbit_clear_bit v k i :
  0 <= k -> v = wrap32 v ->
  Z.testbit (wrap32 (Z.land v (wrap32 (Z.lnot (Z.shiftl 1 k))))) i
  = if i =? k then false else Z.testbit v i.
Proof.
  intros Hk Hv. destruct (Z_lt_le_dec i 0) as [Hneg | Hi].
  - rewrite !(Z.testbit_neg_r _ i) by lia. destruct (i =? k); reflexivity.
  - rewrite testbit_wrap32, Z.land_spec, testbit_clear_mask by lia.
    rewrite Hv, testbit_wrap32.
    change 1 with (Z.ones 1) at 1. rewrite Z.testbit_ones by lia.
    destruct (Z.ltb_spec i 32), (Z.eqb_spec i k), (Z.leb_spec 0 (i - k)),
      (Z.ltb_spec (i - k) 1); simpl; try lia;
      rewrite ?andb_true_r, ?andb_false_r; reflexivity.
Qed.

(** A test against a one-bit mask reads that bit. *)
Lemma land_bit_eqb x k :
  0 <= k -> (Z.land x (Z.shiftl 1 k) =? 0) = negb (Z.testbit x k).
Proof.
  intros Hk. rewrite Z.shiftl_1_l.
  destruct (Z.testbit x k) eqn:Hb; simpl.
  - apply Z.eqb_neq. intros Hz.
    assert (Ht : Z.testbit (Z.land x (2 ^ k)) k = true).
    { rewrite Z.land_spec, Hb, Z.pow2_bits_eqb, Z.eqb_refl by lia. reflexivity. }
    rewrite Hz, Z.bits_0 in Ht. discriminate.
  - apply Z.eqb_eq, Z.bits_inj'. intros n Hn.
    rewrite Z.land_spec, Z.bits_0, Z.pow2_bits_eqb by lia.
    destruct (Z.eqb_spec k n) as [-> | _].
    + rewrite Hb. reflexivity.
    + apply andb_false_r.
Qed.

(** ** The events of a run *)

Lemma stores_to_app win t1 t2 :
  stores_to win (t1 ++ t2) = stores_to win t1 ++ stores_to win t2.
Proof.
  induction t1 as [| e t1 IH]; simpl; [reflexivity |].
  destruct e; try exact IH.
  destruct win, win0; simpl; rewrite ?IH; reflexivity.
Qed.

Lemma cbs_app t1 t2 : cbs (t1 ++ t2) = cbs t1 ++ cbs t2.
Proof.
  induction t1 as [| e t1 IH]; simpl; [reflexivity |].
  destruct e; simpl; rewrite ?IH; reflexivity.
Qed.

Lemma cb_oks_app l1 l2 : cb_oks (l1 ++ l2) = cb_oks l1 + cb_oks l2.
Proof.
  induction l1 as [| [a [b |]] l1 IH]; simpl; lia.
Qed.

Lemma cb_oks_bounds l : 0 <= cb_oks l <= Z.of_nat (length l).
Proof.
  induction l as [| [a [b |]] l IH]; simpl length; simpl cb_oks; lia.
Qed.

(** ** Running the monad *)

Section DriverFacts.
Context {H : Type} `{!Bus H}.

Implicit Types w : world H.

Lemma bind_ok {A B} (m : M H A) (k : A -> M H B) w a w1 t1 :
  m w = (Ok a, w1, t1) ->
  bind m k w = (let '(r, w2, t2) := k a w1 in (r, w2, t1 ++ t2)).
Proof. intros Hm. unfold bind. rewrite Hm. reflexivity. Qed.

Lemma bind_ok_inv {A B} (m : M H A) (k : A -> M H B) w b w' tr :
  bind m k w = (Ok b, w', tr) ->
  exists a w1 t1 t2,
    m w = (Ok a, w1, t1) /\ k a w1 = (Ok b, w', t2) /\ tr = t1 ++ t2.
Proof.
  unfold bind. destruct (m w) as [[[a | | |] w1] t1]; try discriminate.
  destruct (k a w1) as [[r w2] t2] eqn:Hk. intros [= -> -> <-].
  exists a, w1, t1, t2. auto.
Qed.

(** Either the first part returned and the run is the continuation's,
    or the first part failed and the run is its run. *)
Lemma bind_inv {A B} (m : M H A) (k : A -> M H B) w r w' tr :
  bind m k w = (r, w', tr) ->
  (exists a w1 t1 t2,
      m w = (Ok a, w1, t1) /\ k a w1 = (r, w', t2) /\ tr = t1 ++ t2)
  \/ (exists r1, m w = (r1, w', tr) /\ not_ok r1 /\ r = recast r1).
Proof.
  unfold bind. destruct (m w) as [[[a | | |] w1] t1].
  - destruct (k a w1) as [[r2 w2] t2] eqn:Hk. intros [= <- <- <-].
    left. exists a, w1, t1, t2. auto.
  - intros [= <- <- <-]. right. exists Fault. simpl. auto.
  - intros [= <- <- <-]. right. exists Cancelled. simpl. auto.
  - intros [= <- <- <-]. right. exists OutOfFuel. simpl. auto.
Qed.

Lemma load_mapped (p : world H -> ptr) idx w win :
  p w = Mapped win -> 0 <= idx < PAGE_WORDS ->
  load p idx w
  = (Ok (wrap32 (fst (bus_load win idx (hw w)))),
     set_hw (snd (bus_load win idx (hw w))) w,
     [EvLoad win idx (wrap32 (fst (bus_load win idx (hw w))))]).
Proof.
  intros Hp Hidx. unfold load. rewrite Hp.
  destruct (Z.leb_spec 0 idx); [| lia].
  destruct (Z.ltb_spec idx PAGE_WORDS); [| lia]. simpl.
  destruct (bus_load win idx (hw w)). reflexivity.
Qed.

Lemma store_mapped (p : world H -> ptr) idx v w win :
  p w = Mapped win -> 0 <= idx < PAGE_WORDS ->
  store p idx v w
  = (Ok tt, set_hw (bus_store win idx (wrap32 v) (hw w)) w,
     [EvStore win idx (wrap32 v)]).
Proof.
  intros Hp Hidx. unfold store. rewrite Hp.
  destruct (Z.leb_spec 0 idx); [| lia].
  destruct (Z.ltb_spec idx PAGE_WORDS); [| lia]. reflexivity.
Qed.

Lemma load_ok_inv (p : world H -> ptr) idx w v w' tr :
  load p idx w = (Ok v, w', tr) ->
  exists win h, p w = Mapped win /\ w' = set_hw h w
                /\ tr = [EvLoad win idx v] /\ v = wrap32 v.
Proof.
  unfold load. destruct (p w) as [| | win]; try discriminate.
  destruct ((0 <=? idx) && (idx <? PAGE_WORDS)); [| discriminate].
  destruct (bus_load win idx (hw w)) as [v0 h]. intros [= <- <- <-].
  exists win, h. rewrite wrap32_idem. auto.
Qed.

Lemma store_ok_inv (p : world H -> ptr) idx v w u w' tr :
  store p idx v w = (Ok u, w', tr) ->
  exists win h, p w = Mapped win /\ w' = set_hw h w
                /\ tr = [EvStore win idx (wrap32 v)].
Proof.
  unfold store. destruct (p w) as [| | win]; try discriminate.
  destruct ((0 <=? idx) && (idx <? PAGE_WORDS)); [| discriminate].
  intros [= <- <-]. eauto.
Qed.

(** A dereference of a pointer that is not a mapping is a fault, and no
    register is accessed. *)
Lemma load_unmapped (p : world H -> ptr) idx w :
  (forall win, p w <> Mapped win) -> load p idx w = (Fault, w, []).
Proof.
  intros Hp. unfold load. destruct (p w) as [| | win]; try reflexivity.
  destruct (Hp win). reflexivity.
Qed.

Lemma store_unmapped (p : world H -> ptr) idx v w :
  (forall win, p w <> Mapped win) -> store p idx v w = (Fault, w, []).
Proof.
  intros Hp. unfold store. destruct (p w) as [| | win]; try reflexivity.
  destruct (Hp win). reflexivity.
Qed.

End DriverFacts.

Arguments wrap32 : simpl never.
Arguments wrap16 : simpl never.
Arguments wrap8 : simpl never.
Arguments to_int32 : simpl never.

(** ** Mapping the registers *)

Section Mapping.
Context {H : Type} `{!Bus H}.

Implicit Types w : world H.

(** What [init_bcm_reg_mem] returns is decided by open(2) and by whether
    the BSC mapping is the null pointer; the GPIO mapping plays no part. *)
Lemma init_bcm_reg_mem_returns (sys : os) w :
  fst (fst (init_bcm_reg_mem sys w))
  = Ok (negb (os_open sys <? 0)
        && negb (is_null (os_mmap sys BSC_LEN BSC_BASE))).
Proof.
  unfold init_bcm_reg_mem, bind, modify, emit, get, do_mmap, diag, ret.
  simpl. destruct (os_open sys <? 0); simpl; [reflexivity |].
  destruct (os_mmap sys BSC_LEN BSC_BASE); reflexivity.
Qed.

Lemma init_bcm_reg_mem_open_fails w :
  init_bcm_reg_mem os_open_fails w
  = (Ok false, set_mem_fd (-1) w,
     [EvOpen (-1); EvDiag "pi2cslave: Unable to open /dev/mem"]).
Proof. reflexivity. Qed.

Lemma init_bcm_reg_mem_all_ok w :
  fst (fst (init_bcm_reg_mem os_all_ok w)) = Ok true
  /\ bsc (snd (fst (init_bcm_reg_mem os_all_ok w))) = Mapped WIN_BSC
  /\ gpio_reg (snd (fst (init_bcm_reg_mem os_all_ok w))) = Mapped WIN_GPIO.
Proof. repeat split. Qed.

(** C3 (the code against the specification).  When /dev/mem opens
    and the BSC window maps but mmap fails for the GPIO window,
    [init_bcm_reg_mem] returns true and leaves [gpio_reg] holding
    MAP_FAILED: the test after the second mmap looks at [bsc] again.  It
    would do so even if mmap reported the failure with a null pointer.
    When mmap fails for the BSC window it returns true as well, because the
    failure value of mmap is MAP_FAILED and the test compares with null. *)
Theorem init_bcm_reg_mem_map_failure_returns_true w :
  (fst (fst (init_bcm_reg_mem os_gpio_map_fails w)) = Ok true
   /\ gpio_reg (snd (fst (init_bcm_reg_mem os_gpio_map_fails w))) = MAP_FAILED
   /\ snd (init_bcm_reg_mem os_gpio_map_fails w)
      = [EvOpen 3; EvMmap BSC_LEN BSC_BASE (Mapped WIN_BSC);
         EvMmap GPIO_LEN GPIO_BASE MAP_FAILED])
  /\ (fst (fst (init_bcm_reg_mem os_gpio_map_null w)) = Ok true
      /\ gpio_reg (snd (fst (init_bcm_reg_mem os_gpio_map_null w))) = NULL)
  /\ (fst (fst (init_bcm_reg_mem os_bsc_map_fails w)) = Ok true
      /\ bsc (snd (fst (init_bcm_reg_mem os_bsc_map_fails w))) = MAP_FAILED).
Proof. repeat split. Qed.

End Mapping.

(** ** GPIO function select *)

Section Gpio.
Context {H : Type} `{!Bus H}.

Implicit Types w : world H.

Lemma fsel_reg_small gpio :
  0 <= gpio < 2 ^ 32 -> fsel_reg gpio = gpio / 10 /\ 0 <= gpio / 10.
Proof.
  intros Hg. unfold fsel_reg, GPIO_FUN_PER_REG.
  assert (0 <= gpio / 10 < 2 ^ 31).
  { split; [apply Z.div_pos; lia | apply Z.div_lt_upper_bound; lia]. }
  split; [apply to_int32_small |]; lia.
Qed.

Lemma fsel_shift_small gpio :
  fsel_shift gpio = (gpio mod 10) * 3 /\ 0 <= (gpio mod 10) * 3 <= 27.
Proof.
  unfold fsel_shift, GPIO_FUN_PER_REG, GPIO_FUN_SHIFT.
  pose proof (Z.mod_pos_bound gpio 10 ltac:(lia)).
  split; [apply to_int32_small |]; lia.
Qed.

(** A run of [gpio_set_mode] that returns has done two read-modify-write
    cycles on one register of the GPIO window and nothing else. *)
Lemma gpio_set_mode_ok_inv gpio mode w u w' tr :
  gpio_set_mode gpio mode w = (Ok u, w', tr) ->
  exists win v1 v2,
    gpio_reg w = Mapped win
    /\ tr = [EvLoad win (fsel_reg gpio) v1;
             EvStore win (fsel_reg gpio)
               (wrap32 (Z.land v1
                          (wrap32 (Z.lnot (Z.shiftl GPIO_FUN_MASK
                                             (fsel_shift gpio))))));
             EvLoad win (fsel_reg gpio) v2;
             EvStore win (fsel_reg gpio)
               (wrap32 (Z.lor v2 (wrap32 (Z.shiftl mode (fsel_shift gpio)))))]
    /\ v1 = wrap32 v1 /\ v2 = wrap32 v2
    /\ bsc w' = bsc w /\ gpio_reg w' = gpio_reg w
    /\ cancel_after w' = cancel_after w /\ mem_fd w' = mem_fd w.
Proof.
  unfold gpio_set_mode. fold (fsel_reg gpio) (fsel_shift gpio). intros Hrun.
  apply bind_ok_inv in Hrun as (v1 & w1 & t1 & t1' & Hl1 & Hrun & ->).
  apply bind_ok_inv in Hrun as (u2 & w2 & t2 & t2' & Hs1 & Hrun & ->).
  apply bind_ok_inv in Hrun as (v2 & w3 & t3 & t3' & Hl2 & Hs2 & ->).
  apply load_ok_inv in Hl1 as (win & h1 & Hp & -> & -> & Hv1).
  apply store_ok_inv in Hs1 as (win2 & h2 & Hp2 & -> & ->).
  apply load_ok_inv in Hl2 as (win3 & h3 & Hp3 & -> & -> & Hv2).
  apply store_ok_inv in Hs2 as (win4 & h4 & Hp4 & -> & ->).
  simpl in Hp2, Hp3, Hp4.
  assert (win2 = win) by congruence. assert (win3 = win) by congruence.
  assert (win4 = win) by congruence. subst.
  exists win, v1, v2. simpl. auto 10.
Qed.

(** With the GPIO window mapped and the register inside the page, the
    run does return. *)
Lemma gpio_set_mode_mapped gpio mode w win :
  gpio_reg w = Mapped win -> 0 <= fsel_reg gpio < PAGE_WORDS ->
  exists w' tr, gpio_set_mode gpio mode w = (Ok tt, w', tr).
Proof.
  intros Hp Hreg. unfold gpio_set_mode. fold (fsel_reg gpio) (fsel_shift gpio).
  erewrite bind_ok by (apply load_mapped; eassumption).
  erewrite bind_ok by (apply store_mapped; simpl; eassumption).
  erewrite bind_ok by (apply load_mapped; simpl; eassumption).
  erewrite store_mapped by (simpl; eassumption).
  eauto.
Qed.

End Gpio.

Section GpioOut.
Context {H : Type} `{!Bus H}.

Implicit Types w : world H.

(** The value [gpio_set_mode] stores first differs from the value it read
    only inside the pin's 3-bit field, which it clears. *)
Lemma fsel_clear_bits gpio v i :
  0 <= i -> v = wrap32 v ->
  Z.testbit (wrap32 (Z.land v (wrap32 (Z.lnot (Z.shiftl GPIO_FUN_MASK
                                                  (fsel_shift gpio)))))) i
  = if (fsel_shift gpio <=? i) && (i <? fsel_shift gpio + 3) then false
    else Z.testbit v i.
Proof.
  intros Hi Hv. rewrite testbit_wrap32, Z.land_spec, testbit_clear_mask by lia.
  rewrite Hv, testbit_wrap32.
  change GPIO_FUN_MASK with (Z.ones 3). rewrite Z.testbit_ones by lia.
  destruct (Z.ltb_spec i 32), (Z.leb_spec (fsel_shift gpio) i),
    (Z.ltb_spec i (fsel_shift gpio + 3)),
    (Z.leb_spec 0 (i - fsel_shift gpio)), (Z.ltb_spec (i - fsel_shift gpio) 3);
    simpl; try lia; rewrite ?andb_true_r, ?andb_false_r; reflexivity.
Qed.

(** Storing function code 0 (input) in the second cycle stores back the
    value just read. *)
Lemma fsel_or_input gpio v :
  v = wrap32 v ->
  wrap32 (Z.lor v (wrap32 (Z.shiftl GPIO_FUN_IN (fsel_shift gpio)))) = v.
Proof.
  intros Hv. unfold GPIO_FUN_IN. rewrite Z.shiftl_0_l.
  change (wrap32 0) with 0. rewrite Z.lor_0_r. symmetry. exact Hv.
Qed.

(** C10.  For a pin in [0, 28) and the GPIO window mapped,
    [bcm_set_gpio_out] with [GPIO_STATE_FLOAT] returns true after exactly
    four register accesses, all on the pin's function-select register
    (index pin / 10, which is neither GPSET0 nor GPCLR0): it loads the
    register, stores it back with the pin's 3-bit field cleared (function
    code 0, input) and every other bit as read, loads it again and stores
    back the value just read.  No store reaches the set or the clear
    register. *)
Theorem bcm_set_gpio_out_float_frame gpio w win :
  gpio_reg w = Mapped win -> 0 <= gpio < GPIO_COUNT ->
  exists w' v1 v2 x1,
    bcm_set_gpio_out gpio GPIO_STATE_FLOAT w
    = (Ok true, w',
       [EvLoad win (gpio / 10) v1; EvStore win (gpio / 10) x1;
        EvLoad win (gpio / 10) v2; EvStore win (gpio / 10) v2])
    /\ (forall i, 0 <= i ->
          Z.testbit x1 i
          = if ((gpio mod 10) * 3 <=? i) && (i <? (gpio mod 10) * 3 + 3)
            then false else Z.testbit v1 i)
    /\ gpio / 10 <> GPSET0 /\ gpio / 10 <> GPCLR0
    /\ (forall idx v, (idx, v) ∈ stores_to win
                        (snd (bcm_set_gpio_out gpio GPIO_STATE_FLOAT w)) ->
          idx = gpio / 10).
Proof.
  intros Hp Hg. unfold GPIO_COUNT in Hg.
  assert (Hw : wrap32 gpio = gpio) by (apply wrap32_small; lia).
  destruct (fsel_reg_small gpio ltac:(lia)) as [Hreg Hreg0].
  destruct (fsel_shift_small gpio) as [Hsh Hsh0].
  assert (Hdiv : gpio / 10 < 3) by (apply Z.div_lt_upper_bound; lia).
  destruct (gpio_set_mode_mapped gpio GPIO_FUN_IN w win Hp) as (w' & tr & Hrun).
  { rewrite Hreg. unfold PAGE_WORDS. lia. }
  destruct (gpio_set_mode_ok_inv _ _ _ _ _ _ Hrun)
    as (win' & v1 & v2 & Hp' & Htr & Hv1 & Hv2 & _).
  assert (win' = win) by congruence. subst win'.
  rewrite fsel_or_input in Htr by exact Hv2. rewrite Hreg in Htr.
  assert (Hout : bcm_set_gpio_out gpio GPIO_STATE_FLOAT w = (Ok true, w', tr)).
  { unfold bcm_set_gpio_out, bind, get, ret. rewrite Hp. simpl.
    destruct (Z.ltb_spec gpio 0); [lia |].
    destruct (Z.leb_spec GPIO_COUNT gpio); [unfold GPIO_COUNT in *; lia |].
    simpl. rewrite Hw, Hrun. simpl. rewrite app_nil_r. reflexivity. }
  exists w', v1, v2,
    (wrap32 (Z.land v1 (wrap32 (Z.lnot (Z.shiftl GPIO_FUN_MASK (fsel_shift gpio)))))).
  split; [rewrite Hout, Htr; reflexivity |].
  split.
  { intros i Hi. rewrite fsel_clear_bits by assumption. rewrite Hsh. reflexivity. }
  split; [unfold GPSET0; lia |]. split; [unfold GPCLR0; lia |].
  intros idx v. rewrite Hout. simpl. rewrite Htr.
  destruct win; simpl; rewrite !elem_of_cons, elem_of_nil;
    intros [[= -> _] | [[= -> _] | []]]; reflexivity.
Qed.

(** C8 (as amended).  For a pin outside [0, 28), [bcm_set_gpio_out] returns
    false and the run consists of one diagnostic: no register is loaded or
    stored, whatever the state argument and whether or not the GPIO window
    is mapped. *)
Theorem bcm_set_gpio_out_invalid_pin gpio state w :
  gpio < 0 \/ GPIO_COUNT <= gpio ->
  exists msg,
    bcm_set_gpio_out gpio state w = (Ok false, w, [EvDiag msg]).
Proof.
  intros Hg. unfold bcm_set_gpio_out, bind, get, diag, emit, ret.
  destruct (gpio_reg w); simpl; eauto;
    destruct (Z.ltb_spec gpio 0), (Z.leb_spec GPIO_COUNT gpio); simpl; eauto; lia.
Qed.

End GpioOut.

(** The theorem applied to pin 17 of a simulated board. *)
Lemma bcm_set_gpio_out_float_frame_witness :
  exists (w' : world sim) v1 v2 x1,
    bcm_set_gpio_out 17 GPIO_STATE_FLOAT
      (world_mapped (mkSim [] [] None 0 0 (fun _ => 0) (fun _ => 0x249249) [] []))
    = (Ok true, w',
       [EvLoad WIN_GPIO (17 / 10) v1; EvStore WIN_GPIO (17 / 10) x1;
        EvLoad WIN_GPIO (17 / 10) v2; EvStore WIN_GPIO (17 / 10) v2])
    /\ x1 = 0x049249.
Proof.
  destruct (bcm_set_gpio_out_float_frame 17
              (world_mapped (mkSim [] [] None 0 0 (fun _ => 0)
                               (fun _ => 0x249249) [] []))
              WIN_GPIO eq_refl ltac:(unfold GPIO_COUNT; lia))
    as (w' & v1 & v2 & x1 & Hrun & _).
  exists w', v1, v2, x1. split; [exact Hrun |].
  vm_compute in Hrun. congruence.
Defined.

(** The theorem applied to pin 28. *)
Lemma bcm_set_gpio_out_invalid_pin_witness :
  exists msg,
    bcm_set_gpio_out 28 GPIO_STATE_HIGH (world_mapped (sim_reset []))
    = (Ok false, world_mapped (sim_reset []), [EvDiag msg]).
Proof.
  apply (bcm_set_gpio_out_invalid_pin 28 GPIO_STATE_HIGH
           (world_mapped (sim_reset []))).
  right. unfold GPIO_COUNT. lia.
Defined.

(** C8 (counterexample).  [gpio_set_mode] has no range check: called with
    pin 28 it returns normally after storing twice to function-select
    register 2. *)
Lemma gpio_set_mode_pin_28_stores :
  fst (fst (gpio_set_mode 28 GPIO_FUN_OUT (world_mapped (sim_reset [])))) = Ok tt
  /\ snd (gpio_set_mode 28 GPIO_FUN_OUT (world_mapped (sim_reset [])))
     = [EvLoad WIN_GPIO 2 0; EvStore WIN_GPIO 2 0;
        EvLoad WIN_GPIO 2 0; EvStore WIN_GPIO 2 (Z.shiftl 1 24)].
Proof. split; reflexivity. Qed.

(** ** Slave set-up and tear-down *)

Section Slave.
Context {H : Type} `{!Bus H}.

Implicit Types w : world H.

(** C9.  With both windows mapped and an 8-bit address, [init_bsc_i2c_slv]
    returns true, and the last two register accesses of the run are the
    store of the address shifted right by one bit to the slave-address
    register followed by a single store to the control register whose
    value has the transmit-enable, receive-enable, I2C-mode and
    device-enable bits set.  The only BSC stores before them are the reset
    sequence (break, status clear, interrupt mask, interrupt clear). *)
Theorem init_bsc_i2c_slv_programs_address i2c_addr w :
  bsc w = Mapped WIN_BSC -> gpio_reg w = Mapped WIN_GPIO ->
  0 <= i2c_addr < 256 ->
  exists w' tr0,
    init_bsc_i2c_slv i2c_addr w
    = (Ok true, w',
       tr0 ++ [EvStore WIN_BSC BSC_SLV (Z.shiftr i2c_addr 1);
               EvStore WIN_BSC BSC_CR
                 (Z.lor (Z.lor (Z.lor CR_TXE CR_RXE) CR_I2C) CR_EN)])
    /\ stores_to WIN_BSC tr0
       = [(BSC_CR, CR_BRK); (BSC_RSR, 0); (BSC_IMSC, 0xf); (BSC_ICR, 0xf)]
    /\ Z.shiftr i2c_addr 1 = i2c_addr / 2
    /\ Z.lor (Z.lor (Z.lor CR_TXE CR_RXE) CR_I2C) CR_EN = 0x305.
Proof.
  intros Hb Hg Ha.
  assert (Hsh : Z.shiftr i2c_addr 1 = i2c_addr / 2).
  { rewrite Z.shiftr_div_pow2 by lia. reflexivity. }
  destruct (gpio_set_mode_mapped GPIO_SDA GPIO_FUN_ALT3 w WIN_GPIO Hg)
    as (w1 & t1 & Hrun1); [vm_compute; split; congruence |].
  destruct (gpio_set_mode_ok_inv _ _ _ _ _ _ Hrun1)
    as (win1 & a1 & a2 & Hp1 & Ht1 & _ & _ & Hb1 & Hg1 & _).
  assert (win1 = WIN_GPIO) by congruence. subst win1.
  rewrite Hg in Hg1. rewrite Hb in Hb1.
  destruct (gpio_set_mode_mapped GPIO_SCL GPIO_FUN_ALT3 w1 WIN_GPIO Hg1)
    as (w2 & t2 & Hrun2); [vm_compute; split; congruence |].
  destruct (gpio_set_mode_ok_inv _ _ _ _ _ _ Hrun2)
    as (win2 & a3 & a4 & Hp2 & Ht2 & _ & _ & Hb2 & _).
  assert (win2 = WIN_GPIO) by congruence. subst win2.
  rewrite Hb1 in Hb2.
  assert (Hpage : forall idx, In idx [BSC_RSR; BSC_SLV; BSC_CR; BSC_IMSC; BSC_ICR] ->
                              0 <= idx < PAGE_WORDS).
  { intros idx Hin. simpl in Hin.
    repeat (destruct Hin as [<- | Hin]; [vm_compute; split; congruence |]).
    destruct Hin. }
  unfold init_bsc_i2c_slv.
  erewrite bind_ok by (unfold get; rewrite Hb; reflexivity).
  cbv beta iota delta [is_null].
  erewrite bind_ok by exact Hrun1.
  erewrite bind_ok by exact Hrun2.
  erewrite bind_ok by (apply store_mapped; [unfold set_hw; simpl; exact Hb2 | apply Hpage; simpl; auto 10]).
  erewrite bind_ok by (apply store_mapped; [unfold set_hw; simpl; exact Hb2 | apply Hpage; simpl; auto 10]).
  erewrite bind_ok by (apply store_mapped; [unfold set_hw; simpl; exact Hb2 | apply Hpage; simpl; auto 10]).
  erewrite bind_ok by (apply store_mapped; [unfold set_hw; simpl; exact Hb2 | apply Hpage; simpl; auto 10]).
  erewrite bind_ok by (apply store_mapped; [unfold set_hw; simpl; exact Hb2 | apply Hpage; simpl; auto 10]).
  erewrite bind_ok by (apply store_mapped; [unfold set_hw; simpl; exact Hb2 | apply Hpage; simpl; auto 10]).
  unfold ret. cbv beta iota zeta.
  rewrite (wrap32_small (Z.shiftr i2c_addr 1))
    by (rewrite Hsh; split; [apply Z.div_pos | apply Z.div_lt_upper_bound]; lia).
  eexists. exists (t1 ++ t2 ++ [EvStore WIN_BSC BSC_CR CR_BRK; EvStore WIN_BSC BSC_RSR 0;
                         EvStore WIN_BSC BSC_IMSC 0xf; EvStore WIN_BSC BSC_ICR 0xf]).
  split.
  - f_equal. rewrite <- !app_assoc. reflexivity.
  - rewrite !stores_to_app, Ht1, Ht2. repeat split; try reflexivity. exact Hsh.
Qed.

(** C7 (as amended).  Called while the pointers are still null (before the
    map), [init_bsc_i2c_slv] and [bcm_set_gpio_out] return false after a
    diagnostic and access no register.  [shutdown_bsc_i2c_slv],
    [bsc_i2c_receiving], [bsc_i2c_read_poll] (with a buffer and a non-zero
    length) and [bsc_i2c_write] make no such test: their first register
    access dereferences the null pointer, and nothing is returned. *)
Theorem calls_before_mapping w :
  bsc w = NULL -> gpio_reg w = NULL -> cancel_after w = None ->
  (forall a, exists msg,
      init_bsc_i2c_slv a w = (Ok false, w, [EvDiag msg]))
  /\ (forall gpio state, exists msg,
        bcm_set_gpio_out gpio state w = (Ok false, w, [EvDiag msg]))
  /\ shutdown_bsc_i2c_slv w = (Fault, w, [])
  /\ bsc_i2c_receiving w = (Fault, w, [])
  /\ (forall buf len, 0 < len ->
        bsc_i2c_read_poll (Some buf) len w = (Fault, w, [EvTestCancel]))
  /\ (forall (C : Type) (cb : Z -> C -> option Z * C) fuel addr c,
        bsc_i2c_write cb (S fuel) addr c w = (Fault, w, [EvTestCancel])).
Proof.
  intros Hb Hg Hc.
  assert (Hfr : load bsc BSC_FR w = (Fault, w, [])).
  { apply load_unmapped. rewrite Hb. discriminate. }
  repeat split.
  - intros a. unfold init_bsc_i2c_slv, bind, get, diag, emit, ret.
    rewrite Hb. simpl. eauto.
  - intros gpio state. unfold bcm_set_gpio_out, bind, get, diag, emit, ret.
    rewrite Hg. simpl. eauto.
  - apply store_unmapped. rewrite Hb. discriminate.
  - unfold bsc_i2c_receiving, bind. rewrite Hfr. reflexivity.
  - intros buf len Hlen. unfold bsc_i2c_read_poll, bind, testcancel.
    rewrite Hc. destruct (Z.eqb_spec len 0); [lia |].
    destruct (Z.to_nat len) eqn:Hn; [lia |]. simpl.
    unfold bind. rewrite Hfr. reflexivity.
  - intros C cb fuel addr c. unfold bsc_i2c_write, bind, testcancel.
    rewrite Hc. simpl. unfold bind. rewrite Hfr. reflexivity.
Qed.

End Slave.

(** The theorem applied to address 0x42 on a simulated board. *)
Lemma init_bsc_i2c_slv_programs_address_witness :
  exists (w' : world sim) tr0,
    init_bsc_i2c_slv 0x42 (world_mapped (sim_reset []))
    = (Ok true, w',
       tr0 ++ [EvStore WIN_BSC BSC_SLV (Z.shiftr 0x42 1);
               EvStore WIN_BSC BSC_CR
                 (Z.lor (Z.lor (Z.lor CR_TXE CR_RXE) CR_I2C) CR_EN)])
    /\ stores_to WIN_BSC tr0
       = [(BSC_CR, CR_BRK); (BSC_RSR, 0); (BSC_IMSC, 0xf); (BSC_ICR, 0xf)]
    /\ Z.shiftr 0x42 1 = 0x42 / 2
    /\ Z.lor (Z.lor (Z.lor CR_TXE CR_RXE) CR_I2C) CR_EN = 0x305.
Proof.
  apply (init_bsc_i2c_slv_programs_address 0x42 (world_mapped (sim_reset [])));
    [reflexivity | reflexivity | lia].
Defined.

(** The theorem applied to a simulated board that was never mapped. *)
Lemma calls_before_mapping_witness :
  shutdown_bsc_i2c_slv (world_unmapped (sim_reset []))
  = (Fault, world_unmapped (sim_reset []), [])
  /\ exists msg,
       init_bsc_i2c_slv 0x42 (world_unmapped (sim_reset []))
       = (Ok false, world_unmapped (sim_reset []), [EvDiag msg]).
Proof.
  destruct (calls_before_mapping (world_unmapped (sim_reset []))
              eq_refl eq_refl eq_refl) as (Hinit & _ & Hshut & _).
  split; [exact Hshut | exact (Hinit 0x42)].
Defined.

(** C7 (counterexample).  On a board that was never mapped,
    [shutdown_bsc_i2c_slv], [bsc_i2c_receiving], [bsc_i2c_read_poll] and
    [bsc_i2c_write] do not return an error: each dereferences the null
    [bsc] pointer at its first register access. *)
Lemma polls_before_mapping_fault :
  fst (fst (shutdown_bsc_i2c_slv (world_unmapped (sim_reset [])))) = Fault
  /\ fst (fst (bsc_i2c_receiving (world_unmapped (sim_reset [])))) = Fault
  /\ fst (fst (bsc_i2c_read_poll (Some [0; 0]) 2
                 (world_unmapped (sim_reset [])))) = Fault
  /\ fst (fst (bsc_i2c_write (table_cb [1; 2]) 4 0 tt
                 (world_unmapped (sim_reset [])))) = Fault.
Proof. repeat split. Qed.

(** ** Receiving *)

Section ReadPoll.
Context {H : Type} `{!Bus H}.

Implicit Types w : world H.

Lemma testcancel_ok w :
  cancel_after w <> Some O ->
  exists w', testcancel w = (Ok tt, w', [EvTestCancel])
             /\ bsc w' = bsc w /\ hw w' = hw w
             /\ (cancel_after w = None -> w' = w).
Proof.
  intros Hc. unfold testcancel. destruct (cancel_after w) as [[| n] |].
  - congruence.
  - eexists. repeat split. discriminate.
  - exists w. repeat split.
Qed.

(** C6.  In an iteration of the loop of [bsc_i2c_read_poll] that finds the
    overrun flag (bit 0) set in the status register, the run reports the
    overflow, loads the status register again and stores it back with bit
    0 clear and every other bit as loaded, then loads the data register
    and puts its low 8 bits into the buffer at the current position, and
    the count advances by one. *)
Theorem read_poll_body_overrun buf read w win :
  bsc w = Mapped win -> cancel_after w <> Some O ->
  0 <= read < Z.of_nat (length buf) ->
  Z.testbit (fst (bus_load win BSC_RSR (hw w))) 0 = true ->
  exists w' rsr v x d,
    read_poll_body buf read w
    = (Ok (<[Z.to_nat read := Z.land d 0xFF]> buf, read + 1), w',
       [EvTestCancel; EvLoad win BSC_RSR rsr;
        EvDiag "pi2cslave: Overflow!";
        EvLoad win BSC_RSR v; EvStore win BSC_RSR x;
        EvLoad win BSC_DR d])
    /\ Z.testbit rsr 0 = true
    /\ Z.testbit x 0 = false
    /\ (forall i, i <> 0 -> Z.testbit x i = Z.testbit v i)
    /\ <[Z.to_nat read := Z.land d 0xFF]> buf !! Z.to_nat read
       = Some (Z.land d 0xFF)
    /\ 0 <= Z.land d 0xFF < 256.
Proof.
  intros Hb Hc Hread Hoe.
  destruct (testcancel_ok w Hc) as (w0 & Htc & Hb0 & Hh0 & _).
  rewrite <- Hb0 in Hb. rewrite <- Hh0 in Hoe.
  assert (Hpage : forall idx, In idx [BSC_RSR; BSC_DR] -> 0 <= idx < PAGE_WORDS).
  { intros idx [<- | [<- | []]]; vm_compute; split; congruence. }
  set (rsr := wrap32 (fst (bus_load win BSC_RSR (hw w0)))).
  assert (Hrsr : Z.testbit rsr 0 = true).
  { unfold rsr. rewrite testbit_wrap32, Hoe. reflexivity. }
  assert (Htest : (Z.land rsr RSR_OE =? 0) = false).
  { unfold RSR_OE. rewrite land_bit_eqb, Hrsr by lia. reflexivity. }
  unfold read_poll_body.
  erewrite bind_ok by exact Htc. cbv beta iota.
  erewrite bind_ok by (apply load_mapped; [exact Hb | apply Hpage; simpl; auto]).
  cbv beta iota. fold rsr. rewrite Htest.
  unfold diag, rsr_clear.
  erewrite bind_ok by (erewrite bind_ok by reflexivity; cbv beta iota;
    erewrite bind_ok by (apply load_mapped;
      [unfold set_hw; simpl; exact Hb | apply Hpage; simpl; auto]);
    cbv beta iota;
    erewrite store_mapped
      by first [unfold set_hw; simpl; exact Hb | apply Hpage; simpl; auto];
    reflexivity).
  cbv beta iota.
  erewrite bind_ok by (apply load_mapped;
    [unfold set_hw; simpl; exact Hb | apply Hpage; simpl; auto]).
  cbv beta iota. unfold buf_store.
  destruct (Z.leb_spec 0 read); [| lia].
  destruct (Z.ltb_spec read (Z.of_nat (length buf))); [| lia].
  simpl andb. cbv iota. unfold bind, ret.
  do 5 eexists. split; [reflexivity |].
  split; [exact Hrsr |].
  split; [unfold RSR_OE; rewrite testbit_clear_bit by
            (try lia; symmetry; apply wrap32_idem); reflexivity |].
  split.
  { intros i Hi. unfold RSR_OE. rewrite testbit_clear_bit by
      (try lia; symmetry; apply wrap32_idem).
    destruct (Z.eqb_spec i 0); [contradiction | reflexivity]. }
  split.
  { apply list_lookup_insert_eq. lia. }
  change 0xFF with (Z.ones 8). rewrite Z.land_ones by lia.
  apply Z.mod_pos_bound. lia.
Qed.

End ReadPoll.

(** ** Facts about the simulated peripheral *)

Lemma testbit_flag b k i :
  0 <= k -> Z.testbit (flag b (Z.shiftl 1 k)) i = b && (k =? i).
Proof.
  intros Hk. destruct b; simpl.
  - rewrite Z.shiftl_1_l. apply Z.pow2_bits_eqb. exact Hk.
  - apply Z.bits_0.
Qed.

(** The flag register of the simulation answers the driver's two
    emptiness tests as the FIFOs stand. *)
Lemma sim_rx_empty_test s :
  (Z.land (wrap32 (sim_fr s)) FR_RXFE =? 0) = negb (is_nil (sim_rx s)).
Proof.
  unfold FR_RXFE. rewrite land_bit_eqb, testbit_wrap32 by lia. f_equal.
  unfold sim_fr, FR_RXFE, FR_TXFF, FR_RXFF, FR_TXFE.
  rewrite !Z.lor_spec, !Z.land_spec, !testbit_flag by lia.
  change (Z.testbit FR_TXFLEVEL 1) with false.
  change (Z.testbit FR_RXFLEVEL 1) with false.
  simpl. rewrite !andb_false_r, !orb_false_r. apply andb_true_r.
Qed.

Lemma sim_tx_empty_test s :
  (Z.land (wrap32 (sim_fr s)) FR_TXFE =? 0) = negb (is_nil (sim_tx s)).
Proof.
  unfold FR_TXFE. rewrite land_bit_eqb, testbit_wrap32 by lia. f_equal.
  unfold sim_fr, FR_RXFE, FR_TXFF, FR_RXFF, FR_TXFE.
  rewrite !Z.lor_spec, !Z.land_spec, !testbit_flag by lia.
  change (Z.testbit FR_TXFLEVEL 4) with false.
  change (Z.testbit FR_RXFLEVEL 4) with false.
  simpl. rewrite !andb_false_r, !orb_false_r. apply andb_true_r.
Qed.

(** One iteration of the receive loop on the simulation: if it returns, it
    has taken the first byte off the RX FIFO, advanced the count by one,
    and not slept. *)
Lemma read_poll_body_sim buf read fd g s c r w' tr :
  read_poll_body buf read (mkWorld fd (Mapped WIN_BSC) g s c) = (r, w', tr) ->
  no_sleep tr
  /\ (forall buf' read', r = Ok (buf', read') ->
        read' = read + 1
        /\ exists s' c', w' = mkWorld fd (Mapped WIN_BSC) g s' c'
                         /\ sim_rx s' = tail (sim_rx s)
                         /\ (c = None -> c' = None)).
Proof.
  unfold read_poll_body, bind, testcancel, load, store, rsr_clear, diag, emit,
    buf_store, ret, fault. simpl.
  destruct c as [[| m] |]; simpl.
  - intros [= <- <- <-]. split; [repeat constructor | discriminate].
  - destruct (Z.land (wrap32 (sim_rsr s)) RSR_OE =? 0); simpl;
      destruct (sim_rx s) as [| b rx] eqn:Hrx; simpl;
      destruct ((0 <=? read) && (read <? Z.of_nat (length buf))); simpl;
      intros [= <- <- <-]; (split; [repeat constructor |]);
      try discriminate; intros buf' read' [= <- <-];
      (split; [reflexivity |]); do 2 eexists; (split; [reflexivity |]);
      simpl; rewrite ?Hrx; split; try reflexivity; discriminate.
  - destruct (Z.land (wrap32 (sim_rsr s)) RSR_OE =? 0); simpl;
      destruct (sim_rx s) as [| b rx] eqn:Hrx; simpl;
      destruct ((0 <=? read) && (read <? Z.of_nat (length buf))); simpl;
      intros [= <- <- <-]; (split; [repeat constructor |]);
      try discriminate; intros buf' read' [= <- <-];
      (split; [reflexivity |]); do 2 eexists; (split; [reflexivity |]);
      simpl; rewrite ?Hrx; split; reflexivity.
Qed.

Lemma sim_load_fr fd g s c :
  load bsc BSC_FR (mkWorld fd (Mapped WIN_BSC) g s c)
  = (Ok (wrap32 (sim_fr s)), mkWorld fd (Mapped WIN_BSC) g s c,
     [EvLoad WIN_BSC BSC_FR (wrap32 (sim_fr s))]).
Proof. reflexivity. Qed.

Lemma no_sleep_app t1 t2 : no_sleep t1 -> no_sleep t2 -> no_sleep (t1 ++ t2).
Proof. unfold no_sleep. intros H1 H2. apply Forall_app. split; assumption. Qed.

(** On the simulation the overrun flag reads clear right after such an
    iteration, the other status bits are as they were, and the byte at the
    head of the RX FIFO has been taken. *)
Lemma sim_overrun_flag_reads_clear buf read fd g s :
  Z.testbit (sim_rsr s) 0 = true ->
  0 <= read < Z.of_nat (length buf) ->
  exists buf' s' tr,
    read_poll_body buf read (mkWorld fd (Mapped WIN_BSC) g s None)
    = (Ok (buf', read + 1), mkWorld fd (Mapped WIN_BSC) g s' None, tr)
    /\ Z.testbit (sim_rsr s') 0 = false
    /\ (forall i, i <> 0 ->
          Z.testbit (sim_rsr s') i = Z.testbit (wrap32 (sim_rsr s)) i)
    /\ sim_rx s' = tail (sim_rx s)
    /\ buf' !! Z.to_nat read = Some (Z.land (wrap32 (hd 0 (sim_rx s))) 0xFF).
Proof.
  intros Hoe Hread.
  assert (Htest : (Z.land (wrap32 (sim_rsr s)) RSR_OE =? 0) = false).
  { unfold RSR_OE. rewrite land_bit_eqb, testbit_wrap32, Hoe by lia. reflexivity. }
  assert (Hbits : forall i,
             Z.testbit (wrap32 (Z.land (wrap32 (sim_rsr s))
                                  (wrap32 (Z.lnot RSR_OE)))) i
             = if i =? 0 then false else Z.testbit (wrap32 (sim_rsr s)) i).
  { intros i. apply (testbit_clear_bit (wrap32 (sim_rsr s)) 0 i); [lia |].
    symmetry. apply wrap32_idem. }
  unfold read_poll_body, bind, testcancel, load, store, rsr_clear, diag, emit,
    buf_store, ret, fault. simpl. rewrite Htest. simpl.
  destruct (Z.leb_spec 0 read); [| lia].
  destruct (Z.ltb_spec read (Z.of_nat (length buf))); [| lia].
  destruct (sim_rx s) as [| b rx]; simpl;
    do 3 eexists; (split; [reflexivity |]); simpl;
    (split; [apply (Hbits 0) |]);
    (split; [intros i Hi; rewrite (Hbits i);
             destruct (Z.eqb_spec i 0); [contradiction | reflexivity] |]);
    (split; [reflexivity | apply list_lookup_insert_eq; lia]).
Qed.

(** The receive loop on the simulation: a run that returns has taken
    min(len, RX level) bytes off the RX FIFO, and never sleeps. *)
Lemma read_poll_loop_sim n :
  forall buf read fd g s c r w' tr,
    read_poll_loop n buf read (mkWorld fd (Mapped WIN_BSC) g s c) = (r, w', tr) ->
    no_sleep tr
    /\ (forall buf' read', r = Ok (buf', read') ->
          read' = read + Z.of_nat (Nat.min n (length (sim_rx s)))
          /\ sim_rx (hw w') = drop (Nat.min n (length (sim_rx s))) (sim_rx s)).
Proof.
  induction n as [| n IH]; intros buf read fd g s c r w' tr.
  - simpl. unfold ret. intros [= <- <- <-]. split; [constructor |].
    intros buf' read' [= <- <-]. simpl. rewrite drop_0. split; [lia | reflexivity].
  - cbn [read_poll_loop]. unfold bind at 1. rewrite sim_load_fr, sim_rx_empty_test.
    destruct (sim_rx s) as [| b rx] eqn:Hrx; cbn [is_nil negb].
    + unfold ret. intros [= <- <- <-]. split; [repeat constructor |].
      intros buf' read' [= <- <-]. simpl. split; [lia | exact Hrx].
    + unfold bind at 1.
      destruct (read_poll_body buf read (mkWorld fd (Mapped WIN_BSC) g s c))
        as [[r1 w1] t1] eqn:Hbody.
      apply read_poll_body_sim in Hbody as [Hns1 Hok1].
      destruct r1 as [[buf1 read1] | | |];
        try (intros [= <- <- <-];
             split; [apply (no_sleep_app [_]); [repeat constructor | exact Hns1]
                    | discriminate]).
      destruct (Hok1 _ _ eq_refl) as (-> & s' & c' & -> & Hrx' & _).
      destruct (read_poll_loop n buf1 (read + 1)
                  (mkWorld fd (Mapped WIN_BSC) g s' c')) as [[r2 w2] t2] eqn:Hloop.
      apply IH in Hloop as [Hns2 Hok2]. intros [= <- <- <-].
      split.
      { apply (no_sleep_app [_]); [repeat constructor |].
        apply no_sleep_app; assumption. }
      intros buf' read' ->. destruct (Hok2 _ _ eq_refl) as [-> Hdrop].
      rewrite Hrx in Hrx'. simpl in Hrx'. rewrite Hrx' in Hdrop |- *.
      simpl. split; [lia | exact Hdrop].
Qed.

(** With no cancellation pending and room in the buffer, the receive loop
    on the simulation returns. *)
Lemma read_poll_loop_sim_returns n :
  forall buf read fd g s,
    0 <= read ->
    read + Z.of_nat (Nat.min n (length (sim_rx s))) <= Z.of_nat (length buf) ->
    exists buf' read' w' tr,
      read_poll_loop n buf read (mkWorld fd (Mapped WIN_BSC) g s None)
      = (Ok (buf', read'), w', tr).
Proof.
  induction n as [| n IH]; intros buf read fd g s Hread Hroom.
  - simpl. unfold ret. eauto.
  - cbn [read_poll_loop]. unfold bind at 1. rewrite sim_load_fr, sim_rx_empty_test.
    destruct (sim_rx s) as [| b rx] eqn:Hrx; cbn [is_nil negb].
    + unfold ret. eauto.
    + simpl in Hroom. unfold bind at 1.
      destruct (read_poll_body buf read (mkWorld fd (Mapped WIN_BSC) g s None))
        as [[r1 w1] t1] eqn:Hbody.
      assert (Hret : exists buf1, r1 = Ok (buf1, read + 1)
                                  /\ length buf1 = length buf).
      { revert Hbody.
        unfold read_poll_body, bind, testcancel, load, store, rsr_clear, diag,
          emit, buf_store, ret, fault. simpl.
        destruct (Z.leb_spec 0 read); [| lia].
        destruct (Z.ltb_spec read (Z.of_nat (length buf))); [| lia].
        destruct (Z.land (wrap32 (sim_rsr s)) RSR_OE =? 0); simpl;
          rewrite Hrx; simpl; intros [= <- _ _]; eexists;
          (split; [reflexivity | apply length_insert]). }
      destruct Hret as (buf1 & -> & Hlen).
      apply read_poll_body_sim in Hbody as [_ Hok1].
      destruct (Hok1 _ _ eq_refl) as (_ & s' & c' & -> & Hrx' & Hc').
      rewrite (Hc' eq_refl). rewrite Hrx in Hrx'. simpl in Hrx'.
      destruct (IH buf1 (read + 1) fd g s') as (buf' & read' & w' & tr & Hloop).
      { lia. }
      { rewrite Hrx', Hlen. lia. }
      rewrite Hloop. eauto.
Qed.

(** A run that starts with a cancellation point. *)
Lemma bind_testcancel {H} `{!Bus H} {A} (k : unit -> M H A) fd b g (h : H) c :
  bind testcancel k (mkWorld fd b g h c)
  = match c with
    | Some O => (Cancelled, mkWorld fd b g h c, [EvTestCancel])
    | Some (S m) =>
        let '(r, w2, t2) := k tt (mkWorld fd b g h (Some m)) in
        (r, w2, EvTestCancel :: t2)
    | None =>
        let '(r, w2, t2) := k tt (mkWorld fd b g h None) in
        (r, w2, EvTestCancel :: t2)
    end.
Proof. destruct c as [[| m] |]; reflexivity. Qed.

(** C5.  On the simulated peripheral, with the BSC window mapped, every
    run of [bsc_i2c_read_poll] that returns a count returns one that is at
    most [len] and at most the number of bytes the RX FIFO held when it
    was called (the smaller of the two, whenever that fits an [int]); with
    [len] zero or a null buffer the count is 0 and no register is
    accessed; with the RX FIFO empty the count is 0; and no run sleeps.
    With no cancellation pending and a buffer of at least [len] bytes the
    run does return. *)
Theorem bsc_i2c_read_poll_bounds (buf : option (list Z)) len (w : world sim) :
  bsc w = Mapped WIN_BSC -> 0 <= len ->
  let rx := Z.of_nat (length (sim_rx (hw w))) in
  let run := bsc_i2c_read_poll buf len w in
  no_sleep (snd run)
  /\ (forall n b, fst (fst run) = Ok (n, b) ->
        n <= len /\ n <= rx
        /\ (buf <> None -> Z.min len rx < 2 ^ 31 -> n = Z.min len rx)
        /\ (len = 0 \/ buf = None -> n = 0 /\ no_reg_access (snd run)))
  /\ (cancel_after w = None ->
      (forall b, buf = Some b -> len <= Z.of_nat (length b)) ->
      exists n b, fst (fst run) = Ok (n, b)).
Proof.
  intros Hb Hlen. cbv zeta.
  destruct w as [fd b g s c]. simpl in Hb. subst b. cbn [hw].
  assert (Hmin : Z.of_nat (Nat.min (Z.to_nat len) (length (sim_rx s)))
                 = Z.min len (Z.of_nat (length (sim_rx s)))) by lia.
  assert (Hnil : no_sleep [EvTestCancel]) by (repeat constructor).
  assert (Hnra : no_reg_access [EvTestCancel]) by (repeat constructor).
  (* The run after the first cancellation point, at any cancellation budget. *)
  assert (Hrest : forall c',
    let w1 := mkWorld fd (Mapped WIN_BSC) g s c' in
    let rest := match buf with
                | None => ret (0, None)
                | Some b =>
                    if len =? 0 then ret (0, Some b)
                    else bind (read_poll_loop (Z.to_nat len) b 0)
                           (fun '(b', read) => ret (to_int32 read, Some b'))
                end w1 in
    no_sleep (snd rest)
    /\ (forall n b, fst (fst rest) = Ok (n, b) ->
          n <= len /\ n <= Z.of_nat (length (sim_rx s))
          /\ (buf <> None ->
              Z.min len (Z.of_nat (length (sim_rx s))) < 2 ^ 31 ->
              n = Z.min len (Z.of_nat (length (sim_rx s))))
          /\ (len = 0 \/ buf = None -> n = 0 /\ snd rest = []))
    /\ (c' = None ->
        (forall b, buf = Some b -> len <= Z.of_nat (length b)) ->
        exists n b, fst (fst rest) = Ok (n, b))).
  { intros c'. cbv zeta. destruct buf as [b |]; unfold ret.
    2:{ cbn [fst snd]. split; [constructor |]. split; [| eauto].
        intros n b [= <- <-]. split; [lia |]. split; [lia |].
        split; [congruence | auto]. }
    destruct (Z.eqb_spec len 0) as [-> | Hne].
    { cbn [fst snd]. split; [constructor |]. split; [| eauto].
      intros n b' [= <- <-]. split; [lia |]. split; [lia |].
      split; [lia | auto]. }
    unfold bind.
    destruct (read_poll_loop (Z.to_nat len) b 0
                (mkWorld fd (Mapped WIN_BSC) g s c')) as [[r2 w2] t2] eqn:Hloop.
    pose proof (read_poll_loop_sim _ _ _ _ _ _ _ _ _ _ Hloop) as [Hns Hok].
    split; [| split].
    - destruct r2 as [[b' read'] | | |]; cbn [snd]; rewrite ?app_nil_r; exact Hns.
    - destruct r2 as [[b' read'] | | |]; cbn [fst snd]; try discriminate.
      intros n b0 [= <- <-]. destruct (Hok _ _ eq_refl) as [-> _].
      rewrite Z.add_0_l, Hmin.
      pose proof (to_int32_le (Z.min len (Z.of_nat (length (sim_rx s))))
                    ltac:(lia)) as Hle.
      split; [lia |]. split; [lia |]. split.
      + intros _ Hsmall. apply to_int32_small. lia.
      + intros [? | ?]; [lia | discriminate].
    - intros -> Hroom. specialize (Hroom b eq_refl).
      destruct (read_poll_loop_sim_returns (Z.to_nat len) b 0 fd g s)
        as (buf' & read' & w' & tr & Hret); [lia | lia |].
      rewrite Hret in Hloop. injection Hloop as <- <- <-. cbn [fst]. eauto. }
  unfold bsc_i2c_read_poll. rewrite bind_testcancel.
  destruct c as [[| m] |].
  - cbn [fst snd]. split; [exact Hnil |]. split; [discriminate |]. discriminate.
  - specialize (Hrest (Some m)). cbv zeta in Hrest.
    match type of Hrest with context [snd ?run] => destruct run as [[r2 w2] t2] end.
    cbn [fst snd] in *. destruct Hrest as (Hns & Hok & _).
    split; [apply (no_sleep_app [_]); assumption |].
    split; [| discriminate].
    intros n b Hr. destruct (Hok n b Hr) as (H1 & H2 & H3 & H4).
    split; [exact H1 |]. split; [exact H2 |]. split; [exact H3 |].
    intros Hz. destruct (H4 Hz) as [-> ->]. split; [reflexivity | exact Hnra].
  - specialize (Hrest None). cbv zeta in Hrest.
    match type of Hrest with context [snd ?run] => destruct run as [[r2 w2] t2] end.
    cbn [fst snd] in *. destruct Hrest as (Hns & Hok & Hret).
    split; [apply (no_sleep_app [_]); assumption |].
    split; [| intros _ Hroom; exact (Hret eq_refl Hroom)].
    intros n b Hr. destruct (Hok n b Hr) as (H1 & H2 & H3 & H4).
    split; [exact H1 |]. split; [exact H2 |]. split; [exact H3 |].
    intros Hz. destruct (H4 Hz) as [-> ->]. split; [reflexivity | exact Hnra].
Qed.

(** ** Transmitting: the callback invocations of a run *)

Lemma wrap16_add_l a b : wrap16 (wrap16 a + b) = wrap16 (a + b).
Proof. unfold wrap16. apply Zplus_mod_idemp_l. Qed.

Lemma addr_run_congr a b n : wrap16 a = wrap16 b -> addr_run a n = addr_run b n.
Proof.
  intros Hab. unfold addr_run. apply map_ext. intros i.
  rewrite <- (wrap16_add_l a), <- (wrap16_add_l b), Hab. reflexivity.
Qed.

Lemma map_seq_from {A} (F : nat -> A) m :
  forall s, map F (seq s m) = map (fun i => F (s + i)%nat) (seq 0 m).
Proof.
  induction m as [| m IH]; intros s; simpl; [reflexivity |].
  rewrite Nat.add_0_r. f_equal.
  rewrite IH, <- seq_shift, map_map. apply map_ext. intros i. f_equal. lia.
Qed.

Lemma addr_run_app a n m :
  addr_run a (n + m) = addr_run a n ++ addr_run (a + Z.of_nat n) m.
Proof.
  unfold addr_run. rewrite seq_app, map_app. f_equal.
  rewrite map_seq_from. apply map_ext. intros i. f_equal. lia.
Qed.

Section Quiet.
Context {H : Type} `{!Bus H}.

Implicit Types w : world H.

Lemma quiet_weaken {A} (m : M H A) (R R' : A -> Prop) :
  quiet m R -> (forall a, R a -> R' a) -> quiet m R'.
Proof.
  intros Hm HR w r w' tr Hrun. destruct (Hm _ _ _ _ Hrun) as [Hc Hr].
  split; [exact Hc | intros a Ha; apply HR, Hr, Ha].
Qed.

Lemma quiet_ret {A} (a : A) : quiet (ret a) (fun x => x = a).
Proof. intros w r w' tr [= <- <- <-]. split; [reflexivity | congruence]. Qed.

Lemma quiet_fault {A} (R : A -> Prop) : quiet fault R.
Proof. intros w r w' tr [= <- <- <-]. split; [reflexivity | discriminate]. Qed.

Lemma quiet_out_of_fuel {A} (R : A -> Prop) : quiet out_of_fuel R.
Proof. intros w r w' tr [= <- <- <-]. split; [reflexivity | discriminate]. Qed.

Lemma quiet_load p idx : quiet (load p idx) (fun v => 0 <= v < 2 ^ 32).
Proof.
  intros w r w' tr. unfold load. destruct (p w) as [| | win].
  1, 2: intros [= <- <- <-]; split; [reflexivity | discriminate].
  destruct ((0 <=? idx) && (idx <? PAGE_WORDS)).
  - destruct (bus_load win idx (hw w)) as [v h]. intros [= <- <- <-].
    split; [reflexivity |]. intros a [= <-]. apply wrap32_range.
  - intros [= <- <- <-]; split; [reflexivity | discriminate].
Qed.

Lemma quiet_store p idx v : quiet (store p idx v) (fun _ => True).
Proof.
  intros w r w' tr. unfold store. destruct (p w) as [| | win].
  1, 2: intros [= <- <- <-]; split; [reflexivity | discriminate].
  destruct ((0 <=? idx) && (idx <? PAGE_WORDS));
    intros [= <- <- <-]; split; auto.
Qed.

Lemma quiet_testcancel : quiet testcancel (fun _ => True).
Proof.
  intros w r w' tr. unfold testcancel.
  destruct (cancel_after w) as [[| n] |]; intros [= <- <- <-]; split; auto.
Qed.

Lemma quiet_usleep us : quiet (usleep us) (fun _ => True).
Proof. intros w r w' tr [= <- <- <-]. split; auto. Qed.

Lemma quiet_diag msg : quiet (diag msg) (fun _ => True).
Proof. intros w r w' tr [= <- <- <-]. split; auto. Qed.

Lemma quiet_incr_int x :
  quiet (incr_int x) (fun y => y = x + 1 /\ x < INT_MAX).
Proof.
  intros w r w' tr. unfold incr_int. destruct (Z.ltb_spec x INT_MAX).
  - intros [= <- <- <-]. split; [reflexivity |]. intros a [= <-]. auto.
  - intros [= <- <- <-]. split; [reflexivity | discriminate].
Qed.

Lemma quiet_bind {A B} (m : M H A) (k : A -> M H B) R R' :
  quiet m R -> (forall a, R a -> quiet (k a) R') -> quiet (bind m k) R'.
Proof.
  intros Hm Hk w r w' tr Hrun.
  apply bind_inv in Hrun
    as [(a & w1 & t1 & t2 & Hm1 & Hk1 & ->) | (r1 & Hm1 & Hno & ->)].
  - destruct (Hm _ _ _ _ Hm1) as [Hc1 HR].
    destruct (Hk a (HR a eq_refl) _ _ _ _ Hk1) as [Hc2 HR'].
    split; [rewrite cbs_app, Hc1, Hc2; reflexivity | exact HR'].
  - destruct (Hm _ _ _ _ Hm1) as [Hc1 _].
    split; [exact Hc1 |]. intros b Hb. destruct r1; simpl in *; discriminate || contradiction.
Qed.

Lemma quiet_rsr_clear flag : quiet (rsr_clear flag) (fun _ => True).
Proof.
  unfold rsr_clear. eapply quiet_bind; [apply quiet_load |].
  intros v _. apply quiet_store.
Qed.

(** A property [Q] of the outcome and of the callback invocations of a run
    passes over a quiet prefix. *)
Lemma bind_quiet {A B} (m : M H A) (k : A -> M H B) R
    (Q : outcome B -> list (Z * option Z) -> Prop) w r w' tr :
  quiet m R ->
  (forall r0 : outcome B, not_ok r0 -> Q r0 []) ->
  (forall a w1 r2 w2 t2, R a -> k a w1 = (r2, w2, t2) -> Q r2 (cbs t2)) ->
  bind m k w = (r, w', tr) -> Q r (cbs tr).
Proof.
  intros Hm Hfail Hk Hrun.
  apply bind_inv in Hrun
    as [(a & w1 & t1 & t2 & Hm1 & Hk1 & ->) | (r1 & Hm1 & Hno & ->)].
  - destruct (Hm _ _ _ _ Hm1) as [Hc1 HR].
    rewrite cbs_app, Hc1. simpl. eapply Hk; [apply HR; reflexivity | exact Hk1].
  - destruct (Hm _ _ _ _ Hm1) as [-> _]. apply Hfail.
    destruct r1; simpl in *; auto.
Qed.

End Quiet.

Lemma wrap16_idem a : wrap16 (wrap16 a) = wrap16 a.
Proof. unfold wrap16. apply Zmod_mod. Qed.

Lemma tx_post_fail {C} a o (r : outcome (Z * Z * C)) l :
  not_ok r -> map fst l = addr_run a (length l) -> tx_post a o r l.
Proof.
  intros Hno Hl. split; [exact Hl |].
  intros a' o' c' ->. destruct Hno.
Qed.

Lemma addr_run_one a (res : option Z) :
  map fst [(wrap16 a, res)] = addr_run a (length [(wrap16 a, res)]).
Proof. unfold addr_run. simpl. rewrite Z.add_0_r. reflexivity. Qed.

Lemma tx_post_nil {C} a o (c : C) : tx_post a o (Ok (a, o, c)) [].
Proof.
  split; [reflexivity |]. intros a' o' c' [= <- <- <-]. simpl.
  rewrite Z.add_0_r. repeat split; lia.
Qed.

Lemma tx_post_cons {C} a o o' res (r : outcome (Z * Z * C)) l :
  tx_post (wrap16 (a + 1)) o' r l ->
  o' = o + cb_oks [(wrap16 a, res)] -> o' <= Z.max o INT_MAX ->
  tx_post a o r ((wrap16 a, res) :: l).
Proof.
  intros [Hl Hok] Ho Hmax. split.
  - simpl length. change (S (length l)) with (1 + length l)%nat.
    rewrite addr_run_app. simpl. rewrite Z.add_0_r. f_equal.
    rewrite Hl. apply addr_run_congr. apply wrap16_idem.
  - intros a' o'' c' Hr. destruct (Hok _ _ _ Hr) as (Ha & Ho' & Hb).
    split.
    { rewrite Ha, wrap16_add_l. f_equal. simpl length. lia. }
    assert (Hoks : cb_oks ((wrap16 a, res) :: l) = cb_oks [(wrap16 a, res)] + cb_oks l).
    { destruct res; simpl; lia. }
    pose proof (cb_oks_bounds [(wrap16 a, res)]).
    split; lia.
Qed.

Lemma tx_post_app {C} a o a1 o1 (c1 : C) (r : outcome (Z * Z * C)) l1 l2 :
  tx_post a o (Ok (a1, o1, c1)) l1 -> tx_post a1 o1 r l2 ->
  tx_post a o r (l1 ++ l2).
Proof.
  intros [Hl1 Hok1] [Hl2 Hok2].
  destruct (Hok1 _ _ _ eq_refl) as (Ha1 & Ho1 & Hb1).
  split.
  - rewrite map_app, length_app, addr_run_app, Hl1, Hl2. f_equal.
    apply addr_run_congr. exact Ha1.
  - intros a' o' c' Hr. destruct (Hok2 _ _ _ Hr) as (Ha & Ho & Hb).
    rewrite length_app, cb_oks_app, Nat2Z.inj_add.
    split.
    { rewrite Ha, <- (wrap16_add_l a1), Ha1, wrap16_add_l. f_equal. lia. }
    split; lia.
Qed.

Section WriteFacts.
Context {H : Type} `{!Bus H} {C : Type} (cb : Z -> C -> option Z * C).

Implicit Types w : world H.

Lemma call_cb_bind {B} (k : option Z * C -> M H B) addr c w :
  bind (call_cb cb addr c) k w
  = (let '(res, c1) := cb (wrap16 addr) c in
     let '(r, w2, t2) := k (option_map wrap8 res, c1) w in
     (r, w2, EvCallback (wrap16 addr) (option_map wrap8 res) :: t2)).
Proof.
  unfold call_cb, bind, emit, ret. destruct (cb (wrap16 addr) c) as [res c1].
  destruct (k (option_map wrap8 res, c1) w) as [[r w2] t2]. reflexivity.
Qed.

Lemma write_fill_post fuel :
  forall addr offset c w r w' tr,
    write_fill cb fuel addr offset c w = (r, w', tr) ->
    tx_post addr offset r (cbs tr).
Proof.
  induction fuel as [| fuel IH]; intros addr offset c w r w' tr.
  - intros [= <- <- <-]. apply tx_post_fail; [exact I | reflexivity].
  - cbn [write_fill].
    apply (bind_quiet _ _ _ (tx_post addr offset) _ _ _ _ (quiet_load _ _)).
    { intros r0 Hno. apply tx_post_fail; [exact Hno | reflexivity]. }
    intros fr w1 r2 w2 t2 _.
    destruct (Z.land fr FR_TXFF =? 0).
    2:{ intros [= <- <- <-]. apply tx_post_nil. }
    apply (bind_quiet _ _ _ (tx_post addr offset) _ _ _ _ quiet_testcancel).
    { intros r0 Hno. apply tx_post_fail; [exact Hno | reflexivity]. }
    clear w1 r2 w2 t2. intros _ w1 r2 w2 t2 _.
    apply (bind_quiet _ _ _ (tx_post addr offset) _ _ _ _ (quiet_load _ _)).
    { intros r0 Hno. apply tx_post_fail; [exact Hno | reflexivity]. }
    clear w1 r2 w2 t2. intros rsr w1 r2 w2 t2 _.
    apply (bind_quiet _ _ (fun _ => True) (tx_post addr offset)).
    { destruct (Z.land rsr RSR_UE =? 0).
      - eapply quiet_weaken; [apply quiet_ret | auto].
      - eapply quiet_bind; [apply quiet_diag |]. intros _ _. apply quiet_rsr_clear. }
    { intros r0 Hno. apply tx_post_fail; [exact Hno | reflexivity]. }
    clear w1 r2 w2 t2. intros _ w1 r2 w2 t2 _.
    rewrite call_cb_bind.
    destruct (cb (wrap16 addr) c) as [[byte |] c1];
      cbv beta iota; cbn [option_map].
    + match goal with |- context [bind ?m ?k w1] =>
        destruct (bind m k w1) as [[r3 w3] t3] eqn:Hrest end.
      intros [= <- <- <-]. simpl cbs. revert Hrest.
      apply (bind_quiet _ _ _
               (fun r l => tx_post addr offset r ((wrap16 addr, Some (wrap8 byte)) :: l))
               _ _ _ _ (quiet_store _ _ _)).
      { intros r0 Hno. apply tx_post_fail; [exact Hno | apply addr_run_one]. }
      clear w1 w3 t3. intros _ w1 r4 w4 t4 _.
      apply (bind_quiet _ _ _
               (fun r l => tx_post addr offset r ((wrap16 addr, Some (wrap8 byte)) :: l))
               _ _ _ _ (quiet_incr_int _)).
      { intros r0 Hno. apply tx_post_fail; [exact Hno | apply addr_run_one]. }
      clear w1 w4 t4. intros y w1 r5 w5 t5 [-> Hlt] Hrun.
      apply IH in Hrun. eapply tx_post_cons; [exact Hrun | simpl; lia | lia].
    + unfold ret. intros [= <- <- <-]. simpl cbs.
      eapply tx_post_cons; [apply tx_post_nil | simpl; lia | lia].
Qed.

Lemma write_serve_post ifuel fuel :
  forall addr offset c w r w' tr,
    write_serve cb ifuel fuel addr offset c w = (r, w', tr) ->
    tx_post addr offset r (cbs tr).
Proof.
  induction fuel as [| fuel IH]; intros addr offset c w r w' tr.
  - intros [= <- <- <-]. apply tx_post_fail; [exact I | reflexivity].
  - cbn [write_serve].
    apply (bind_quiet _ _ _ (tx_post addr offset) _ _ _ _ (quiet_load _ _)).
    { intros r0 Hno. apply tx_post_fail; [exact Hno | reflexivity]. }
    intros fr w1 r2 w2 t2 _.
    destruct (Z.land fr FR_RXFE =? 0).
    { intros [= <- <- <-]. apply tx_post_nil. }
    apply (bind_quiet _ _ _ (tx_post addr offset) _ _ _ _ quiet_testcancel).
    { intros r0 Hno. apply tx_post_fail; [exact Hno | reflexivity]. }
    clear w1 r2 w2 t2. intros _ w1 r2 w2 t2 _ Hrun.
    apply bind_inv in Hrun
      as [([[a1 o1] c1] & w3 & t3 & t4 & Hfill & Hrest & ->)
         | (r1 & Hfill & Hno & ->)].
    + apply write_fill_post in Hfill. rewrite cbs_app.
      eapply tx_post_app; [exact Hfill |]. revert Hrest.
      apply (bind_quiet _ _ _ (tx_post a1 o1) _ _ _ _ (quiet_usleep _)).
      { intros r0 Hno. apply tx_post_fail; [exact Hno | reflexivity]. }
      intros _ w4 r5 w5 t5 _ Hrun. apply IH in Hrun. exact Hrun.
    + apply write_fill_post in Hfill as [Hl _].
      apply tx_post_fail; [destruct r1; simpl in *; auto | exact Hl].
Qed.

Lemma quiet_txe_toggle : quiet (@txe_toggle H _) (fun _ => True).
Proof.
  unfold txe_toggle.
  eapply quiet_bind; [apply quiet_load |]. intros v1 _.
  eapply quiet_bind; [apply quiet_store |]. intros _ _.
  eapply quiet_bind; [apply quiet_load |]. intros v2 _.
  apply quiet_store.
Qed.

Lemma quiet_write_flush_loop fuel :
  quiet (@write_flush_loop H _ fuel) (fun _ => True).
Proof.
  induction fuel as [| fuel IH]; cbn [write_flush_loop].
  - apply quiet_out_of_fuel.
  - eapply quiet_bind; [apply quiet_load |]. intros fr _.
    destruct (Z.land fr FR_TXFE =? 0).
    + eapply quiet_bind; [apply quiet_txe_toggle |]. intros _ _. exact IH.
    + eapply quiet_weaken; [apply quiet_ret | auto].
Qed.

Lemma quiet_write_flush fuel : quiet (@write_flush H _ fuel) (fun _ => True).
Proof.
  unfold write_flush.
  eapply quiet_bind; [apply quiet_write_flush_loop |]. intros _ _.
  apply quiet_txe_toggle.
Qed.

End WriteFacts.

Lemma txflevel_mod fr : txflevel fr = Z.shiftr fr FR_TXFLEVEL_OFF mod 32.
Proof.
  unfold txflevel. rewrite Z.shiftr_land.
  change (Z.shiftr FR_TXFLEVEL FR_TXFLEVEL_OFF) with (Z.ones 5).
  rewrite Z.land_ones by lia. reflexivity.
Qed.

Lemma txflevel_range fr : 0 <= txflevel fr <= 31.
Proof.
  rewrite txflevel_mod.
  pose proof (Z.mod_pos_bound (Z.shiftr fr FR_TXFLEVEL_OFF) 32 ltac:(lia)). lia.
Qed.

Lemma to_int32_wrap32 x : to_int32 (wrap32 x) = to_int32 x.
Proof. unfold to_int32. rewrite wrap32_idem. reflexivity. Qed.

Lemma wrap32_sub_l a b : wrap32 (wrap32 a - b) = wrap32 (a - b).
Proof. unfold wrap32. apply Zminus_mod_idemp_l. Qed.

(** The unsigned subtraction of [bsc_i2c_write], converted back to [int],
    is the mathematical difference. *)
Lemma write_ret_exact offset fr :
  0 <= offset <= INT_MAX -> write_ret offset fr = offset - txflevel fr - 1.
Proof.
  intros Ho. unfold write_ret. pose proof (txflevel_range fr) as Hl.
  rewrite to_int32_wrap32, <- to_int32_wrap32, wrap32_sub_l.
  replace (wrap32 offset - txflevel fr - 1)
    with (wrap32 offset - (txflevel fr + 1)) by lia.
  rewrite wrap32_sub_l, to_int32_wrap32.
  replace (offset - (txflevel fr + 1)) with (offset - txflevel fr - 1) by lia.
  apply to_int32_small. unfold INT_MAX in Ho. lia.
Qed.

Section WriteAddresses.
Context {H : Type} `{!Bus H} {C : Type} (cb : Z -> C -> option Z * C).

Implicit Types w : world H.

Lemma bsc_i2c_write_addrs fuel addr c w r w' tr :
  bsc_i2c_write cb fuel addr c w = (r, w', tr) ->
  map fst (cbs tr) = addr_run addr (length (cbs tr)).
Proof.
  unfold bsc_i2c_write.
  apply (bind_quiet _ _ _
           (fun _ l => map fst l = addr_run addr (length l))
           _ _ _ _ quiet_testcancel).
  { reflexivity. }
  clear w r w' tr. intros _ w r w' tr _ Hrun.
  apply bind_inv in Hrun
    as [([[a1 o1] c1] & w3 & t3 & t4 & Hserve & Hrest & ->)
       | (r1 & Hserve & Hno & ->)].
  - apply write_serve_post in Hserve as [Hl _].
    assert (Hq : cbs t4 = []).
    { revert Hrest. apply (bind_quiet _ _ _ (fun _ l => l = [])
                             _ _ _ _ (quiet_load _ _)); [reflexivity |].
      intros fr w4 r5 w5 t5 _.
      apply (bind_quiet _ _ _ (fun _ l => l = [])
               _ _ _ _ (quiet_write_flush _)); [reflexivity |].
      intros _ w6 r7 w7 t7 _ [= <- <- <-]. reflexivity. }
    rewrite cbs_app, Hq, app_nil_r. exact Hl.
  - apply write_serve_post in Hserve as [Hl _]. exact Hl.
Qed.

(** C4.  In every run of [bsc_i2c_write] started with address [addr],
    whether it returns, is cancelled, faults or is still running when the
    fuel ends, the callback invocations receive the addresses [addr],
    [addr + 1], [addr + 2], ... modulo 2^16, in this order: invocation
    number i + 1 receives (addr + i) mod 2^16.  When the two filling loops
    return, the address counter has advanced once per invocation and the
    count of queued bytes once per invocation that produced a byte. *)
Theorem bsc_i2c_write_callback_addresses fuel addr c w :
  map fst (cbs (snd (bsc_i2c_write cb fuel addr c w)))
  = addr_run addr (length (cbs (snd (bsc_i2c_write cb fuel addr c w))))
  /\ (forall i a res,
        cbs (snd (bsc_i2c_write cb fuel addr c w)) !! i = Some (a, res) ->
        a = (addr + Z.of_nat i) mod 2 ^ 16)
  /\ (forall ifuel offset addr' offset' c' w' tr,
        write_serve cb ifuel fuel addr offset c w
        = (Ok (addr', offset', c'), w', tr) ->
        wrap16 addr' = wrap16 (addr + Z.of_nat (length (cbs tr)))
        /\ offset' = offset + cb_oks (cbs tr)).
Proof.
  destruct (bsc_i2c_write cb fuel addr c w) as [[r wf] tr] eqn:Hrun.
  apply bsc_i2c_write_addrs in Hrun. cbn [snd].
  split; [exact Hrun |]. split.
  - intros i a res Hi.
    assert (Hfst : map fst (cbs tr) !! i = Some a).
    { change (map fst (cbs tr)) with (fst <$> cbs tr).
      rewrite list_lookup_fmap, Hi. reflexivity. }
    rewrite Hrun in Hfst. unfold addr_run in Hfst.
    change (map ?f ?l) with (f <$> l) in Hfst.
    rewrite list_lookup_fmap in Hfst.
    destruct (seq 0 (length (cbs tr)) !! i) as [j |] eqn:Hj; [| discriminate].
    apply lookup_seq in Hj as [-> _]. simpl in Hfst.
    injection Hfst as <-. reflexivity.
  - intros ifuel offset addr' offset' c' w' t Hserve.
    apply write_serve_post in Hserve as [_ Hok].
    destruct (Hok _ _ _ eq_refl) as (Ha & Ho & _). auto.
Qed.

End WriteAddresses.

(** ** The mapping pointer is not changed by the transfer functions *)

Section Keeps.
Context {H : Type} `{!Bus H}.

Implicit Types w : world H.

Lemma keeps_bind {A B} (m : M H A) (k : A -> M H B) :
  keeps m -> (forall a, keeps (k a)) -> keeps (bind m k).
Proof.
  intros Hm Hk w b w' tr Hrun.
  apply bind_ok_inv in Hrun as (a & w1 & t1 & t2 & Hm1 & Hk1 & _).
  rewrite (Hk _ _ _ _ _ Hk1). eapply Hm, Hm1.
Qed.

Lemma keeps_ret {A} (a : A) : keeps (ret a).
Proof. intros w b w' tr Hrun. inversion Hrun; subst. reflexivity. Qed.

Lemma keeps_load p idx : keeps (load p idx).
Proof.
  intros w v w' tr Hrun.
  apply load_ok_inv in Hrun as (win & h & _ & -> & _). reflexivity.
Qed.

Lemma keeps_store p idx v : keeps (store p idx v).
Proof.
  intros w u w' tr Hrun.
  apply store_ok_inv in Hrun as (win & h & _ & -> & _). reflexivity.
Qed.

Lemma keeps_testcancel : keeps testcancel.
Proof.
  intros w u w' tr. unfold testcancel.
  destruct (cancel_after w) as [[| n] |]; intros Hrun;
    inversion Hrun; subst; reflexivity.
Qed.

Lemma keeps_usleep us : keeps (usleep us).
Proof. intros w u w' tr Hrun. inversion Hrun; subst. reflexivity. Qed.

Lemma keeps_diag msg : keeps (diag msg).
Proof. intros w u w' tr Hrun. inversion Hrun; subst. reflexivity. Qed.

Lemma keeps_incr_int x : keeps (incr_int x).
Proof.
  intros w y w' tr. unfold incr_int.
  destruct (x <? INT_MAX); [apply keeps_ret | discriminate].
Qed.

Lemma keeps_rsr_clear flag : keeps (rsr_clear flag).
Proof.
  apply keeps_bind; [apply keeps_load | intros v; apply keeps_store].
Qed.

Lemma keeps_call_cb {C} (cb : Z -> C -> option Z * C) addr c :
  keeps (call_cb cb addr c).
Proof.
  intros w y w' tr. unfold call_cb, bind, emit, ret.
  destruct (cb (wrap16 addr) c). intros Hrun. inversion Hrun; subst.
  reflexivity.
Qed.

Lemma keeps_write_fill {C} (cb : Z -> C -> option Z * C) fuel :
  forall addr offset c, keeps (write_fill cb fuel addr offset c).
Proof.
  induction fuel as [| fuel IH]; intros addr offset c; cbn [write_fill].
  - intros w a w' tr. discriminate.
  - apply keeps_bind; [apply keeps_load |]. intros fr.
    destruct (Z.land fr FR_TXFF =? 0); [| apply keeps_ret].
    apply keeps_bind; [apply keeps_testcancel |]. intros _.
    apply keeps_bind; [apply keeps_load |]. intros rsr.
    apply keeps_bind.
    { destruct (Z.land rsr RSR_UE =? 0); [apply keeps_ret |].
      apply keeps_bind; [apply keeps_diag | intros _; apply keeps_rsr_clear]. }
    intros _. apply keeps_bind; [apply keeps_call_cb |].
    intros [[byte |] c1]; [| apply keeps_ret].
    apply keeps_bind; [apply keeps_store |]. intros _.
    apply keeps_bind; [apply keeps_incr_int |]. intros y. apply IH.
Qed.

Lemma keeps_write_serve {C} (cb : Z -> C -> option Z * C) ifuel fuel :
  forall addr offset c, keeps (write_serve cb ifuel fuel addr offset c).
Proof.
  induction fuel as [| fuel IH]; intros addr offset c; cbn [write_serve].
  - intros w a w' tr. discriminate.
  - apply keeps_bind; [apply keeps_load |]. intros fr.
    destruct (Z.land fr FR_RXFE =? 0); [apply keeps_ret |].
    apply keeps_bind; [apply keeps_testcancel |]. intros _.
    apply keeps_bind; [apply keeps_write_fill |]. intros [[a1 o1] c1].
    apply keeps_bind; [apply keeps_usleep |]. intros _. apply IH.
Qed.

End Keeps.

(** ** The bytes queued are the bytes the callback produced *)

Lemma dr_stores_app t1 t2 : dr_stores (t1 ++ t2) = dr_stores t1 ++ dr_stores t2.
Proof.
  induction t1 as [| e t1 IH]; simpl; [reflexivity |].
  destruct e; try exact IH. destruct (idx =? BSC_DR); simpl; rewrite IH; reflexivity.
Qed.

Lemma cb_bytes_app l1 l2 : cb_bytes (l1 ++ l2) = cb_bytes l1 ++ cb_bytes l2.
Proof.
  induction l1 as [| [a [b |]] l1 IH]; simpl; rewrite ?IH; reflexivity.
Qed.

Lemma cb_oks_bytes l : cb_oks l = Z.of_nat (length (cb_bytes l)).
Proof. induction l as [| [a [b |]] l IH]; simpl cb_oks; simpl length; lia. Qed.

Lemma wrap32_wrap8 b : wrap32 (wrap8 b) = wrap8 b.
Proof.
  apply wrap32_small. unfold wrap8.
  pose proof (Z.mod_pos_bound b (2 ^ 8) ltac:(lia)). lia.
Qed.

Section Queues.
Context {H : Type} `{!Bus H}.

Implicit Types w : world H.

Lemma queues_bind {A B} (m : M H A) (k : A -> M H B) :
  queues m -> (forall a, queues (k a)) -> queues (bind m k).
Proof.
  intros Hm Hk w b w' tr Hrun.
  apply bind_ok_inv in Hrun as (a & w1 & t1 & t2 & Hm1 & Hk1 & ->).
  rewrite dr_stores_app, cbs_app, cb_bytes_app.
  rewrite (Hm _ _ _ _ Hm1), (Hk _ _ _ _ _ Hk1). reflexivity.
Qed.

Lemma queues_ret {A} (a : A) : queues (ret a).
Proof. intros w b w' tr Hrun. inversion Hrun; subst. reflexivity. Qed.

Lemma queues_load p idx : queues (load p idx).
Proof.
  intros w v w' tr Hrun.
  apply load_ok_inv in Hrun as (win & h & _ & _ & -> & _). reflexivity.
Qed.

Lemma queues_store p idx v : idx <> BSC_DR -> queues (store p idx v).
Proof.
  intros Hidx w u w' tr Hrun.
  apply store_ok_inv in Hrun as (win & h & _ & _ & ->). simpl.
  destruct (Z.eqb_spec idx BSC_DR); [contradiction | reflexivity].
Qed.

Lemma queues_testcancel : queues testcancel.
Proof.
  intros w u w' tr. unfold testcancel.
  destruct (cancel_after w) as [[| n] |]; intros Hrun;
    inversion Hrun; subst; reflexivity.
Qed.

Lemma queues_usleep us : queues (usleep us).
Proof. intros w u w' tr Hrun. inversion Hrun; subst. reflexivity. Qed.

Lemma queues_diag msg : queues (diag msg).
Proof. intros w u w' tr Hrun. inversion Hrun; subst. reflexivity. Qed.

Lemma queues_incr_int x : queues (incr_int x).
Proof.
  intros w y w' tr. unfold incr_int.
  destruct (x <? INT_MAX); [apply queues_ret | discriminate].
Qed.

Lemma queues_rsr_clear flag : queues (rsr_clear flag).
Proof.
  apply queues_bind; [apply queues_load |]. intros v.
  apply queues_store. discriminate.
Qed.

Lemma queues_txe_toggle : queues txe_toggle.
Proof.
  unfold txe_toggle.
  apply queues_bind; [apply queues_load |]. intros v1.
  apply queues_bind; [apply queues_store; discriminate |]. intros _.
  apply queues_bind; [apply queues_load |]. intros v2.
  apply queues_store. discriminate.
Qed.

Lemma queues_write_flush fuel : queues (write_flush fuel).
Proof.
  unfold write_flush. apply queues_bind; [| intros _; apply queues_txe_toggle].
  induction fuel as [| fuel IH]; cbn [write_flush_loop].
  - intros w a w' tr. discriminate.
  - apply queues_bind; [apply queues_load |]. intros fr.
    destruct (Z.land fr FR_TXFE =? 0); [| apply queues_ret].
    apply queues_bind; [apply queues_txe_toggle | intros _; exact IH].
Qed.

Section Callback.
Context {C : Type} (cb : Z -> C -> option Z * C).

Lemma queues_write_fill fuel :
  forall addr offset c, queues (write_fill cb fuel addr offset c).
Proof.
  induction fuel as [| fuel IH]; intros addr offset c; cbn [write_fill].
  - intros w a w' tr. discriminate.
  - apply queues_bind; [apply queues_load |]. intros fr.
    destruct (Z.land fr FR_TXFF =? 0); [| apply queues_ret].
    apply queues_bind; [apply queues_testcancel |]. intros _.
    apply queues_bind; [apply queues_load |]. intros rsr.
    apply queues_bind.
    { destruct (Z.land rsr RSR_UE =? 0); [apply queues_ret |].
      apply queues_bind; [apply queues_diag | intros _; apply queues_rsr_clear]. }
    intros _ w a w' tr. rewrite call_cb_bind.
    destruct (cb (wrap16 addr) c) as [[byte |] c1]; cbv beta iota; cbn [option_map].
    + match goal with |- context [bind ?m ?k w] =>
        destruct (bind m k w) as [[r3 w3] t3] eqn:Hrest end.
      intros [= -> <- <-].
      apply bind_ok_inv in Hrest as ([] & w1 & t1 & t2 & Hst & Hrest & ->).
      apply store_ok_inv in Hst as (win & h & _ & _ & ->).
      assert (Hq : queues (bind (incr_int offset)
                             (fun offset' =>
                                write_fill cb fuel (wrap16 (addr + 1)) offset' c1))).
      { apply queues_bind; [apply queues_incr_int | intros y; apply IH]. }
      apply Hq in Hrest. simpl. rewrite Hrest, wrap32_wrap8. reflexivity.
    + unfold ret. intros [= _ _ <-]. reflexivity.
Qed.

Lemma queues_write_serve ifuel fuel :
  forall addr offset c, queues (write_serve cb ifuel fuel addr offset c).
Proof.
  induction fuel as [| fuel IH]; intros addr offset c; cbn [write_serve].
  - intros w a w' tr. discriminate.
  - apply queues_bind; [apply queues_load |]. intros fr.
    destruct (Z.land fr FR_RXFE =? 0); [apply queues_ret |].
    apply queues_bind; [apply queues_testcancel |]. intros _.
    apply queues_bind; [apply queues_write_fill |]. intros [[a1 o1] c1].
    apply queues_bind; [apply queues_usleep |]. intros _. apply IH.
Qed.

Lemma queues_bsc_i2c_write fuel addr c : queues (bsc_i2c_write cb fuel addr c).
Proof.
  unfold bsc_i2c_write.
  apply queues_bind; [apply queues_testcancel |]. intros _.
  apply queues_bind; [apply queues_write_serve |]. intros [[a1 o1] c1].
  apply queues_bind; [apply queues_load |]. intros fr.
  apply queues_bind; [apply queues_write_flush |]. intros _. apply queues_ret.
Qed.

End Callback.
End Queues.

(** ** What [bsc_i2c_write] returns *)

Section WriteReturn.
Context {H : Type} `{!Bus H} {C : Type} (cb : Z -> C -> option Z * C).

Implicit Types w : world H.

(** The shape of a run of [bsc_i2c_write] that returns. *)
Lemma bsc_i2c_write_ok_inv fuel addr c w n c' w' tr :
  bsc_i2c_write cb fuel addr c w = (Ok (n, c'), w', tr) ->
  exists w0 addr' offset w1 t_fill win fr w2 t_flush,
    testcancel w = (Ok tt, w0, [EvTestCancel])
    /\ write_serve cb fuel fuel addr 0 c w0 = (Ok (addr', offset, c'), w1, t_fill)
    /\ load bsc BSC_FR w1 = (Ok fr, w2, [EvLoad win BSC_FR fr])
    /\ write_flush fuel w2 = (Ok tt, w', t_flush)
    /\ tr = EvTestCancel :: t_fill ++ EvLoad win BSC_FR fr :: t_flush
    /\ n = (if write_ret offset fr <? 0 then 0 else write_ret offset fr).
Proof.
  unfold bsc_i2c_write. intros Hrun.
  apply bind_ok_inv in Hrun as ([] & w0 & t0 & t0' & Htc & Hrun & ->).
  assert (Ht0 : t0 = [EvTestCancel]).
  { revert Htc. unfold testcancel.
    destruct (cancel_after w) as [[| m] |]; intros [= <- <-]; reflexivity. }
  subst t0.
  apply bind_ok_inv in Hrun
    as ([[addr' offset] c1] & w1 & t_fill & t1' & Hserve & Hrun & ->).
  apply bind_ok_inv in Hrun as (fr & w2 & t2 & t2' & Hload & Hrun & ->).
  apply bind_ok_inv in Hrun as ([] & w3 & t_flush & t3' & Hflush & Hret & ->).
  unfold ret in Hret. injection Hret as <- <- <- <-.
  pose proof (load_ok_inv _ _ _ _ _ _ Hload) as (win & h & _ & _ & -> & _).
  exists w0, addr', offset, w1, t_fill, win, fr, w2, t_flush.
  simpl app. rewrite app_nil_r. auto 10.
Qed.

(** C1 (as amended).  A run of [bsc_i2c_write] that returns [n] has this
    shape: a cancellation point; the two filling loops, returning a count
    [offset] equal to the number of callback invocations that produced a
    byte; one load of the flag register, giving [fr], in the state the
    filling loops left; the flush.  The value returned is
    [offset - txflevel fr - 1] if that is not negative and 0 otherwise,
    where [txflevel fr] is the TX FIFO level field of [fr], the level
    before the flush.  The bytes stored to the data register during the
    run are the bytes the callback produced, and [offset] is their number.
    Hence 0 <= n <= offset, and n is at most the number of callback
    invocations. *)
Theorem bsc_i2c_write_return fuel addr c w n c' w' tr :
  bsc_i2c_write cb fuel addr c w = (Ok (n, c'), w', tr) ->
  exists w0 addr' offset w1 t_fill win fr w2 t_flush,
    testcancel w = (Ok tt, w0, [EvTestCancel])
    /\ write_serve cb fuel fuel addr 0 c w0 = (Ok (addr', offset, c'), w1, t_fill)
    /\ load bsc BSC_FR w1 = (Ok fr, w2, [EvLoad win BSC_FR fr])
    /\ write_flush fuel w2 = (Ok tt, w', t_flush)
    /\ tr = EvTestCancel :: t_fill ++ EvLoad win BSC_FR fr :: t_flush
    /\ cbs tr = cbs t_fill
    /\ offset = cb_oks (cbs tr)
    /\ dr_stores tr = cb_bytes (cbs tr)
    /\ offset = Z.of_nat (length (dr_stores tr))
    /\ n = Z.max 0 (offset - txflevel fr - 1)
    /\ 0 <= n <= offset
    /\ offset <= Z.of_nat (length (cbs tr)).
Proof.
  intros Hrun. pose proof (queues_bsc_i2c_write cb _ _ _ _ _ _ _ Hrun) as Hq0.
  destruct (bsc_i2c_write_ok_inv _ _ _ _ _ _ _ _ Hrun)
    as (w0 & addr' & offset & w1 & t_fill & win & fr & w2 & t_flush
        & Htc & Hserve & Hload & Hflush & -> & ->).
  pose proof (write_serve_post _ _ _ _ _ _ _ _ _ _ Hserve) as [_ Hok].
  destruct (Hok _ _ _ eq_refl) as (_ & Ho & Hmax).
  destruct (quiet_write_flush _ _ _ _ _ Hflush) as [Hq _].
  assert (Hcbs : cbs (EvTestCancel :: t_fill ++ EvLoad win BSC_FR fr :: t_flush)
                 = cbs t_fill).
  { simpl. rewrite cbs_app. simpl. rewrite Hq. apply app_nil_r. }
  pose proof (cb_oks_bounds (cbs t_fill)) as Hb.
  assert (Hrange : 0 <= offset <= INT_MAX) by (unfold INT_MAX in *; lia).
  pose proof (txflevel_range fr) as Hlv.
  exists w0, addr', offset, w1, t_fill, win, fr, w2, t_flush.
  rewrite write_ret_exact by exact Hrange.
  rewrite Hq0, <- cb_oks_bytes, Hcbs.
  repeat split; try assumption; try reflexivity; try lia.
  all: destruct (Z.ltb_spec (offset - txflevel fr - 1) 0); lia.
Qed.

End WriteReturn.

(** ** The flush on the simulated peripheral *)

Lemma txe_on_testbit v : txe_on v = Z.testbit v 8.
Proof.
  unfold txe_on, CR_TXE. rewrite land_bit_eqb by lia. apply negb_involutive.
Qed.

Lemma sim_store_cr_off s v :
  txe_on v = false -> sim_store WIN_BSC BSC_CR v s = sim_with_cr v s.
Proof.
  intros Hv. unfold sim_store. change (BSC_CR =? BSC_DR) with false.
  change (BSC_CR =? BSC_RSR) with false. change (BSC_CR =? BSC_CR) with true.
  cbv iota. rewrite Hv, andb_false_r. reflexivity.
Qed.

Lemma sim_store_cr_on s v :
  txe_on (sim_cr s) = false -> txe_on v = true ->
  sim_store WIN_BSC BSC_CR v s = sim_stage (sim_with_cr v s).
Proof.
  intros Hs Hv. unfold sim_store. change (BSC_CR =? BSC_DR) with false.
  change (BSC_CR =? BSC_RSR) with false. change (BSC_CR =? BSC_CR) with true.
  cbv iota. rewrite Hs, Hv. reflexivity.
Qed.

Lemma sim_load_cr fd g s c :
  load bsc BSC_CR (mkWorld fd (Mapped WIN_BSC) g s c)
  = (Ok (wrap32 (sim_cr s)), mkWorld fd (Mapped WIN_BSC) g s c,
     [EvLoad WIN_BSC BSC_CR (wrap32 (sim_cr s))]).
Proof. reflexivity. Qed.

Lemma sim_store_cr fd g s c v :
  store bsc BSC_CR v (mkWorld fd (Mapped WIN_BSC) g s c)
  = (Ok tt, mkWorld fd (Mapped WIN_BSC) g (sim_store WIN_BSC BSC_CR (wrap32 v) s) c,
     [EvStore WIN_BSC BSC_CR (wrap32 v)]).
Proof. reflexivity. Qed.

Lemma txe_on_cr_off cr : txe_on (cr_off cr) = false.
Proof.
  rewrite txe_on_testbit. unfold cr_off, CR_TXE.
  rewrite testbit_clear_bit by (try lia; symmetry; apply wrap32_idem).
  reflexivity.
Qed.

Lemma txe_on_cr_on cr : txe_on (cr_on cr) = true.
Proof.
  rewrite txe_on_testbit. unfold cr_on.
  rewrite testbit_wrap32, Z.lor_spec. change (Z.testbit CR_TXE 8) with true.
  rewrite orb_true_r. reflexivity.
Qed.

(** One off/on toggle on the simulation: the staged byte is replaced by
    the next byte of the TX FIFO, whatever the control register held. *)
Lemma txe_toggle_sim fd g s c :
  txe_toggle (mkWorld fd (Mapped WIN_BSC) g s c)
  = (Ok tt,
     mkWorld fd (Mapped WIN_BSC) g (sim_stage (sim_with_cr (cr_on (sim_cr s)) s)) c,
     [EvLoad WIN_BSC BSC_CR (wrap32 (sim_cr s));
      EvStore WIN_BSC BSC_CR (cr_off (sim_cr s));
      EvLoad WIN_BSC BSC_CR (wrap32 (cr_off (sim_cr s)));
      EvStore WIN_BSC BSC_CR (cr_on (sim_cr s))]).
Proof.
  unfold txe_toggle, bind.
  rewrite sim_load_cr, sim_store_cr.
  fold (cr_off (sim_cr s)).
  rewrite sim_store_cr_off by apply txe_on_cr_off.
  rewrite sim_load_cr, sim_store_cr. cbn [sim_with_cr sim_cr].
  fold (cr_on (sim_cr s)).
  rewrite sim_store_cr_on
    by first [apply txe_on_cr_on | cbn [sim_with_cr sim_cr]; apply txe_on_cr_off].
  reflexivity.
Qed.

Lemma count_app P t1 t2 : count P (t1 ++ t2) = (count P t1 + count P t2)%nat.
Proof. unfold count. rewrite List.filter_app, length_app. reflexivity. Qed.

Lemma count_cons P e t : count P (e :: t) = (Nat.b2n (P e) + count P t)%nat.
Proof. unfold count. simpl. destruct (P e); reflexivity. Qed.

Lemma count_toggle P cr :
  count P [EvLoad WIN_BSC BSC_CR (wrap32 cr);
           EvStore WIN_BSC BSC_CR (cr_off cr);
           EvLoad WIN_BSC BSC_CR (wrap32 (cr_off cr));
           EvStore WIN_BSC BSC_CR (cr_on cr)]
  = (Nat.b2n (P (EvLoad WIN_BSC BSC_CR (wrap32 cr)))
     + Nat.b2n (P (EvStore WIN_BSC BSC_CR (cr_off cr)))
     + Nat.b2n (P (EvLoad WIN_BSC BSC_CR (wrap32 (cr_off cr))))
     + Nat.b2n (P (EvStore WIN_BSC BSC_CR (cr_on cr))))%nat.
Proof.
  unfold count. simpl.
  destruct (P (EvLoad WIN_BSC BSC_CR (wrap32 cr))),
    (P (EvStore WIN_BSC BSC_CR (cr_off cr))),
    (P (EvLoad WIN_BSC BSC_CR (wrap32 (cr_off cr)))),
    (P (EvStore WIN_BSC BSC_CR (cr_on cr))); reflexivity.
Qed.

Lemma toggle_counts cr :
  let t := [EvLoad WIN_BSC BSC_CR (wrap32 cr);
            EvStore WIN_BSC BSC_CR (cr_off cr);
            EvLoad WIN_BSC BSC_CR (wrap32 (cr_off cr));
            EvStore WIN_BSC BSC_CR (cr_on cr)] in
  count is_txe_enable t = 1%nat /\ count is_txe_disable t = 1%nat
  /\ count is_tx_busy_poll t = 0%nat.
Proof.
  cbv zeta. rewrite !count_toggle. cbn [is_txe_enable is_txe_disable is_tx_busy_poll].
  change (BSC_CR =? BSC_CR) with true. change (BSC_CR =? BSC_FR) with false.
  rewrite txe_on_cr_off, txe_on_cr_on. repeat split.
Qed.

(** The flush loop on the simulation, with enough fuel: one iteration per
    byte in the TX FIFO, then a load of the flag register that finds the
    FIFO empty. *)
Lemma write_flush_loop_sim fuel :
  forall fd g s c,
    (length (sim_tx s) < fuel)%nat ->
    exists s' tr,
      write_flush_loop fuel (mkWorld fd (Mapped WIN_BSC) g s c)
      = (Ok tt, mkWorld fd (Mapped WIN_BSC) g s' c,
         tr ++ [EvLoad WIN_BSC BSC_FR (wrap32 (sim_fr s'))])
      /\ sim_tx s' = [] /\ sim_rx s' = sim_rx s
      /\ count is_txe_enable tr = length (sim_tx s)
      /\ count is_txe_disable tr = length (sim_tx s)
      /\ count is_tx_busy_poll tr = length (sim_tx s).
Proof.
  induction fuel as [| fuel IH]; intros fd g s c Hfuel; [lia |].
  cbn [write_flush_loop]. unfold bind at 1.
  rewrite sim_load_fr, sim_tx_empty_test.
  destruct (sim_tx s) as [| b tx] eqn:Htx; cbn [is_nil negb].
  - exists s, []. unfold ret. rewrite Htx. repeat split.
  - unfold bind at 1. rewrite txe_toggle_sim.
    destruct (IH fd g (sim_stage (sim_with_cr (cr_on (sim_cr s)) s)) c)
      as (s' & tr & Hrun & Htx' & Hrx' & He & Hd & Hp).
    { cbn [sim_stage sim_with_cr sim_tx]. rewrite Htx. simpl in *. lia. }
    rewrite Hrun. exists s'.
    exists (EvLoad WIN_BSC BSC_FR (wrap32 (sim_fr s))
            :: [EvLoad WIN_BSC BSC_CR (wrap32 (sim_cr s));
                EvStore WIN_BSC BSC_CR (cr_off (sim_cr s));
                EvLoad WIN_BSC BSC_CR (wrap32 (cr_off (sim_cr s)));
                EvStore WIN_BSC BSC_CR (cr_on (sim_cr s))] ++ tr).
    destruct (toggle_counts (sim_cr s)) as (Te & Td & Tp).
    cbn [sim_stage sim_with_cr sim_tx sim_rx] in He, Hd, Hp, Hrx'.
    rewrite Htx in He, Hd, Hp. cbn [tail] in He, Hd, Hp.
    assert (Hpoll : is_tx_busy_poll (EvLoad WIN_BSC BSC_FR (wrap32 (sim_fr s))) = true).
    { cbn [is_tx_busy_poll]. rewrite sim_tx_empty_test, Htx. reflexivity. }
    split; [| split; [exact Htx' | split; [exact Hrx' |]]].
    { reflexivity. }
    rewrite !count_cons, !count_app, Te, Td, Tp, He, Hd, Hp, Hpoll.
    cbn [is_txe_enable is_txe_disable]. change (BSC_FR =? BSC_CR) with false.
    simpl. repeat split.
Qed.

Lemma write_flush_loop_sim_short fuel :
  forall fd g s c,
    (fuel <= length (sim_tx s))%nat ->
    fst (fst (write_flush_loop fuel (mkWorld fd (Mapped WIN_BSC) g s c)))
    = OutOfFuel.
Proof.
  induction fuel as [| fuel IH]; intros fd g s c Hfuel; [reflexivity |].
  cbn [write_flush_loop]. unfold bind at 1.
  rewrite sim_load_fr, sim_tx_empty_test.
  destruct (sim_tx s) as [| b tx] eqn:Htx; cbn [is_nil negb].
  - simpl in Hfuel. lia.
  - unfold bind at 1. rewrite txe_toggle_sim.
    specialize (IH fd g (sim_stage (sim_with_cr (cr_on (sim_cr s)) s)) c).
    destruct (write_flush_loop fuel _) as [[r w2] t2].
    cbn [fst] in *. rewrite IH; [reflexivity |].
    cbn [sim_stage sim_with_cr sim_tx]. rewrite Htx. simpl in *. lia.
Qed.

(** ** The flush terminates and empties the TX FIFO *)

(** C2.  On the simulated peripheral with the BSC window mapped, started
    with n bytes in the TX FIFO and more than n units of fuel, the flush of
    [bsc_i2c_write] returns.  Its loop makes exactly n iterations (n loads
    of the flag register that find the FIFO not empty, n stores that turn
    transmit-enable off and n that turn it on); the next load of the flag
    register finds the transmit-FIFO-empty flag set; exactly one more
    off/on toggle follows; and then the TX FIFO is empty, no byte is
    staged, and the RX FIFO is untouched.  Consequently every run of
    [bsc_i2c_write] that returns leaves the TX FIFO empty. *)
Theorem write_flush_terminates (w : world sim) :
  bsc w = Mapped WIN_BSC ->
  (forall fuel, (length (sim_tx (hw w)) < fuel)%nat ->
     exists w' tr_loop fr tr_last,
       write_flush fuel w
       = (Ok tt, w', tr_loop ++ EvLoad WIN_BSC BSC_FR fr :: tr_last)
       /\ count is_tx_busy_poll tr_loop = length (sim_tx (hw w))
       /\ count is_txe_disable tr_loop = length (sim_tx (hw w))
       /\ count is_txe_enable tr_loop = length (sim_tx (hw w))
       /\ Z.land fr FR_TXFE <> 0
       /\ length tr_last = 4%nat
       /\ count is_txe_disable tr_last = 1%nat
       /\ count is_txe_enable tr_last = 1%nat
       /\ sim_tx (hw w') = [] /\ sim_staged (hw w') = None
       /\ sim_rx (hw w') = sim_rx (hw w))
  /\ (forall (C : Type) (cb : Z -> C -> option Z * C) fuel addr c n c' w' tr,
        bsc_i2c_write cb fuel addr c w = (Ok (n, c'), w', tr) ->
        sim_tx (hw w') = [] /\ sim_staged (hw w') = None).
Proof.
  intros Hb.
  assert (Hflush : forall fuel fd g s c,
    (length (sim_tx s) < fuel)%nat ->
    exists s' tr_loop,
      write_flush fuel (mkWorld fd (Mapped WIN_BSC) g s c)
      = (Ok tt,
         mkWorld fd (Mapped WIN_BSC) g
           (sim_stage (sim_with_cr (cr_on (sim_cr s')) s')) c,
         tr_loop ++ EvLoad WIN_BSC BSC_FR (wrap32 (sim_fr s'))
           :: [EvLoad WIN_BSC BSC_CR (wrap32 (sim_cr s'));
               EvStore WIN_BSC BSC_CR (cr_off (sim_cr s'));
               EvLoad WIN_BSC BSC_CR (wrap32 (cr_off (sim_cr s')));
               EvStore WIN_BSC BSC_CR (cr_on (sim_cr s'))])
      /\ sim_tx s' = [] /\ sim_rx s' = sim_rx s
      /\ count is_txe_enable tr_loop = length (sim_tx s)
      /\ count is_txe_disable tr_loop = length (sim_tx s)
      /\ count is_tx_busy_poll tr_loop = length (sim_tx s)).
  { intros fuel fd g s c Hfuel.
    destruct (write_flush_loop_sim fuel fd g s c Hfuel)
      as (s' & tr & Hloop & Htx & Hrx & He & Hd & Hp).
    exists s', tr. unfold write_flush, bind. rewrite Hloop, txe_toggle_sim.
    rewrite <- app_assoc. auto 10. }
  split.
  - intros fuel Hfuel. destruct w as [fd b g s c]. simpl in Hb. subst b.
    cbn [hw] in *.
    destruct (Hflush fuel fd g s c Hfuel)
      as (s' & tr & Hrun & Htx & Hrx & He & Hd & Hp).
    destruct (toggle_counts (sim_cr s')) as (Te & Td & _).
    eexists _, tr, _, _. split; [exact Hrun |].
    cbn [hw sim_stage sim_with_cr sim_tx sim_staged sim_rx]. rewrite Htx.
    repeat split; try assumption.
    apply Z.eqb_neq. rewrite sim_tx_empty_test, Htx. reflexivity.
  - intros C cb fuel addr c n c' w' tr Hrun.
    destruct (bsc_i2c_write_ok_inv cb _ _ _ _ _ _ _ _ Hrun)
      as (w0 & addr' & offset & w1 & t_fill & win & fr & w2 & t_flush
          & Htc & Hserve & Hload & Hfl & _).
    assert (Hb2 : bsc w2 = Mapped WIN_BSC).
    { rewrite (keeps_load _ _ _ _ _ _ Hload),
        (keeps_write_serve _ _ _ _ _ _ _ _ _ _ Hserve),
        (keeps_testcancel _ _ _ _ Htc). exact Hb. }
    destruct w2 as [fd2 b2 g2 s2 c2]. simpl in Hb2. subst b2.
    destruct (Nat.lt_ge_cases (length (sim_tx s2)) fuel) as [Hlt | Hge].
    + destruct (Hflush fuel fd2 g2 s2 c2 Hlt) as (s' & tr' & Hrun' & Htx & _).
      rewrite Hrun' in Hfl. injection Hfl as <- _.
      cbn [hw sim_stage sim_with_cr sim_tx sim_staged]. rewrite Htx. auto.
    + pose proof (write_flush_loop_sim_short fuel fd2 g2 s2 c2 Hge) as Hshort.
      unfold write_flush, bind in Hfl.
      destruct (write_flush_loop fuel _) as [[r3 w3] t3].
      cbn [fst] in Hshort. subst r3. discriminate.
Qed.

(** The theorem applied to a board whose TX FIFO holds three bytes. *)
Lemma write_flush_terminates_witness :
  exists w' tr,
    write_flush 4
      (world_mapped (mkSim [] [7; 8; 9] (Some 6) 0x305 0
                       (fun _ => 0) (fun _ => 0) [] []))
    = (Ok tt, w', tr)
    /\ count is_txe_enable tr = 4%nat
    /\ sim_tx (hw w') = [].
Proof.
  destruct (write_flush_terminates
              (world_mapped (mkSim [] [7; 8; 9] (Some 6) 0x305 0
                               (fun _ => 0) (fun _ => 0) [] []))
              eq_refl) as [Hflush _].
  destruct (Hflush 4%nat ltac:(simpl; lia))
    as (w' & tr_loop & fr & tr_last & Hrun & _ & _ & He & _ & _ & _ & He1 & Htx & _).
  exists w', (tr_loop ++ EvLoad WIN_BSC BSC_FR fr :: tr_last).
  split; [exact Hrun |]. split; [| exact Htx].
  rewrite count_app, count_cons, He, He1. reflexivity.
Defined.

(** C1 (counterexample).  The callback supplies five bytes and the master,
    without reading any, starts to write.  [bsc_i2c_write] returns 0: the
    level it subtracts is the one it loads before the flush (4, with one
    more byte staged).  When it returns the TX FIFO is empty, its final
    level is 0, and five queued minus the final level minus one is 4. *)
Lemma bsc_i2c_write_level_is_not_final :
  fst (fst (bsc_i2c_write (table_cb [1; 2; 3; 4; 5]) 10 0 tt
              (sim_board [MasterWrite 0x55]))) = Ok (0, tt)
  /\ cb_oks (cbs (snd (bsc_i2c_write (table_cb [1; 2; 3; 4; 5]) 10 0 tt
                         (sim_board [MasterWrite 0x55])))) = 5
  /\ txflevel (sim_fr (hw (snd (fst (bsc_i2c_write (table_cb [1; 2; 3; 4; 5])
                                       10 0 tt
                                       (sim_board [MasterWrite 0x55])))))) = 0
  /\ fst (fst (bsc_i2c_write (table_cb [1; 2; 3; 4; 5]) 10 0 tt
                 (sim_board [MasterWrite 0x55])))
     <> Ok (Z.max 0
              (cb_oks (cbs (snd (bsc_i2c_write (table_cb [1; 2; 3; 4; 5]) 10 0 tt
                                   (sim_board [MasterWrite 0x55]))))
               - txflevel (sim_fr (hw (snd (fst (bsc_i2c_write
                                                   (table_cb [1; 2; 3; 4; 5])
                                                   10 0 tt
                                                   (sim_board [MasterWrite 0x55]))))))
               - 1), tt).
Proof. vm_compute. repeat split. discriminate. Qed.

(** The theorem applied to that run. *)
Lemma bsc_i2c_write_return_witness :
  exists offset fr,
    offset = cb_oks (cbs (snd (bsc_i2c_write (table_cb [1; 2; 3; 4; 5]) 10 0 tt
                                 (sim_board [MasterWrite 0x55]))))
    /\ 0 = Z.max 0 (offset - txflevel fr - 1)
    /\ txflevel fr = 4.
Proof.
  destruct (bsc_i2c_write_return (table_cb [1; 2; 3; 4; 5]) 10 0 tt
              (sim_board [MasterWrite 0x55]) 0 tt
              (snd (fst (bsc_i2c_write (table_cb [1; 2; 3; 4; 5]) 10 0 tt
                           (sim_board [MasterWrite 0x55]))))
              (snd (bsc_i2c_write (table_cb [1; 2; 3; 4; 5]) 10 0 tt
                      (sim_board [MasterWrite 0x55]))))
    as (w0 & addr' & offset & w1 & t_fill & win & fr & w2 & t_flush
        & Htc & Hserve & Hload & Hfl & Htr & Hcbs & Ho & _ & _ & Hn & _).
  { vm_compute. reflexivity. }
  exists offset, fr. split; [exact Ho |]. split; [exact Hn |].
  vm_compute in Htc. injection Htc as <-.
  vm_compute in Hserve. injection Hserve as _ _ <- _.
  vm_compute in Hload. injection Hload as <- _. reflexivity.
Defined.

(** The theorem applied to a board with two bytes in the RX FIFO. *)
Lemma bsc_i2c_read_poll_bounds_witness :
  exists n b,
    fst (fst (bsc_i2c_read_poll (Some (replicate 10 0)) 10
                (world_mapped (mkSim [0xAA; 0xBB] [] None 0x305 0
                                 (fun _ => 0) (fun _ => 0) [] []))))
    = Ok (n, b)
    /\ n <= 10 /\ n <= 2.
Proof.
  destruct (bsc_i2c_read_poll_bounds (Some (replicate 10 0)) 10
              (world_mapped (mkSim [0xAA; 0xBB] [] None 0x305 0
                               (fun _ => 0) (fun _ => 0) [] []))
              eq_refl ltac:(lia)) as (_ & Hbound & Hret).
  destruct (Hret eq_refl) as (n & b & Hrun).
  { intros b [= <-]. simpl. lia. }
  exists n, b. split; [exact Hrun |].
  destruct (Hbound n b Hrun) as (Hlen & Hrx & _). split; assumption.
Defined.

(** The theorem applied to a board whose overrun flag is set. *)
Lemma read_poll_body_overrun_witness :
  exists x d,
    fst (fst (read_poll_body [0; 0] 0
                (world_mapped (mkSim [0x1AB] [] None 0x305 3
                                 (fun _ => 0) (fun _ => 0) [] []))))
    = Ok (<[0%nat := Z.land d 0xFF]> [0; 0], 1)
    /\ Z.testbit x 0 = false /\ Z.testbit x 1 = true
    /\ Z.land d 0xFF = 0xAB.
Proof.
  destruct (read_poll_body_overrun [0; 0] 0
              (world_mapped (mkSim [0x1AB] [] None 0x305 3
                               (fun _ => 0) (fun _ => 0) [] []))
              WIN_BSC eq_refl ltac:(discriminate) ltac:(simpl; lia) eq_refl)
    as (w' & rsr & v & x & d & Hrun & _ & Hx0 & Hx & _).
  exists x, d. rewrite Hrun. split; [reflexivity |]. split; [exact Hx0 |].
  vm_compute in Hrun. injection Hrun as Hd _ _ Hv Hxv Hdv.
  subst. split; reflexivity.
Defined.

(** * Further properties of the driver *)

(** ** Releasing the register windows *)

Section Release.
Context {H : Type} `{!Bus H}.

Implicit Types w : world H.

Lemma shutdown_bcm_reg_mem_run w :
  shutdown_bcm_reg_mem w
  = (Ok tt,
     mkWorld (if 0 <=? mem_fd w then -1 else mem_fd w) NULL NULL (hw w)
       (cancel_after w),
     release_calls (bsc w) (gpio_reg w) (mem_fd w)).
Proof.
  destruct w as [fd b g h c].
  unfold shutdown_bcm_reg_mem, release_calls, bind, get, modify, emit, ret.
  simpl. destruct b, g; simpl; destruct (0 <=? fd); reflexivity.
Qed.

(** X1.  [shutdown_bcm_reg_mem] always returns; afterwards both pointers
    are null and the descriptor is negative, the hardware is untouched and
    no register was accessed; it has unmapped exactly the pointers that
    were not null and closed the descriptor exactly if it was not negative;
    and calling it again makes no system call and changes nothing. *)
Theorem shutdown_bcm_reg_mem_releases w :
  exists w',
    shutdown_bcm_reg_mem w
    = (Ok tt, w', release_calls (bsc w) (gpio_reg w) (mem_fd w))
    /\ bsc w' = NULL /\ gpio_reg w' = NULL /\ mem_fd w' < 0
    /\ hw w' = hw w
    /\ no_reg_access (release_calls (bsc w) (gpio_reg w) (mem_fd w))
    /\ shutdown_bcm_reg_mem w' = (Ok tt, w', []).
Proof.
  eexists. split; [apply shutdown_bcm_reg_mem_run |].
  cbn [bsc gpio_reg mem_fd hw].
  split; [reflexivity |]. split; [reflexivity |].
  split; [destruct (Z.leb_spec 0 (mem_fd w)); lia |].
  split; [reflexivity |]. split.
  - unfold no_reg_access, release_calls.
    destruct (is_null (bsc w)), (is_null (gpio_reg w)), (0 <=? mem_fd w);
      repeat constructor.
  - rewrite shutdown_bcm_reg_mem_run. cbn [bsc gpio_reg mem_fd hw cancel_after].
    unfold release_calls. simpl is_null. cbv iota.
    destruct (Z.leb_spec 0 (mem_fd w)) as [Hfd | Hfd].
    + reflexivity.
    + destruct (Z.leb_spec 0 (mem_fd w)); [lia | reflexivity].
Qed.

(** What [init_bcm_reg_mem] leaves behind when it returns true. *)
Lemma init_bcm_reg_mem_true_run (sys : os) w :
  fst (fst (init_bcm_reg_mem sys w)) = Ok true ->
  init_bcm_reg_mem sys w
  = (Ok true,
     mkWorld (os_open sys) (os_mmap sys BSC_LEN BSC_BASE)
       (os_mmap sys GPIO_LEN GPIO_BASE) (hw w) (cancel_after w),
     [EvOpen (os_open sys);
      EvMmap BSC_LEN BSC_BASE (os_mmap sys BSC_LEN BSC_BASE);
      EvMmap GPIO_LEN GPIO_BASE (os_mmap sys GPIO_LEN GPIO_BASE)])
  /\ 0 <= os_open sys
  /\ is_null (os_mmap sys BSC_LEN BSC_BASE) = false.
Proof.
  destruct w as [fd b g h c].
  unfold init_bcm_reg_mem, bind, modify, emit, get, do_mmap, diag, ret.
  simpl. destruct (Z.ltb_spec (os_open sys) 0); simpl; [discriminate |].
  destruct (os_mmap sys BSC_LEN BSC_BASE); simpl; try discriminate;
    intros _; repeat split; assumption.
Qed.

(** X2.  Whenever [init_bcm_reg_mem] returns true, a following
    [shutdown_bcm_reg_mem] releases what it acquired, once each and in this
    order: it unmaps the BSC pointer, unmaps the GPIO pointer unless mmap
    gave a null one, and closes the descriptor; the pointers are null and
    the descriptor is -1 afterwards. *)
Theorem init_then_shutdown_bcm_reg_mem (sys : os) w :
  fst (fst (init_bcm_reg_mem sys w)) = Ok true ->
  exists w1 w2,
    init_bcm_reg_mem sys w
    = (Ok true, w1,
       [EvOpen (os_open sys);
        EvMmap BSC_LEN BSC_BASE (os_mmap sys BSC_LEN BSC_BASE);
        EvMmap GPIO_LEN GPIO_BASE (os_mmap sys GPIO_LEN GPIO_BASE)])
    /\ shutdown_bcm_reg_mem w1
       = (Ok tt, w2,
          [EvMunmap (os_mmap sys BSC_LEN BSC_BASE) BSC_LEN]
          ++ (if is_null (os_mmap sys GPIO_LEN GPIO_BASE) then []
              else [EvMunmap (os_mmap sys GPIO_LEN GPIO_BASE) GPIO_LEN])
          ++ [EvClose (os_open sys)])
    /\ bsc w2 = NULL /\ gpio_reg w2 = NULL /\ mem_fd w2 = -1.
Proof.
  intros Htrue.
  destruct (init_bcm_reg_mem_true_run sys w Htrue) as (Hrun & Hfd & Hnull).
  eexists _, _. split; [exact Hrun |].
  rewrite shutdown_bcm_reg_mem_run. cbn [bsc gpio_reg mem_fd hw cancel_after].
  unfold release_calls. rewrite Hnull.
  destruct (Z.leb_spec 0 (os_open sys)); [| lia].
  repeat split.
Qed.

End Release.

(** The theorem applied to system calls that all succeed. *)
Lemma init_then_shutdown_bcm_reg_mem_witness :
  exists w2 : world sim,
    shutdown_bcm_reg_mem
      (snd (fst (init_bcm_reg_mem os_all_ok (world_unmapped (sim_reset [])))))
    = (Ok tt, w2,
       [EvMunmap (Mapped WIN_BSC) BSC_LEN; EvMunmap (Mapped WIN_GPIO) GPIO_LEN;
        EvClose 3])
    /\ bsc w2 = NULL /\ gpio_reg w2 = NULL /\ mem_fd w2 = -1.
Proof.
  destruct (init_then_shutdown_bcm_reg_mem os_all_ok
              (world_unmapped (sim_reset [])) eq_refl)
    as (w1 & w2 & Hinit & Hshut & Hrest).
  exists w2. split; [| exact Hrest].
  rewrite Hinit. exact Hshut.
Defined.

(** ** Driving a GPIO pin *)

(** The bits of [v | (1 << k)] on [uint32_t]. *)
Lemma testbit_set_bit v k i :
  0 <= k < 32 -> v = wrap32 v ->
  Z.testbit (wrap32 (Z.lor v (wrap32 (Z.shiftl 1 k)))) i
  = (i =? k) || Z.testbit v i.
Proof.
  intros Hk Hv. destruct (Z_lt_le_dec i 0) as [Hneg | Hi].
  - rewrite !(Z.testbit_neg_r _ i) by lia.
    destruct (Z.eqb_spec i k); [lia | reflexivity].
  - rewrite testbit_wrap32, Z.lor_spec, testbit_wrap32, Z.shiftl_1_l,
      Z.pow2_bits_eqb by lia.
    rewrite Hv, testbit_wrap32.
    destruct (Z.ltb_spec i 32), (Z.eqb_spec k i), (Z.eqb_spec i k);
      simpl; try lia; rewrite ?orb_false_r; reflexivity.
Qed.

Section GpioLevels.
Context {H : Type} `{!Bus H}.

Implicit Types w : world H.

(** X3.  For a pin in [0, 28) with the GPIO window mapped,
    [bcm_set_gpio_out] with [GPIO_STATE_LOW] or [GPIO_STATE_HIGH] returns
    true after exactly six register accesses in this order: a
    read-modify-write of word GPCLR0 (for low) or GPSET0 (for high) of the
    window that sets the pin's bit and stores every other bit as read, and
    only then the two read-modify-write cycles on the pin's function-select
    register, the first clearing the pin's 3-bit field, the second setting
    the lowest bit of that field (function code 1, output). *)
Theorem bcm_set_gpio_out_drives gpio state w win :
  gpio_reg w = Mapped win -> 0 <= gpio < GPIO_COUNT ->
  state = GPIO_STATE_LOW \/ state = GPIO_STATE_HIGH ->
  exists w' v x v1 x1 v2 x2,
    bcm_set_gpio_out gpio state w
    = (Ok true, w',
       [EvLoad win (if state =? GPIO_STATE_LOW then GPCLR0 else GPSET0) v;
        EvStore win (if state =? GPIO_STATE_LOW then GPCLR0 else GPSET0) x;
        EvLoad win (gpio / 10) v1; EvStore win (gpio / 10) x1;
        EvLoad win (gpio / 10) v2; EvStore win (gpio / 10) x2])
    /\ (forall i, Z.testbit x i = (i =? gpio) || Z.testbit v i)
    /\ (forall i, 0 <= i ->
          Z.testbit x1 i
          = if ((gpio mod 10) * 3 <=? i) && (i <? (gpio mod 10) * 3 + 3)
            then false else Z.testbit v1 i)
    /\ (forall i, Z.testbit x2 i = (i =? (gpio mod 10) * 3) || Z.testbit v2 i)
    /\ gpio / 10 < 3.
Proof.
  intros Hp Hg Hstate. unfold GPIO_COUNT in Hg.
  assert (Hw : wrap32 gpio = gpio) by (apply wrap32_small; lia).
  destruct (fsel_reg_small gpio ltac:(lia)) as [Hreg Hreg0].
  destruct (fsel_shift_small gpio) as [Hsh Hsh0].
  assert (Hdiv : gpio / 10 < 3) by (apply Z.div_lt_upper_bound; lia).
  set (lvl := if state =? GPIO_STATE_LOW then GPCLR0 else GPSET0).
  assert (Hlvl : 0 <= lvl < PAGE_WORDS).
  { unfold lvl. destruct (state =? GPIO_STATE_LOW); vm_compute; split; congruence. }
  set (v := wrap32 (fst (bus_load win lvl (hw w)))).
  set (w1 := set_hw (bus_store win lvl (wrap32 (Z.lor v (wrap32 (Z.shiftl 1 gpio))))
                       (hw (set_hw (snd (bus_load win lvl (hw w))) w)))
               (set_hw (snd (bus_load win lvl (hw w))) w)).
  assert (Hp1 : gpio_reg w1 = Mapped win) by exact Hp.
  destruct (gpio_set_mode_mapped gpio GPIO_FUN_OUT w1 win Hp1) as (w' & tr & Hrun).
  { rewrite Hreg. unfold PAGE_WORDS. lia. }
  destruct (gpio_set_mode_ok_inv _ _ _ _ _ _ Hrun)
    as (win' & v1 & v2 & Hp' & Htr & Hv1 & Hv2 & _).
  assert (win' = win) by congruence. subst win'.
  rewrite Hreg in Htr.
  assert (Hbody :
    bind (load gpio_reg lvl)
      (fun v0 => bind (store gpio_reg lvl (Z.lor v0 (wrap32 (Z.shiftl 1 gpio))))
         (fun _ => bind (gpio_set_mode (wrap32 gpio) GPIO_FUN_OUT)
            (fun _ => ret true))) w
    = (Ok true, w',
       [EvLoad win lvl v;
        EvStore win lvl (wrap32 (Z.lor v (wrap32 (Z.shiftl 1 gpio))))] ++ tr)).
  { erewrite bind_ok by (apply load_mapped; [exact Hp | exact Hlvl]).
    cbv beta iota. fold v.
    erewrite bind_ok by (apply store_mapped; [exact Hp | exact Hlvl]).
    cbv beta iota. fold w1. rewrite Hw.
    erewrite bind_ok by exact Hrun. unfold ret. cbv beta iota.
    rewrite app_nil_r. reflexivity. }
  assert (Hout : bcm_set_gpio_out gpio state w
                 = (Ok true, w',
                    [EvLoad win lvl v;
                     EvStore win lvl (wrap32 (Z.lor v (wrap32 (Z.shiftl 1 gpio))))]
                    ++ tr)).
  { unfold bcm_set_gpio_out. unfold bind at 1. unfold get. rewrite Hp.
    cbn [is_null].
    destruct (Z.ltb_spec gpio 0); [lia |].
    destruct (Z.leb_spec GPIO_COUNT gpio); [unfold GPIO_COUNT in *; lia |].
    cbn [orb]. unfold lvl in Hbody.
    destruct Hstate as [-> | ->].
    - change (GPIO_STATE_LOW =? GPIO_STATE_FLOAT) with false.
      change (GPIO_STATE_LOW =? GPIO_STATE_LOW) with true in *.
      cbv iota in *. rewrite Hbody. reflexivity.
    - change (GPIO_STATE_HIGH =? GPIO_STATE_FLOAT) with false.
      change (GPIO_STATE_HIGH =? GPIO_STATE_LOW) with false in *.
      change (GPIO_STATE_HIGH =? GPIO_STATE_HIGH) with true.
      cbv iota in *. rewrite Hbody. reflexivity. }
  eexists w', v, _, v1, _, v2, _. split.
  { rewrite Hout, Htr. reflexivity. }
  split.
  { intros i. apply testbit_set_bit; [lia |]. unfold v. symmetry. apply wrap32_idem. }
  split.
  { intros i Hi. rewrite fsel_clear_bits by assumption. rewrite Hsh. reflexivity. }
  split; [| exact Hdiv].
  intros i. unfold GPIO_FUN_OUT. rewrite Hsh.
  apply testbit_set_bit; [lia | exact Hv2].
Qed.

(** X4.  With the GPIO pointer not null and a pin in [0, 28), a state value
    outside the enumeration makes [bcm_set_gpio_out] return false after a
    diagnostic, without any register access. *)
Theorem bcm_set_gpio_out_invalid_state gpio state w :
  is_null (gpio_reg w) = false -> 0 <= gpio < GPIO_COUNT ->
  state <> GPIO_STATE_FLOAT -> state <> GPIO_STATE_LOW ->
  state <> GPIO_STATE_HIGH ->
  exists msg, bcm_set_gpio_out gpio state w = (Ok false, w, [EvDiag msg]).
Proof.
  intros Hnull Hg Hf Hl Hh.
  unfold bcm_set_gpio_out, bind, get, diag, emit, ret. rewrite Hnull.
  destruct (Z.ltb_spec gpio 0); [lia |].
  destruct (Z.leb_spec GPIO_COUNT gpio); [lia |].
  destruct (Z.eqb_spec state GPIO_STATE_FLOAT); [contradiction |].
  destruct (Z.eqb_spec state GPIO_STATE_LOW); [contradiction |].
  destruct (Z.eqb_spec state GPIO_STATE_HIGH); [contradiction |].
  simpl. eauto.
Qed.

End GpioLevels.

(** The theorem applied to driving pin 17 high on a simulated board. *)
Lemma bcm_set_gpio_out_drives_witness :
  exists x x1 x2,
    stores_to WIN_GPIO
      (snd (bcm_set_gpio_out 17 GPIO_STATE_HIGH (world_mapped (sim_reset []))))
    = [(GPSET0, x); (17 / 10, x1); (17 / 10, x2)]
    /\ Z.testbit x 17 = true /\ Z.testbit x2 21 = true.
Proof.
  destruct (bcm_set_gpio_out_drives 17 GPIO_STATE_HIGH
              (world_mapped (sim_reset [])) WIN_GPIO eq_refl
              ltac:(unfold GPIO_COUNT; lia) ltac:(right; reflexivity))
    as (w' & v & x & v1 & x1 & v2 & x2 & Hrun & Hx & _ & Hx2 & _).
  exists x, x1, x2. rewrite Hrun. split; [reflexivity |].
  rewrite Hx, Hx2. split; reflexivity.
Defined.

(** The theorem applied to state value 7. *)
Lemma bcm_set_gpio_out_invalid_state_witness :
  exists msg,
    bcm_set_gpio_out 17 7 (world_mapped (sim_reset []))
    = (Ok false, world_mapped (sim_reset []), [EvDiag msg]).
Proof.
  apply (bcm_set_gpio_out_invalid_state 17 7 (world_mapped (sim_reset [])));
    [reflexivity | unfold GPIO_COUNT; lia | discriminate | discriminate
    | discriminate].
Defined.

(** ** Function-select fields on the simulated GPIO window *)

Lemma testbit_small v n j :
  0 <= n -> 0 <= v < 2 ^ n -> n <= j -> Z.testbit v j = false.
Proof.
  intros Hn Hv Hj. rewrite <- (Z.mod_small v (2 ^ n)) by exact Hv.
  apply Z.mod_pow2_bits_high. lia.
Qed.

(** The bits of the register after [gpio_set_mode]: outside the pin's field
    those it had, inside the field none, and over both the bits of the mode
    shifted into place. *)
Lemma testbit_fsel_write v gpio mode i :
  0 <= i ->
  Z.testbit (fsel_write v gpio mode) i
  = (i <? 32)
    && ((negb (((gpio mod 10) * 3 <=? i) && (i <? (gpio mod 10) * 3 + 3))
         && Z.testbit v i)
        || Z.testbit mode (i - (gpio mod 10) * 3)).
Proof.
  intros Hi. unfold fsel_write.
  destruct (fsel_shift_small gpio) as [Hsh Hsh0].
  rewrite testbit_wrap32, Z.lor_spec, testbit_wrap32.
  rewrite fsel_clear_bits by (try lia; symmetry; apply wrap32_idem).
  rewrite !testbit_wrap32, Z.shiftl_spec, Hsh by lia.
  destruct (Z.ltb_spec i 32); simpl; [| reflexivity].
  destruct (((gpio mod 10) * 3 <=? i) && (i <? (gpio mod 10) * 3 + 3));
    reflexivity.
Qed.

Lemma fsel_field_bits v pin j :
  0 <= j ->
  Z.testbit (fsel_field v pin) j
  = (j <? 3) && Z.testbit v (j + (pin mod 10) * 3).
Proof.
  intros Hj. unfold fsel_field, GPIO_FUN_PER_REG, GPIO_FUN_SHIFT.
  change GPIO_FUN_MASK with (Z.ones 3).
  rewrite Z.land_spec, Z.shiftr_spec, Z.testbit_ones_nonneg by lia.
  apply andb_comm.
Qed.

(** Reading back the field just written gives the mode. *)
Lemma fsel_field_write_same v gpio mode :
  0 <= mode < 8 -> fsel_field (fsel_write v gpio mode) gpio = mode.
Proof.
  intros Hm. apply Z.bits_inj'. intros j Hj.
  pose proof (Z.mod_pos_bound gpio 10 ltac:(lia)) as Hmod.
  rewrite fsel_field_bits, testbit_fsel_write by lia.
  replace (j + gpio mod 10 * 3 - gpio mod 10 * 3) with j by lia.
  destruct (Z.ltb_spec j 3); simpl.
  - destruct (Z.ltb_spec (j + gpio mod 10 * 3) 32); [| lia].
    destruct (Z.leb_spec (gpio mod 10 * 3) (j + gpio mod 10 * 3)); [| lia].
    destruct (Z.ltb_spec (j + gpio mod 10 * 3) (gpio mod 10 * 3 + 3)); [| lia].
    reflexivity.
  - symmetry. apply (testbit_small mode 3); simpl; lia.
Qed.

(** The field of a pin at another position of the register is not
    disturbed. *)
Lemma fsel_field_write_other v gpio mode pin :
  0 <= mode < 8 -> pin mod 10 <> gpio mod 10 ->
  fsel_field (fsel_write v gpio mode) pin = fsel_field v pin.
Proof.
  intros Hm Hne. apply Z.bits_inj'. intros j Hj.
  pose proof (Z.mod_pos_bound gpio 10 ltac:(lia)) as Hmod.
  pose proof (Z.mod_pos_bound pin 10 ltac:(lia)) as Hmod'.
  rewrite !fsel_field_bits, testbit_fsel_write by lia.
  destruct (Z.ltb_spec j 3); simpl; [| reflexivity].
  destruct (Z.ltb_spec (j + pin mod 10 * 3) 32); [| lia]. simpl.
  assert (Hmode : Z.testbit mode (j + pin mod 10 * 3 - gpio mod 10 * 3) = false).
  { destruct (Z_lt_le_dec (j + pin mod 10 * 3 - gpio mod 10 * 3) 0).
    - apply Z.testbit_neg_r. assumption.
    - apply (testbit_small mode 3); simpl; lia. }
  rewrite Hmode, orb_false_r.
  destruct (Z.leb_spec (gpio mod 10 * 3) (j + pin mod 10 * 3)),
    (Z.ltb_spec (j + pin mod 10 * 3) (gpio mod 10 * 3 + 3)); simpl;
    try reflexivity; lia.
Qed.

(** [gpio_set_mode] on the simulation, where the GPIO window is a memory. *)
Lemma gpio_set_mode_sim gpio mode fd b s c :
  0 <= fsel_reg gpio < PAGE_WORDS ->
  exists s' tr,
    gpio_set_mode gpio mode (mkWorld fd b (Mapped WIN_GPIO) s c)
    = (Ok tt, mkWorld fd b (Mapped WIN_GPIO) s' c, tr)
    /\ (forall j, sim_gpio s' j
                  = if j =? fsel_reg gpio
                    then fsel_write (sim_gpio s (fsel_reg gpio)) gpio mode
                    else sim_gpio s j)
    /\ sim_rx s' = sim_rx s /\ sim_tx s' = sim_tx s
    /\ sim_staged s' = sim_staged s /\ sim_cr s' = sim_cr s
    /\ sim_rsr s' = sim_rsr s /\ sim_regs s' = sim_regs s
    /\ sim_master s' = sim_master s /\ sim_sent s' = sim_sent s.
Proof.
  intros Hreg. unfold gpio_set_mode. fold (fsel_reg gpio) (fsel_shift gpio).
  erewrite bind_ok by (apply load_mapped; [reflexivity | exact Hreg]).
  cbv beta iota.
  erewrite bind_ok by (apply store_mapped; [reflexivity | exact Hreg]).
  cbv beta iota.
  erewrite bind_ok by (apply load_mapped; [reflexivity | exact Hreg]).
  cbv beta iota.
  erewrite store_mapped by first [reflexivity | exact Hreg].
  eexists _, _. split; [reflexivity |].
  cbn. unfold upd. rewrite Z.eqb_refl.
  split; [| repeat split].
  intros j. destruct (j =? fsel_reg gpio); reflexivity.
Qed.



(** ** The simulated board after [init_bsc_i2c_slv] *)

Lemma sim_store_bsc fd g s c idx v :
  0 <= idx < PAGE_WORDS ->
  store bsc idx v (mkWorld fd (Mapped WIN_BSC) g s c)
  = (Ok tt, mkWorld fd (Mapped WIN_BSC) g (sim_store WIN_BSC idx (wrap32 v) s) c,
     [EvStore WIN_BSC idx (wrap32 v)]).
Proof.
  intros Hidx.
  rewrite (store_mapped bsc idx v (mkWorld fd (Mapped WIN_BSC) g s c) WIN_BSC
             eq_refl Hidx).
  reflexivity.
Qed.

(** X6.  On the simulated board with both windows mapped,
    [init_bsc_i2c_slv] with an 8-bit address returns true and leaves the
    control register at 0x305 (transmit, receive, I2C mode, device enabled),
    the status register at 0, the slave-address register at the address
    divided by two, the function-select fields of pins 18 and 19 at
    alternate function 3 (code 7) and the field of every other pin as it
    was; the RX FIFO is untouched. *)
Theorem init_bsc_i2c_slv_state i2c_addr (w : world sim) :
  bsc w = Mapped WIN_BSC -> gpio_reg w = Mapped WIN_GPIO ->
  0 <= i2c_addr < 256 ->
  exists w' tr,
    init_bsc_i2c_slv i2c_addr w = (Ok true, w', tr)
    /\ sim_cr (hw w') = 0x305
    /\ sim_rsr (hw w') = 0
    /\ sim_regs (hw w') BSC_SLV = i2c_addr / 2
    /\ fsel_of (sim_gpio (hw w')) GPIO_SDA = GPIO_FUN_ALT3
    /\ fsel_of (sim_gpio (hw w')) GPIO_SCL = GPIO_FUN_ALT3
    /\ (forall pin, pin <> GPIO_SDA -> pin <> GPIO_SCL ->
          fsel_of (sim_gpio (hw w')) pin = fsel_of (sim_gpio (hw w)) pin)
    /\ sim_rx (hw w') = sim_rx (hw w).
Proof.
  intros Hb Hg Ha. destruct w as [fd b g s c]. simpl in Hb, Hg. subst b g.
  assert (Hreg18 : fsel_reg GPIO_SDA = 1) by reflexivity.
  assert (Hreg19 : fsel_reg GPIO_SCL = 1) by reflexivity.
  destruct (gpio_set_mode_sim GPIO_SDA GPIO_FUN_ALT3 fd (Mapped WIN_BSC) s c)
    as (s1 & t1 & Hrun1 & Hg1 & Hrx1 & _); [vm_compute; split; congruence |].
  destruct (gpio_set_mode_sim GPIO_SCL GPIO_FUN_ALT3 fd (Mapped WIN_BSC) s1 c)
    as (s2 & t2 & Hrun2 & Hg2 & Hrx2 & _); [vm_compute; split; congruence |].
  rewrite Hreg18 in Hg1. rewrite Hreg19 in Hg2.
  assert (Hpage : forall idx, In idx [BSC_RSR; BSC_SLV; BSC_CR; BSC_IMSC; BSC_ICR] ->
                              0 <= idx < PAGE_WORDS).
  { intros idx Hin. simpl in Hin.
    repeat (destruct Hin as [<- | Hin]; [vm_compute; split; congruence |]).
    destruct Hin. }
  assert (Hsh : wrap32 (Z.shiftr i2c_addr 1) = i2c_addr / 2).
  { rewrite Z.shiftr_div_pow2 by lia. change (2 ^ 1) with 2.
    apply wrap32_small.
    split; [apply Z.div_pos | apply Z.div_lt_upper_bound]; lia. }
  unfold init_bsc_i2c_slv.
  erewrite bind_ok by reflexivity. cbv beta iota delta [is_null]. cbn [bsc].
  cbv iota.
  erewrite bind_ok by exact Hrun1.
  erewrite bind_ok by exact Hrun2.
  erewrite bind_ok by (apply sim_store_bsc, Hpage; simpl; auto 10).
  rewrite sim_store_cr_off by reflexivity.
  erewrite bind_ok by (apply sim_store_bsc, Hpage; simpl; auto 10).
  erewrite bind_ok by (apply sim_store_bsc, Hpage; simpl; auto 10).
  erewrite bind_ok by (apply sim_store_bsc, Hpage; simpl; auto 10).
  erewrite bind_ok by (apply sim_store_bsc, Hpage; simpl; auto 10).
  erewrite bind_ok by (apply sim_store_bsc, Hpage; simpl; auto 10).
  rewrite sim_store_cr_on by reflexivity.
  unfold ret. cbv beta iota zeta.
  eexists _, _. split; [reflexivity |]. cbn [hw].
  assert (Hmode : 0 <= GPIO_FUN_ALT3 < 8) by (unfold GPIO_FUN_ALT3; lia).
  split; [reflexivity |]. split; [reflexivity |].
  split; [cbn; unfold upd; simpl; exact Hsh |].
  assert (Hgf : forall pin,
             fsel_of (sim_gpio s2) pin
             = if pin / 10 =? 1
               then fsel_field
                      (fsel_write (fsel_write (sim_gpio s 1) GPIO_SDA GPIO_FUN_ALT3)
                         GPIO_SCL GPIO_FUN_ALT3) pin
               else fsel_of (sim_gpio s) pin).
  { intros pin. unfold fsel_of, GPIO_FUN_PER_REG. rewrite Hg2.
    destruct (pin / 10 =? 1) eqn:Hp.
    - rewrite Hg1. reflexivity.
    - rewrite Hg1, Hp. reflexivity. }
  match goal with |- context [fsel_of (sim_gpio ?x) GPIO_SDA] =>
    change (sim_gpio x) with (sim_gpio s2); change (sim_rx x) with (sim_rx s2)
  end.
  split; [| split; [| split]].
  - rewrite Hgf. change (GPIO_SDA / 10 =? 1) with true. cbv iota.
    rewrite fsel_field_write_other by (try exact Hmode; discriminate).
    apply fsel_field_write_same, Hmode.
  - rewrite Hgf. change (GPIO_SCL / 10 =? 1) with true. cbv iota.
    apply fsel_field_write_same, Hmode.
  - intros pin Hsda Hscl. rewrite Hgf.
    destruct (Z.eqb_spec (pin / 10) 1) as [Hp | Hp]; [| reflexivity].
    assert (Hmod : pin mod 10 <> 8 /\ pin mod 10 <> 9).
    { unfold GPIO_SDA, GPIO_SCL in *.
      pose proof (Z.div_mod pin 10 ltac:(lia)). lia. }
    rewrite !fsel_field_write_other
      by (try exact Hmode; change (GPIO_SDA mod 10) with 8;
          change (GPIO_SCL mod 10) with 9; lia).
    unfold fsel_of, GPIO_FUN_PER_REG. rewrite Hp. reflexivity.
  - congruence.
Qed.

(** The theorem applied to address 0x42. *)
Lemma init_bsc_i2c_slv_state_witness :
  exists (w' : world sim) tr,
    init_bsc_i2c_slv 0x42 (world_mapped (sim_reset [])) = (Ok true, w', tr)
    /\ sim_cr (hw w') = 0x305
    /\ sim_regs (hw w') BSC_SLV = 0x21
    /\ fsel_of (sim_gpio (hw w')) 18 = 7.
Proof.
  destruct (init_bsc_i2c_slv_state 0x42 (world_mapped (sim_reset []))
              eq_refl eq_refl ltac:(lia))
    as (w' & tr & Hrun & Hcr & _ & Hslv & Hsda & _).
  exists w', tr. auto.
Defined.

(** ** The transmit-enable toggle leaves the other control bits alone *)

Section Toggle.
Context {H : Type} `{!Bus H}.

Implicit Types w : world H.

(** X7.  With the BSC window mapped, one off/on toggle of the flush of
    [bsc_i2c_write] is two read-modify-write cycles on the control
    register: the first stores what it loaded with bit 8 (transmit enable)
    clear, the second stores what it loaded with bit 8 set; every other
    control bit is stored as it was loaded, and no other register is
    accessed. *)
Theorem txe_toggle_frame w win :
  bsc w = Mapped win ->
  exists w' v1 x1 v2 x2,
    txe_toggle w
    = (Ok tt, w',
       [EvLoad win BSC_CR v1; EvStore win BSC_CR x1;
        EvLoad win BSC_CR v2; EvStore win BSC_CR x2])
    /\ (forall i, Z.testbit x1 i = if i =? 8 then false else Z.testbit v1 i)
    /\ (forall i, Z.testbit x2 i = (i =? 8) || Z.testbit v2 i)
    /\ bsc w' = bsc w /\ gpio_reg w' = gpio_reg w.
Proof.
  intros Hb.
  assert (Hcr : 0 <= BSC_CR < PAGE_WORDS) by (vm_compute; split; congruence).
  unfold txe_toggle.
  erewrite bind_ok by (apply load_mapped; [exact Hb | exact Hcr]).
  cbv beta iota.
  erewrite bind_ok by (apply store_mapped; [exact Hb | exact Hcr]).
  cbv beta iota.
  erewrite bind_ok by (apply load_mapped; [exact Hb | exact Hcr]).
  cbv beta iota.
  erewrite store_mapped by first [exact Hb | exact Hcr].
  eexists _, _, _, _, _. split; [reflexivity |].
  split; [| split; [| split; reflexivity]].
  - intros i. apply (testbit_clear_bit _ 8 i); [lia |].
    symmetry. apply wrap32_idem.
  - intros i. change CR_TXE with (wrap32 (Z.shiftl 1 8)).
    apply testbit_set_bit; [lia |]. symmetry. apply wrap32_idem.
Qed.

(** X8.  With the BSC window mapped, [bsc_i2c_receiving] loads the flag
    register once, stores nothing, and returns true exactly when bit 5
    (receive busy) of the value loaded is set. *)
Theorem bsc_i2c_receiving_reads_rxbusy w win :
  bsc w = Mapped win ->
  exists w' fr,
    bsc_i2c_receiving w = (Ok (Z.testbit fr 5), w', [EvLoad win BSC_FR fr])
    /\ bsc w' = bsc w /\ gpio_reg w' = gpio_reg w.
Proof.
  intros Hb.
  assert (Hfr : 0 <= BSC_FR < PAGE_WORDS) by (vm_compute; split; congruence).
  unfold bsc_i2c_receiving.
  erewrite bind_ok by (apply load_mapped; [exact Hb | exact Hfr]).
  unfold ret, FR_RXBUSY. rewrite land_bit_eqb, negb_involutive by lia.
  eexists _, _. split; [reflexivity |]. split; reflexivity.
Qed.

End Toggle.

(** The theorem applied to a board whose control register holds 0x305. *)
Lemma txe_toggle_frame_witness :
  exists x1 x2,
    stores_to WIN_BSC (snd (txe_toggle (sim_board []))) = [(BSC_CR, x1); (BSC_CR, x2)]
    /\ Z.testbit x1 8 = false /\ Z.testbit x2 8 = true.
Proof.
  destruct (txe_toggle_frame (sim_board []) WIN_BSC eq_refl)
    as (w' & v1 & x1 & v2 & x2 & Hrun & Hx1 & Hx2 & _).
  exists x1, x2. rewrite Hrun. split; [reflexivity |].
  rewrite Hx1, Hx2. split; reflexivity.
Defined.

(** The theorem applied to a board whose RX FIFO is empty. *)
Lemma bsc_i2c_receiving_reads_rxbusy_witness :
  exists fr, fst (fst (bsc_i2c_receiving (sim_board []))) = Ok (Z.testbit fr 5).
Proof.
  destruct (bsc_i2c_receiving_reads_rxbusy (sim_board []) WIN_BSC eq_refl)
    as (w' & fr & Hrun & _).
  exists fr. rewrite Hrun. reflexivity.
Defined.

(** ** A cancelled transmit has not started the flush *)

Section Cancel.
Context {H : Type} `{!Bus H}.

Implicit Types w : world H.















Section Callback.
Context {C : Type} (cb : Z -> C -> option Z * C).




End Callback.
End Cancel.


(** ** What [bsc_i2c_read_poll] leaves in the buffer *)

Lemma read_poll_body_sim_buf buf read fd g s c buf' read' w' tr :
  read_poll_body buf read (mkWorld fd (Mapped WIN_BSC) g s c)
  = (Ok (buf', read'), w', tr) ->
  0 <= read < Z.of_nat (length buf)
  /\ forall b rx1, sim_rx s = b :: rx1 ->
       buf' = <[Z.to_nat read := rx_byte b]> buf.
Proof.
  unfold read_poll_body, bind, testcancel, load, store, rsr_clear, diag, emit,
    buf_store, ret, fault, rx_byte. simpl.
  destruct c as [[| m] |]; simpl; [discriminate | |].
  all: destruct (Z.land (wrap32 (sim_rsr s)) RSR_OE =? 0); simpl;
    destruct (sim_rx s) as [| b0 rx0]; simpl;
    destruct (Z.leb_spec 0 read), (Z.ltb_spec read (Z.of_nat (length buf)));
    simpl; try discriminate; intros [= <- _ _ _];
    (split; [lia |]); intros b rx1 [= <- _]; reflexivity.
Qed.

Lemma read_poll_loop_sim_buf n :
  forall buf read fd g s c buf' read' w' tr,
    read_poll_loop n buf read (mkWorld fd (Mapped WIN_BSC) g s c)
    = (Ok (buf', read'), w', tr) ->
    0 <= read ->
    buf' = take (Z.to_nat read) buf
           ++ (rx_byte <$> take (Nat.min n (length (sim_rx s))) (sim_rx s))
           ++ drop (Z.to_nat read + Nat.min n (length (sim_rx s))) buf
    /\ length buf' = length buf.
Proof.
  induction n as [| n IH]; intros buf read fd g s c buf' read' w' tr.
  - simpl. unfold ret. intros [= <- _ _ _] _. simpl.
    rewrite Nat.add_0_r, take_drop. auto.
  - cbn [read_poll_loop]. unfold bind at 1. rewrite sim_load_fr, sim_rx_empty_test.
    destruct (sim_rx s) as [| b rx] eqn:Hrx; cbn [is_nil negb].
    + unfold ret. intros [= <- _ _ _] _. simpl.
      rewrite Nat.add_0_r, take_drop. auto.
    + unfold bind at 1.
      destruct (read_poll_body buf read (mkWorld fd (Mapped WIN_BSC) g s c))
        as [[r1 w1] t1] eqn:Hbody.
      destruct r1 as [[buf1 read1] | | |]; try discriminate.
      pose proof (read_poll_body_sim_buf _ _ _ _ _ _ _ _ _ _ Hbody) as [Hrange Hbuf].
      apply read_poll_body_sim in Hbody as [_ Hok1].
      destruct (Hok1 _ _ eq_refl) as (-> & s' & c' & -> & Hrx' & _).
      rewrite Hrx in Hrx'. simpl in Hrx'.
      specialize (Hbuf b rx Hrx). subst buf1.
      destruct (read_poll_loop n _ (read + 1)
                  (mkWorld fd (Mapped WIN_BSC) g s' c')) as [[r2 w2] t2] eqn:Hloop.
      destruct r2 as [[buf2 read2] | | |]; try discriminate.
      intros [= <- _ _ _] Hread.
      apply IH in Hloop as [Hloop Hlen2]; [| lia].
      rewrite Hrx' in Hloop. rewrite length_insert in Hlen2.
      split; [| exact Hlen2]. rewrite Hloop.
      replace (Z.to_nat (read + 1)) with (S (Z.to_nat read)) by lia.
      assert (Hlt : (Z.to_nat read < length buf)%nat) by lia.
      rewrite (take_S_r _ _ (rx_byte b))
        by (apply list_lookup_insert_eq; exact Hlt).
      rewrite take_insert_ge by lia.
      rewrite drop_insert_lt by lia.
      simpl length. change (Nat.min (S n) (S (length rx)))
        with (S (Nat.min n (length rx))).
      cbn [take fmap list_fmap]. rewrite <- app_assoc. simpl.
      replace (Z.to_nat read + S (Nat.min n (length rx)))%nat
        with (S (Z.to_nat read + Nat.min n (length rx)))%nat by lia.
      reflexivity.
Qed.

(** X10.  On the simulated peripheral with the BSC window mapped, a run of
    [bsc_i2c_read_poll] with a buffer that returns a count leaves in the
    buffer, from position 0 on and in FIFO order, the low 8 bits of the
    first min(len, RX level) entries of the RX FIFO, followed by the
    buffer's old contents beyond them; the buffer keeps its length and
    those entries are gone from the RX FIFO, the rest of which stays in
    order. *)
Theorem bsc_i2c_read_poll_delivers (b : list Z) len (w : world sim) n b' w' tr :
  bsc w = Mapped WIN_BSC -> 0 <= len ->
  bsc_i2c_read_poll (Some b) len w = (Ok (n, Some b'), w', tr) ->
  b' = (rx_byte <$> take (Nat.min (Z.to_nat len) (length (sim_rx (hw w))))
                      (sim_rx (hw w)))
       ++ drop (Nat.min (Z.to_nat len) (length (sim_rx (hw w)))) b
  /\ length b' = length b
  /\ sim_rx (hw w')
     = drop (Nat.min (Z.to_nat len) (length (sim_rx (hw w)))) (sim_rx (hw w)).
Proof.
  intros Hb Hlen Hrun.
  destruct w as [fd p g s c]. simpl in Hb. subst p. cbn [hw].
  unfold bsc_i2c_read_poll in Hrun. rewrite bind_testcancel in Hrun.
  cbv beta in Hrun.
  set (rest := if len =? 0 then ret (0, Some b)
               else bind (read_poll_loop (Z.to_nat len) b 0)
                      (fun '(b1, read) => ret (to_int32 read, Some b1))) in Hrun.
  assert (Hgoal : forall c1 r t,
    rest (mkWorld fd (Mapped WIN_BSC) g s c1) = (r, w', t) ->
    r = Ok (n, Some b') ->
    b' = (rx_byte <$> take (Nat.min (Z.to_nat len) (length (sim_rx s))) (sim_rx s))
         ++ drop (Nat.min (Z.to_nat len) (length (sim_rx s))) b
    /\ length b' = length b
    /\ sim_rx (hw w')
       = drop (Nat.min (Z.to_nat len) (length (sim_rx s))) (sim_rx s)).
  { intros c1 r t Hrest ->. subst rest. destruct (Z.eqb_spec len 0) as [-> | Hne].
    - unfold ret in Hrest. injection Hrest as _ <- <- _. simpl.
      rewrite drop_0. auto.
    - apply bind_ok_inv in Hrest
        as ([b1 read] & w1 & t1 & t2 & Hloop & Hret & _).
      unfold ret in Hret. injection Hret as _ <- <-.
      pose proof (read_poll_loop_sim_buf _ _ _ _ _ _ _ _ _ _ _ Hloop ltac:(lia))
        as [Hbuf Hlen1].
      apply read_poll_loop_sim in Hloop as [_ Hok].
      destruct (Hok _ _ eq_refl) as [_ Hdrop].
      simpl in Hbuf. auto. }
  destruct c as [[| m] |]; [discriminate | |].
  - destruct (rest (mkWorld fd (Mapped WIN_BSC) g s (Some m)))
      as [[r2 w2] t2] eqn:Hrest.
    injection Hrun as -> -> _. eapply Hgoal; [exact Hrest | reflexivity].
  - destruct (rest (mkWorld fd (Mapped WIN_BSC) g s None))
      as [[r2 w2] t2] eqn:Hrest.
    injection Hrun as -> -> _. eapply Hgoal; [exact Hrest | reflexivity].
Qed.

(** The theorem applied to a board with two bytes in the RX FIFO and a
    buffer of four. *)
Lemma bsc_i2c_read_poll_delivers_witness :
  exists w' tr,
    bsc_i2c_read_poll (Some [1; 2; 3; 4]) 4
      (world_mapped (mkSim [0xAA; 0x1BB] [] None 0x305 0
                       (fun _ => 0) (fun _ => 0) [] []))
    = (Ok (2, Some [0xAA; 0xBB; 3; 4]), w', tr)
    /\ sim_rx (hw w') = [].
Proof.
  eexists _, _. split; [vm_compute; reflexivity |].
  exact (proj2 (proj2
    (bsc_i2c_read_poll_delivers [1; 2; 3; 4] 4
       (world_mapped (mkSim [0xAA; 0x1BB] [] None 0x305 0
                        (fun _ => 0) (fun _ => 0) [] []))
       2 [0xAA; 0xBB; 3; 4] _ _ eq_refl ltac:(lia) eq_refl))).
Defined.

(** ** What every run does, and what none does *)

Section Traced.
Context {H : Type} `{!Bus H}.
Variable P : ptr -> list event -> Prop.
Hypothesis P_nil : forall p, P p [].
Hypothesis P_app : forall p t1 t2, P p t1 -> P p t2 -> P p (t1 ++ t2).

Lemma traced_bind {A B} (m : M H A) (k : A -> M H B) :
  traced P m -> (forall a, traced P (k a)) -> traced P (bind m k).
Proof.
  intros Hm Hk w r w' tr Hrun.
  apply bind_inv in Hrun
    as [(a & w1 & t1 & t2 & Hm1 & Hk1 & ->) | (r1 & Hm1 & Hn & ->)].
  - destruct (Hm _ _ _ _ Hm1) as [HP1 Hb1].
    destruct (Hk _ _ _ _ _ Hk1) as [HP2 Hb2].
    rewrite (Hb1 _ eq_refl) in HP2, Hb2.
    split; [apply P_app; assumption | exact Hb2].
  - destruct (Hm _ _ _ _ Hm1) as [HP1 _]. split; [exact HP1 |].
    intros a Ha. destruct r1; simpl in *; try discriminate; contradiction.
Qed.

Lemma traced_silent {A} (m : M H A) :
  (forall w, exists r, m w = (r, w, [])) -> traced P m.
Proof.
  intros Hm w r w' tr Hrun. destruct (Hm w) as [r0 Hr0].
  rewrite Hr0 in Hrun. injection Hrun as _ <- <-.
  split; [apply P_nil | reflexivity].
Qed.

Lemma traced_emit e : (forall p, P p [e]) -> traced P (emit e).
Proof.
  intros HP w r w' tr [= <- <- <-]. split; [apply HP | reflexivity].
Qed.

Lemma traced_load idx :
  (forall win v, P (Mapped win) [EvLoad win idx v]) -> traced P (load bsc idx).
Proof.
  intros HP w r w' tr. unfold load. destruct (bsc w) as [| | win] eqn:Hb.
  1, 2: intros [= <- <- <-]; split; [apply P_nil | discriminate].
  destruct ((0 <=? idx) && (idx <? PAGE_WORDS)).
  - destruct (bus_load win idx (hw w)) as [v h]. intros [= <- <- <-].
    split; [apply HP | intros _ _; exact Hb].
  - intros [= <- <- <-]; split; [apply P_nil | discriminate].
Qed.

Lemma traced_store idx v :
  (forall win x, P (Mapped win) [EvStore win idx x]) ->
  traced P (store bsc idx v).
Proof.
  intros HP w r w' tr. unfold store. destruct (bsc w) as [| | win] eqn:Hb.
  1, 2: intros [= <- <- <-]; split; [apply P_nil | discriminate].
  destruct ((0 <=? idx) && (idx <? PAGE_WORDS)); intros [= <- <- <-].
  - split; [apply HP | intros _ _; exact Hb].
  - split; [apply P_nil | discriminate].
Qed.

Lemma traced_testcancel : (forall p, P p [EvTestCancel]) -> traced P testcancel.
Proof.
  intros HP w r w' tr. unfold testcancel.
  destruct (cancel_after w) as [[| n] |]; intros [= <- <- <-];
    (split; [apply HP | reflexivity]).
Qed.

Lemma traced_usleep us : (forall p, P p [EvSleep us]) -> traced P (usleep us).
Proof.
  intros HP w r w' tr [= <- <- <-]. split; [apply HP | reflexivity].
Qed.

Lemma traced_call_cb {C} (cb : Z -> C -> option Z * C) addr c :
  (forall p a r, P p [EvCallback a r]) -> traced P (call_cb cb addr c).
Proof.
  intros HP w r w' tr. unfold call_cb. destruct (cb (wrap16 addr) c) as [b c'].
  intros [= <- <- <-]. split; [apply HP | reflexivity].
Qed.

Lemma traced_incr_int x : traced P (incr_int x).
Proof.
  apply traced_silent. intros w. unfold incr_int.
  destruct (x <? INT_MAX); eexists; reflexivity.
Qed.
End Traced.

Lemma only_nil ok p : only ok p [].
Proof. intros _. constructor. Qed.

Lemma only_app ok p t1 t2 : only ok p t1 -> only ok p t2 -> only ok p (t1 ++ t2).
Proof. intros H1 H2 Hp. apply Forall_app. auto. Qed.

Lemma only_one ok win e : (win = WIN_BSC -> ok e = true) -> only ok (Mapped win) [e].
Proof. intros He [= ->]. repeat constructor. auto. Qed.

Lemma only_any ok p e : ok e = true -> only ok p [e].
Proof. intros He _. repeat constructor. exact He. Qed.

Lemma rsr_rmw_app bit msg t1 t2 :
  rsr_rmw bit msg t1 -> rsr_rmw bit msg t2 -> rsr_rmw bit msg (t1 ++ t2).
Proof.
  intros H1 H2. induction H1; simpl.
  - exact H2.
  - apply rsr_rmw_other; assumption.
  - apply rsr_rmw_clear; assumption.
Qed.

Lemma rsr_rmw_one bit msg e : is_rsr_store e = false -> rsr_rmw bit msg [e].
Proof. intros He. apply rsr_rmw_other; [exact He | constructor]. Qed.

(** One step through the structure of a computation; [ev] settles the
    condition on the event of a primitive. *)
Ltac traced_step nil app ev :=
  match goal with
  | |- traced _ (bind _ _) => apply (traced_bind _ app); [| intros ?]
  | |- traced _ (load _ _) => apply (traced_load _ nil); intros ? ?; ev
  | |- traced _ (store _ _ _) => apply (traced_store _ nil); intros ? ?; ev
  | |- traced _ testcancel => apply traced_testcancel; intros ?; ev
  | |- traced _ (usleep _) => apply traced_usleep; intros ?; ev
  | |- traced _ (diag _) => apply traced_emit; intros ?; ev
  | |- traced _ (emit _) => apply traced_emit; intros ?; ev
  | |- traced _ (call_cb _ _ _) => apply traced_call_cb; intros ? ? ?; ev
  | |- traced _ (incr_int _) => apply (traced_incr_int _ nil)
  | |- traced _ (ret _) =>
      apply (traced_silent _ nil); intros ?; eexists; reflexivity
  | |- traced _ fault =>
      apply (traced_silent _ nil); intros ?; eexists; reflexivity
  | |- traced _ out_of_fuel =>
      apply (traced_silent _ nil); intros ?; eexists; reflexivity
  | |- traced _ (rsr_clear _) => unfold rsr_clear
  | |- traced _ txe_toggle => unfold txe_toggle
  | |- traced _ (if ?c then _ else _) => destruct c
  | |- traced _ (match ?x with _ => _ end) => destruct x
  end.

Ltac only_ev :=
  first [ apply only_one; intros ->; reflexivity
        | apply only_any; reflexivity ].

Ltac only_go ok := repeat traced_step (only_nil ok) (only_app ok) only_ev.

Section Alphabet.
Context {H : Type} `{!Bus H}.

Section Callback.
Context {C : Type} (cb : Z -> C -> option Z * C).

Lemma write_fill_only fuel : forall addr offset c,
  traced (only write_event) (write_fill cb fuel addr offset c).
Proof.
  induction fuel as [| fuel IH]; intros addr offset c; cbn [write_fill];
    only_go write_event. apply IH.
Qed.

Lemma write_serve_only ifuel fuel : forall addr offset c,
  traced (only write_event) (write_serve cb ifuel fuel addr offset c).
Proof.
  induction fuel as [| fuel IH]; intros addr offset c; cbn [write_serve];
    only_go write_event; [apply write_fill_only | apply IH].
Qed.

Lemma write_flush_only fuel : traced (only write_event) (@write_flush H _ fuel).
Proof.
  unfold write_flush. only_go write_event.
  induction fuel as [| fuel IH]; cbn [write_flush_loop]; only_go write_event.
  exact IH.
Qed.

(** X11.  With [bsc] pointing to the BSC window, a run of [bsc_i2c_write],
    however it ends, accesses no register outside that window; it loads
    only the flag, status and control registers (never the data register,
    so it consumes nothing the master has sent) and stores only to the
    data, status and control registers; it sleeps only for
    [WRITE_USLEEP_INTERVAL] microseconds, reports nothing but an underrun,
    and makes no system call. *)
Theorem bsc_i2c_write_events fuel addr c (w : world H) :
  bsc w = Mapped WIN_BSC ->
  Forall (fun e => write_event e = true) (snd (bsc_i2c_write cb fuel addr c w)).
Proof.
  intros Hb.
  destruct (bsc_i2c_write cb fuel addr c w) as [[r w'] tr] eqn:Hrun.
  assert (Ht : traced (only write_event) (bsc_i2c_write cb fuel addr c)).
  { unfold bsc_i2c_write. only_go write_event.
    - apply write_serve_only.
    - apply write_flush_only. }
  exact (proj1 (Ht _ _ _ _ Hrun) Hb).
Qed.
End Callback.

Lemma read_poll_loop_only len : forall buf read,
  traced (only read_event) (@read_poll_loop H _ len buf read).
Proof.
  induction len as [| len IH]; intros buf read; cbn [read_poll_loop];
    only_go read_event.
  - unfold read_poll_body, buf_store. only_go read_event.
  - apply IH.
Qed.

(** X12.  With [bsc] pointing to the BSC window, a run of
    [bsc_i2c_read_poll], however it ends, accesses no register outside
    that window; it loads only the flag, status and data registers and
    stores only to the status register (never to the data or control
    register); it never sleeps, reports nothing but an overflow, and makes
    no system call. *)
Theorem bsc_i2c_read_poll_events buf len (w : world H) :
  bsc w = Mapped WIN_BSC ->
  Forall (fun e => read_event e = true) (snd (bsc_i2c_read_poll buf len w)).
Proof.
  intros Hb.
  destruct (bsc_i2c_read_poll buf len w) as [[r w'] tr] eqn:Hrun.
  assert (Ht : traced (only read_event) (@bsc_i2c_read_poll H _ buf len)).
  { unfold bsc_i2c_read_poll. only_go read_event. apply read_poll_loop_only. }
  exact (proj1 (Ht _ _ _ _ Hrun) Hb).
Qed.
End Alphabet.

(** The theorem applied to a board whose master reads twice and then
    writes. *)
Lemma bsc_i2c_write_events_witness :
  Forall (fun e => write_event e = true)
    (snd (bsc_i2c_write (table_cb [1; 2; 3]) 40 0 tt
            (world_mapped (mkSim [] [] None 0x305 0 (fun _ => 0) (fun _ => 0)
                             [MasterRead; MasterRead; MasterWrite 7] [])))).
Proof.
  exact (bsc_i2c_write_events (table_cb [1; 2; 3]) 40 0 tt
           (world_mapped (mkSim [] [] None 0x305 0 (fun _ => 0) (fun _ => 0)
                            [MasterRead; MasterRead; MasterWrite 7] []))
           eq_refl).
Defined.

(** The theorem applied to a board with two bytes in the RX FIFO and the
    overrun flag set. *)
Lemma bsc_i2c_read_poll_events_witness :
  Forall (fun e => read_event e = true)
    (snd (bsc_i2c_read_poll (Some [0; 0; 0]) 3
            (world_mapped (mkSim [5; 6] [] None 0x305 1 (fun _ => 0)
                             (fun _ => 0) [] [])))).
Proof.
  exact (bsc_i2c_read_poll_events (Some [0; 0; 0]) 3
           (world_mapped (mkSim [5; 6] [] None 0x305 1 (fun _ => 0)
                            (fun _ => 0) [] []))
           eq_refl).
Defined.

(** ** Clearing the error bits of the status register *)

Ltac rmw_ev := cbv beta; apply rsr_rmw_one; reflexivity.

Section StatusRegister.
Context {H : Type} `{!Bus H}.

(** The check of an error bit as both loops make it: a load of the status
    register and, if the bit is set, the report and the read-modify-write
    that clears it. *)
Lemma traced_rsr_check bit msg {A} (k : Z -> unit -> M H A) :
  0 <= bit ->
  (forall rsr u, traced (fun _ => rsr_rmw bit msg) (k rsr u)) ->
  traced (fun _ => rsr_rmw bit msg)
    (bind (load bsc BSC_RSR) (fun rsr =>
       bind (if Z.land rsr (Z.shiftl 1 bit) =? 0 then ret tt
             else bind (diag msg) (fun _ => rsr_clear (Z.shiftl 1 bit)))
            (k rsr))).
Proof.
  intros Hbit Hk w r w' tr Hrun.
  assert (Hpage : 0 <= BSC_RSR < PAGE_WORDS) by (vm_compute; split; congruence).
  apply bind_inv in Hrun
    as [(rsr & w1 & t1 & t2 & Hload & Hrest & ->) | (r1 & Hload & Hn & ->)].
  2:{ assert (Hl : traced (fun _ => rsr_rmw bit msg) (load bsc BSC_RSR)).
      { apply (traced_load _ (fun _ => rsr_rmw_nil bit msg)). intros win v.
        rmw_ev. }
      destruct (Hl _ _ _ _ Hload) as [HP _]. split; [exact HP |].
      intros a Ha. destruct r1; simpl in *; try discriminate; contradiction. }
  apply load_ok_inv in Hload as (win & h & Hb & -> & -> & Hv).
  assert (Hb1 : bsc (set_hw h w) = Mapped win) by exact Hb.
  destruct (Z.land rsr (Z.shiftl 1 bit) =? 0) eqn:Htest.
  - erewrite bind_ok in Hrest by reflexivity.
    destruct (k rsr tt (set_hw h w)) as [[r2 w2] t3] eqn:Hk2.
    injection Hrest as <- <- <-.
    destruct (Hk _ _ _ _ _ _ Hk2) as [HP Hbk]. simpl.
    split; [apply rsr_rmw_other; [reflexivity | exact HP] | exact Hbk].
  - rewrite land_bit_eqb in Htest by exact Hbit.
    apply negb_false_iff in Htest.
    assert (Hclear :
      bind (diag msg) (fun _ => rsr_clear (Z.shiftl 1 bit)) (set_hw h w)
      = (Ok tt,
         set_hw (bus_store win BSC_RSR
                   (wrap32 (Z.land
                      (wrap32 (fst (bus_load win BSC_RSR (hw (set_hw h w)))))
                      (wrap32 (Z.lnot (Z.shiftl 1 bit)))))
                   (hw (set_hw (snd (bus_load win BSC_RSR (hw (set_hw h w))))
                          (set_hw h w))))
           (set_hw (snd (bus_load win BSC_RSR (hw (set_hw h w)))) (set_hw h w)),
         [EvDiag msg;
          EvLoad win BSC_RSR (wrap32 (fst (bus_load win BSC_RSR (hw (set_hw h w)))));
          EvStore win BSC_RSR
            (wrap32 (Z.land
               (wrap32 (fst (bus_load win BSC_RSR (hw (set_hw h w)))))
               (wrap32 (Z.lnot (Z.shiftl 1 bit)))))])).
    { unfold diag, rsr_clear. erewrite bind_ok by reflexivity. cbv beta iota.
      erewrite bind_ok by (apply load_mapped; [exact Hb1 | exact Hpage]).
      cbv beta iota.
      erewrite store_mapped by first [exact Hb1 | exact Hpage]. reflexivity. }
    erewrite bind_ok in Hrest by exact Hclear.
    destruct (k rsr tt _) as [[r2 w2] t3] eqn:Hk2.
    injection Hrest as <- <- <-.
    destruct (Hk _ _ _ _ _ _ Hk2) as [HP Hbk]. simpl.
    split; [| exact Hbk].
    apply rsr_rmw_clear; [exact Htest | | | exact HP].
    + rewrite testbit_clear_bit by (try exact Hbit; symmetry; apply wrap32_idem).
      rewrite Z.eqb_refl. reflexivity.
    + intros i Hi.
      rewrite testbit_clear_bit by (try exact Hbit; symmetry; apply wrap32_idem).
      destruct (Z.eqb_spec i bit); [contradiction | reflexivity].
Qed.
End StatusRegister.

Ltac rmw_go bit msg :=
  repeat first
    [ match goal with
      | |- traced _ (bind (load _ BSC_RSR) _) =>
          apply (traced_rsr_check bit msg); [lia | intros ? ?]
      end
    | traced_step (fun _ : ptr => rsr_rmw_nil bit msg)
                  (fun _ : ptr => rsr_rmw_app bit msg) rmw_ev ].

Section StatusRegisterRuns.
Context {H : Type} `{!Bus H}.

Section Callback.
Context {C : Type} (cb : Z -> C -> option Z * C).

Lemma write_fill_rmw fuel : forall addr offset c,
  traced (fun _ => rsr_rmw 1 "pi2cslave: Underrun!")
    (write_fill cb fuel addr offset c).
Proof.
  induction fuel as [| fuel IH]; intros addr offset c; cbn [write_fill];
    rmw_go (1%Z) ("pi2cslave: Underrun!"%string). apply IH.
Qed.

Lemma write_serve_rmw ifuel fuel : forall addr offset c,
  traced (fun _ => rsr_rmw 1 "pi2cslave: Underrun!")
    (write_serve cb ifuel fuel addr offset c).
Proof.
  induction fuel as [| fuel IH]; intros addr offset c; cbn [write_serve];
    rmw_go (1%Z) ("pi2cslave: Underrun!"%string); [apply write_fill_rmw | apply IH].
Qed.

Lemma write_flush_rmw fuel :
  traced (fun _ => rsr_rmw 1 "pi2cslave: Underrun!") (@write_flush H _ fuel).
Proof.
  unfold write_flush. rmw_go (1%Z) ("pi2cslave: Underrun!"%string).
  induction fuel as [| fuel IH]; cbn [write_flush_loop];
    rmw_go (1%Z) ("pi2cslave: Underrun!"%string).
  exact IH.
Qed.

(** X13.  In every run of [bsc_i2c_write], however it ends, the status
    register is stored to only to clear the underrun bit: each such store
    comes right after a load of the status register that showed bit 1 set,
    the underrun report and a second load of the register, and it stores
    the value of that second load with bit 1 cleared and every other bit
    unchanged. *)
Theorem bsc_i2c_write_underrun_cleared fuel addr c (w : world H) :
  rsr_rmw 1 "pi2cslave: Underrun!" (snd (bsc_i2c_write cb fuel addr c w)).
Proof.
  destruct (bsc_i2c_write cb fuel addr c w) as [[r w'] tr] eqn:Hrun.
  assert (Ht : traced (fun _ => rsr_rmw 1 "pi2cslave: Underrun!")
                 (bsc_i2c_write cb fuel addr c)).
  { unfold bsc_i2c_write. rmw_go (1%Z) ("pi2cslave: Underrun!"%string).
    - apply write_serve_rmw.
    - apply write_flush_rmw. }
  exact (proj1 (Ht _ _ _ _ Hrun)).
Qed.
End Callback.

Lemma read_poll_loop_rmw len : forall buf read,
  traced (fun _ => rsr_rmw 0 "pi2cslave: Overflow!")
    (@read_poll_loop H _ len buf read).
Proof.
  induction len as [| len IH]; intros buf read; cbn [read_poll_loop];
    rmw_go (0%Z) ("pi2cslave: Overflow!"%string).
  - unfold read_poll_body, buf_store. rmw_go (0%Z) ("pi2cslave: Overflow!"%string).
  - apply IH.
Qed.

(** X14.  In every run of [bsc_i2c_read_poll], however it ends, the status
    register is stored to only to clear the overrun bit: each such store
    comes right after a load of the status register that showed bit 0 set,
    the overflow report and a second load of the register, and it stores
    the value of that second load with bit 0 cleared and every other bit
    unchanged. *)
Theorem bsc_i2c_read_poll_overrun_cleared buf len (w : world H) :
  rsr_rmw 0 "pi2cslave: Overflow!" (snd (bsc_i2c_read_poll buf len w)).
Proof.
  destruct (bsc_i2c_read_poll buf len w) as [[r w'] tr] eqn:Hrun.
  assert (Ht : traced (fun _ => rsr_rmw 0 "pi2cslave: Overflow!")
                 (@bsc_i2c_read_poll H _ buf len)).
  { unfold bsc_i2c_read_poll. rmw_go (0%Z) ("pi2cslave: Overflow!"%string).
    apply read_poll_loop_rmw. }
  exact (proj1 (Ht _ _ _ _ Hrun)).
Qed.
End StatusRegisterRuns.

(** ** The transmit path on the simulated peripheral *)

Lemma sim_tx_full_test s :
  (Z.land (wrap32 (sim_fr s)) FR_TXFF =? 0)
  = negb (FIFO_LEN <=? Z.of_nat (length (sim_tx s))).
Proof.
  unfold FR_TXFF. rewrite land_bit_eqb, testbit_wrap32 by lia. f_equal.
  unfold sim_fr, FR_RXFE, FR_TXFF, FR_RXFF, FR_TXFE.
  rewrite !Z.lor_spec, !Z.land_spec, !testbit_flag by lia.
  change (Z.testbit FR_TXFLEVEL 2) with false.
  change (Z.testbit FR_RXFLEVEL 2) with false.
  simpl. rewrite !andb_false_r, !orb_false_r. apply andb_true_r.
Qed.

(** The TX level field of the flag register is the number of bytes in the
    TX FIFO. *)
Lemma sim_txflevel s :
  (length (sim_tx s) <= 16)%nat ->
  txflevel (wrap32 (sim_fr s)) = Z.of_nat (length (sim_tx s)).
Proof.
  intros Hlen. unfold txflevel. apply Z.bits_inj'. intros i Hi.
  rewrite Z.shiftr_spec, Z.land_spec, testbit_wrap32 by exact Hi.
  unfold sim_fr, FR_RXFE, FR_TXFF, FR_RXFF, FR_TXFE.
  rewrite !Z.lor_spec, !Z.land_spec, !testbit_flag by lia.
  unfold FR_TXFLEVEL, FR_RXFLEVEL, FR_TXFLEVEL_OFF, FR_RXFLEVEL_OFF.
  rewrite !Z.shiftl_spec by lia.
  change 0x1F with (Z.ones 5). rewrite !Z.testbit_ones by lia.
  replace (i + 6 - 6) with i by lia.
  destruct (Z.ltb_spec i 5) as [Hlt | Hge].
  - destruct (Z.ltb_spec (i + 6) 32); [| lia].
    destruct (Z.eqb_spec 1 (i + 6)); [lia |].
    destruct (Z.eqb_spec 2 (i + 6)); [lia |].
    destruct (Z.eqb_spec 3 (i + 6)); [lia |].
    destruct (Z.eqb_spec 4 (i + 6)); [lia |].
    destruct (Z.leb_spec 0 i); [| lia].
    destruct (Z.ltb_spec (i + 6 - 11) 5); [| lia].
    destruct (Z.leb_spec 0 (i + 6 - 11)); [lia |].
    simpl. rewrite !andb_false_r, !andb_true_r, !orb_false_r. reflexivity.
  - rewrite !andb_false_r.
    symmetry. apply (Z.bits_above_log2 (Z.of_nat (length (sim_tx s))) i); [lia |].
    destruct (Z.eq_dec (Z.of_nat (length (sim_tx s))) 0) as [-> | Hnz];
      [simpl; lia |].
    apply Z.log2_lt_pow2; [lia |].
    apply Z.lt_le_trans with (2 ^ 5); [lia |].
    apply Z.pow_le_mono_r; lia.
Qed.

Lemma sim_load_rsr fd g s c :
  load bsc BSC_RSR (mkWorld fd (Mapped WIN_BSC) g s c)
  = (Ok (wrap32 (sim_rsr s)), mkWorld fd (Mapped WIN_BSC) g s c,
     [EvLoad WIN_BSC BSC_RSR (wrap32 (sim_rsr s))]).
Proof. reflexivity. Qed.

Lemma fed_refl s : tx_live s -> fed s [] s.
Proof. intros Hl. split; [symmetry; apply app_nil_r | split; [lia | exact Hl]]. Qed.

Lemma fed_trans s q1 s1 q2 s2 :
  fed s q1 s1 -> fed s1 q2 s2 -> fed s (q1 ++ q2) s2.
Proof.
  intros (Hc1 & Hs1 & _) (Hc2 & Hs2 & Hl2).
  split; [rewrite Hc2, Hc1, app_assoc; reflexivity | split; [lia | exact Hl2]].
Qed.

(** A store to the data register while the FIFO has room queues the low 8
    bits of the value. *)
Lemma sim_store_dr_fed s v :
  tx_live s -> (length (sim_tx s) < 16)%nat ->
  fed s [wrap8 v] (sim_store WIN_BSC BSC_DR v s)
  /\ sim_rx (sim_store WIN_BSC BSC_DR v s) = sim_rx s
  /\ sim_master (sim_store WIN_BSC BSC_DR v s) = sim_master s.
Proof.
  destruct s as [rx tx st cr rsr regs gp ms sent].
  unfold fed, tx_live, chan, sim_store. cbn [sim_rx sim_tx sim_staged sim_cr
    sim_sent sim_master]. intros (Hcr & Hst & Hlen) Hroom.
  change (BSC_DR =? BSC_DR) with true. cbv iota.
  destruct (Z.ltb_spec (Z.of_nat (length tx)) FIFO_LEN) as [_ | Hfull];
    [| unfold FIFO_LEN in Hfull; lia].
  destruct st as [b |].
  - cbn [sim_rx sim_tx sim_staged sim_cr sim_sent sim_master option_list].
    rewrite length_app. simpl.
    repeat split; try reflexivity; try assumption; try discriminate; try lia.
    rewrite <- !app_assoc. reflexivity.
  - rewrite Hcr. rewrite (Hst eq_refl) in *. unfold sim_stage.
    cbn [sim_rx sim_tx sim_staged sim_cr sim_sent sim_master option_list
         app head tail length].
    repeat split; try reflexivity; try assumption; try lia.
    simpl. rewrite !app_nil_r. reflexivity.
Qed.

(** The master's turn: nothing is lost, and what it reads it appends to
    what it has received. *)
Lemma sim_usleep_fed us s :
  tx_live s -> fed s [] (sim_usleep us s).
Proof.
  destruct s as [rx tx st cr rsr regs gp ms sent].
  unfold fed, tx_live, chan, sim_usleep. cbn [sim_rx sim_tx sim_staged sim_cr
    sim_sent sim_master]. intros (Hcr & Hst & Hlen). rewrite app_nil_r.
  destruct ms as [| [| b |] ms];
    cbn [sim_rx sim_tx sim_staged sim_cr sim_sent sim_master].
  - repeat split; try assumption; lia.
  - destruct st as [b |];
      cbn [sim_rx sim_tx sim_staged sim_cr sim_sent sim_master option_list].
    + rewrite length_app. simpl.
      destruct tx as [| x tx]; simpl in *;
        (split; [rewrite <- !app_assoc; reflexivity |]);
        (split; [lia |]); repeat split; try assumption; try discriminate; lia.
    + repeat split; try assumption; lia.
  - destruct (Z.of_nat (length rx) <? FIFO_LEN);
      cbn [sim_rx sim_tx sim_staged sim_cr sim_sent sim_master];
      repeat split; try assumption; lia.
  - repeat split; try assumption; lia.
Qed.

(** While the master does not write, the RX FIFO stays as it is. *)
Lemma sim_usleep_no_write us s :
  no_write (sim_master s) = true ->
  sim_rx (sim_usleep us s) = sim_rx s
  /\ no_write (sim_master (sim_usleep us s)) = true.
Proof.
  destruct s as [rx tx st cr rsr regs gp ms sent]. unfold sim_usleep.
  cbn [sim_rx sim_master sim_staged].
  destruct ms as [| [| b |] ms]; simpl; intros Hnw; try discriminate.
  - split; reflexivity.
  - destruct st; simpl; auto.
  - auto.
Qed.

Lemma wrap8_idem b : wrap8 (wrap8 b) = wrap8 b.
Proof. unfold wrap8. apply Z.mod_mod. lia. Qed.

Lemma testcancel_ok_inv {H} `{!Bus H} fd b g (h : H) c u w' t :
  testcancel (mkWorld fd b g h c) = (Ok u, w', t) ->
  exists c', w' = mkWorld fd b g h c' /\ t = [EvTestCancel]
             /\ (c = None -> c' = None).
Proof.
  unfold testcancel. cbn [cancel_after].
  destruct c as [[| n] |]; intros Heq; inversion Heq; subst;
    eexists; repeat split; discriminate.
Qed.

Lemma incr_int_ok_inv {H} `{!Bus H} x (w : world H) x' w' t :
  incr_int x w = (Ok x', w', t) -> x' = x + 1 /\ w' = w /\ t = [] /\ x < INT_MAX.
Proof.
  unfold incr_int. destruct (Z.ltb_spec x INT_MAX); [| discriminate].
  intros [= <- <- <-]. auto.
Qed.

(** The check of an error bit on the simulation changes at most the status
    register. *)
Lemma rsr_check_sim_inv rsr flag msg fd g s c u w' t :
  (if Z.land rsr flag =? 0 then ret tt
   else bind (diag msg) (fun _ => rsr_clear flag))
    (mkWorld fd (Mapped WIN_BSC) g s c) = (Ok u, w', t) ->
  exists v, w' = mkWorld fd (Mapped WIN_BSC) g (sim_with_rsr v s) c
            /\ dr_stores t = [] /\ cbs t = [].
Proof.
  destruct u. destruct (Z.land rsr flag =? 0).
  - intros [= <- <-]. exists (sim_rsr s). destruct s.
    split; [reflexivity | auto].
  - unfold diag, rsr_clear, emit. intros Hrun.
    apply bind_ok_inv in Hrun as ([] & w1 & t1 & t2 & [= <- <-] & Hrun & ->).
    apply bind_ok_inv in Hrun as (v & w2 & t2' & t3 & Hl & Hst & ->).
    rewrite sim_load_rsr in Hl. injection Hl as <- <- <-.
    rewrite sim_store_bsc in Hst by (vm_compute; split; congruence).
    injection Hst as <- <-. eexists. split; [reflexivity |]. auto.
Qed.

Section TransmitPath.
Context {C : Type} (cb : Z -> C -> option Z * C).

(** The inner loop on the simulation: a run that returns has queued every
    byte it stored to the data register, dropped none, and left the RX FIFO
    and the master's script alone. *)
Lemma write_fill_sim fuel :
  forall addr offset c fd g s cn a w' tr,
    write_fill cb fuel addr offset c (mkWorld fd (Mapped WIN_BSC) g s cn)
    = (Ok a, w', tr) ->
    tx_live s ->
    exists s' cn',
      w' = mkWorld fd (Mapped WIN_BSC) g s' cn'
      /\ fed s (dr_stores tr) s'
      /\ sim_rx s' = sim_rx s /\ sim_master s' = sim_master s
      /\ (cn = None -> cn' = None).
Proof.
  induction fuel as [| fuel IH]; intros addr offset c fd g s cn a w' tr;
    [discriminate |].
  cbn [write_fill]. intros Hrun Hlive.
  apply bind_ok_inv in Hrun as (fr & w1 & t1 & t2 & Hload & Hrun & ->).
  rewrite sim_load_fr in Hload. injection Hload as <- <- <-.
  rewrite sim_tx_full_test in Hrun.
  destruct (Z.leb_spec FIFO_LEN (Z.of_nat (length (sim_tx s)))) as [Hfull | Hroom];
    cbn [negb] in Hrun.
  { injection Hrun as <- <- <-. exists s, cn. split; [reflexivity |].
    split; [apply fed_refl, Hlive | auto]. }
  apply bind_ok_inv in Hrun as ([] & w2 & t2' & t3 & Htc & Hrun & ->).
  apply testcancel_ok_inv in Htc as (cn1 & -> & -> & Hcn1).
  apply bind_ok_inv in Hrun as (rsr & w3 & t3' & t4 & Hl2 & Hrun & ->).
  rewrite sim_load_rsr in Hl2. injection Hl2 as <- <- <-.
  apply bind_ok_inv in Hrun as ([] & w4 & t4' & t5 & Hchk & Hrun & ->).
  apply rsr_check_sim_inv in Hchk as (v & -> & Hq4 & _).
  rewrite call_cb_bind in Hrun. destruct (cb (wrap16 addr) c) as [res c1].
  assert (Hlive1 : tx_live (sim_with_rsr v s)) by exact Hlive.
  destruct res as [b0 |]; cbn [option_map] in Hrun.
  - destruct (bind _ _ _) as [[r5 w5] t6] eqn:Hk in Hrun.
    injection Hrun as -> -> <-.
    apply bind_ok_inv in Hk as ([] & w6 & t6' & t7 & Hst & Hk & ->).
    rewrite sim_store_bsc in Hst by (vm_compute; split; congruence).
    injection Hst as <- <-.
    apply bind_ok_inv in Hk as (o' & w7 & t7' & t8 & Hinc & Hk & ->).
    apply incr_int_ok_inv in Hinc as (-> & -> & -> & _).
    destruct (sim_store_dr_fed (sim_with_rsr v s) (wrap32 (wrap8 b0)) Hlive1)
      as (Hfed1 & Hrx1 & Hms1).
    { cbn [sim_with_rsr sim_tx]. unfold FIFO_LEN in Hroom. lia. }
    apply IH in Hk as (s' & cn' & -> & Hfed & Hrx & Hms & Hcn);
      [| apply Hfed1].
    exists s', cn'. split; [reflexivity |].
    assert (Hb : wrap8 (wrap32 (wrap8 b0)) = wrap8 b0)
      by (rewrite wrap32_wrap8; apply wrap8_idem).
    rewrite Hb in Hfed1.
    split.
    { cbn [app dr_stores]. rewrite !dr_stores_app, Hq4. cbn [app dr_stores].
      change (BSC_DR =? BSC_DR) with true. cbv iota. rewrite wrap32_wrap8.
      exact (fed_trans s [wrap8 b0] _ _ _ Hfed1 Hfed). }
    split; [exact (eq_trans Hrx Hrx1) |].
    split; [exact (eq_trans Hms Hms1) | auto].
  - injection Hrun as <- <- <-. exists (sim_with_rsr v s), cn1.
    split; [reflexivity |]. split; [| auto].
    cbn [app dr_stores]. rewrite !dr_stores_app, Hq4. cbn [app dr_stores].
    apply (fed_refl s Hlive).
Qed.

(** The outer loop on the simulation: a run that returns has queued every
    byte it stored to the data register and dropped none, while the master
    read from the head of what was queued. *)
Lemma write_serve_sim ifuel fuel :
  forall addr offset c fd g s cn a w' tr,
    write_serve cb ifuel fuel addr offset c (mkWorld fd (Mapped WIN_BSC) g s cn)
    = (Ok a, w', tr) ->
    tx_live s ->
    exists s' cn',
      w' = mkWorld fd (Mapped WIN_BSC) g s' cn' /\ fed s (dr_stores tr) s'.
Proof.
  induction fuel as [| fuel IH]; intros addr offset c fd g s cn a w' tr;
    [discriminate |].
  cbn [write_serve]. intros Hrun Hlive.
  apply bind_ok_inv in Hrun as (fr & w1 & t1 & t2 & Hload & Hrun & ->).
  rewrite sim_load_fr in Hload. injection Hload as <- <- <-.
  destruct (Z.land (wrap32 (sim_fr s)) FR_RXFE =? 0).
  { injection Hrun as <- <- <-. exists s, cn. split; [reflexivity |].
    apply fed_refl, Hlive. }
  apply bind_ok_inv in Hrun as ([] & w2 & t2' & t3 & Htc & Hrun & ->).
  apply testcancel_ok_inv in Htc as (cn1 & -> & -> & Hcn1).
  apply bind_ok_inv in Hrun
    as ([[a1 o1] c1] & w3 & t3' & t4 & Hfill & Hrun & ->).
  apply write_fill_sim in Hfill as (s1 & cn2 & -> & Hfed1 & _); [| exact Hlive].
  apply bind_ok_inv in Hrun as ([] & w4 & t4' & t5 & Hsl & Hrun & ->).
  injection Hsl as <- <-.
  pose proof (sim_usleep_fed WRITE_USLEEP_INTERVAL s1 (proj2 (proj2 Hfed1)))
    as Hfed2.
  apply IH in Hrun as (s' & cn' & -> & Hfed3); [| apply Hfed2].
  exists s', cn'. split; [reflexivity |].
  cbn [app dr_stores]. rewrite !dr_stores_app. cbn [app dr_stores].
  pose proof (fed_trans _ _ _ _ _ (fed_trans _ _ _ _ _ Hfed1 Hfed2) Hfed3) as Hf.
  rewrite app_nil_r in Hf. exact Hf.
Qed.
End TransmitPath.

(** The flush on the simulation gives the master nothing. *)
Lemma write_flush_loop_sim_sent fuel :
  forall fd g s c w' tr,
    write_flush_loop fuel (mkWorld fd (Mapped WIN_BSC) g s c) = (Ok tt, w', tr) ->
    exists s', w' = mkWorld fd (Mapped WIN_BSC) g s' c
               /\ sim_sent s' = sim_sent s.
Proof.
  induction fuel as [| fuel IH]; intros fd g s c w' tr; [discriminate |].
  cbn [write_flush_loop]. unfold bind at 1.
  rewrite sim_load_fr. destruct (Z.land (wrap32 (sim_fr s)) FR_TXFE =? 0).
  - unfold bind at 1. rewrite txe_toggle_sim.
    destruct (write_flush_loop fuel _) as [[r2 w2] t2] eqn:Hloop.
    intros [= -> <- _].
    apply IH in Hloop as (s' & -> & Hs). exists s'. split; [reflexivity |].
    exact Hs.
  - intros [= <- _]. exists s. auto.
Qed.

Lemma write_flush_sim_sent fuel fd g s c w' tr :
  write_flush fuel (mkWorld fd (Mapped WIN_BSC) g s c) = (Ok tt, w', tr) ->
  sim_sent (hw w') = sim_sent s.
Proof.
  unfold write_flush. intros Hrun.
  apply bind_ok_inv in Hrun as ([] & w1 & t1 & t2 & Hloop & Htog & ->).
  apply write_flush_loop_sim_sent in Hloop as (s' & -> & Hs).
  rewrite txe_toggle_sim in Htog. injection Htog as <- _. exact Hs.
Qed.

Section Delivery.
Context {C : Type} (cb : Z -> C -> option Z * C).

(** X15.  On the simulated peripheral, with the BSC window mapped, transmit
    enabled and the transmitter idle (TX FIFO empty, nothing staged), in a
    run of [bsc_i2c_write] that returns [n] the master has received, in
    order and with nothing in between, the first k of the bytes the callback
    produced, for some k; and [n] is k or k - 1: the value returned never
    exceeds the number of bytes the master received, and falls short of it
    by at most one. *)
Theorem bsc_i2c_write_delivers fuel addr c (w : world sim) n c' w' tr :
  bsc w = Mapped WIN_BSC ->
  txe_on (sim_cr (hw w)) = true ->
  sim_tx (hw w) = [] -> sim_staged (hw w) = None ->
  bsc_i2c_write cb fuel addr c w = (Ok (n, c'), w', tr) ->
  exists k : nat,
    sim_sent (hw w') = sim_sent (hw w) ++ take k (cb_bytes (cbs tr))
    /\ (k <= length (cb_bytes (cbs tr)))%nat
    /\ n <= Z.of_nat k <= n + 1.
Proof.
  intros Hb Htxe Htx Hst Hrun.
  destruct w as [fd b g s cn]. cbn [bsc hw] in *. subst b.
  destruct (bsc_i2c_write_ok_inv _ _ _ _ _ _ _ _ _ Hrun)
    as (w0 & addr' & offset & w1 & t_fill & win & fr & w2 & t_flush
        & Htc & Hserve & Hload & Hflush & -> & ->).
  apply testcancel_ok_inv in Htc as (cn0 & -> & _ & _).
  pose proof (write_serve_post _ _ _ _ _ _ _ _ _ _ Hserve) as [_ Hok].
  destruct (Hok _ _ _ eq_refl) as (_ & Ho & Hmax).
  pose proof (queues_write_serve cb _ _ _ _ _ _ _ _ _ Hserve) as Hq.
  apply write_serve_sim in Hserve as (s1 & cn1 & -> & Hfed).
  2:{ split; [exact Htxe |]. split; [intros _; exact Htx |].
      rewrite Htx. simpl. lia. }
  rewrite sim_load_fr in Hload. injection Hload as Hfr Hw2 Hwin _.
  subst fr w2 win.
  pose proof (write_flush_sim_sent _ _ _ _ _ _ _ Hflush) as Hsent.
  destruct (quiet_write_flush _ _ _ _ _ Hflush) as [Hqf _].
  assert (Hcbs : cbs (EvTestCancel
                      :: t_fill ++ EvLoad WIN_BSC BSC_FR (wrap32 (sim_fr s1))
                         :: t_flush) = cbs t_fill).
  { simpl. rewrite cbs_app. simpl. rewrite Hqf. apply app_nil_r. }
  rewrite Hcbs, Hsent. rewrite Hq in Hfed.
  destruct Hfed as (Hchan & Hlen & (_ & Hst1 & Hlen1)).
  unfold chan in Hchan. rewrite Htx, Hst in Hchan. simpl in Hchan.
  rewrite app_nil_r in Hchan.
  pose proof (f_equal (@length Z) Hchan) as Hcount.
  rewrite !length_app in Hcount.
  pose proof (cb_oks_bounds (cbs t_fill)) as Hbnd.
  rewrite cb_oks_bytes in Ho, Hbnd.
  rewrite write_ret_exact by (unfold INT_MAX in *; lia).
  rewrite sim_txflevel by exact Hlen1.
  exists (length (sim_sent s1) - length (sim_sent s))%nat.
  split.
  { rewrite <- (take_app_length (sim_sent s1)
                  (option_list (sim_staged s1) ++ sim_tx s1)) at 1.
    rewrite Hchan. apply take_app_ge. exact Hlen. }
  split; [lia |].
  destruct (sim_staged s1) as [b1 |] eqn:Hs1.
  - simpl in Hcount.
    destruct (Z.ltb_spec
                (offset - Z.of_nat (length (sim_tx s1)) - 1) 0); lia.
  - rewrite (Hst1 eq_refl) in *. simpl in Hcount. simpl length.
    destruct (Z.ltb_spec (offset - Z.of_nat 0 - 1) 0); lia.
Qed.
End Delivery.

(** The theorem applied to a board whose master reads twice and then
    writes, with a callback that has two bytes: both reach the master, and
    the value returned is 1. *)
Lemma bsc_i2c_write_delivers_witness :
  fst (fst (bsc_i2c_write (table_cb [1; 2]) 10 0 tt
              (sim_board [MasterRead; MasterRead; MasterWrite 7])))
  = Ok (1, tt)
  /\ sim_sent (hw (snd (fst (bsc_i2c_write (table_cb [1; 2]) 10 0 tt
                             (sim_board [MasterRead; MasterRead; MasterWrite 7])))))
     = [1; 2]
  /\ exists k : nat,
       sim_sent (hw (snd (fst (bsc_i2c_write (table_cb [1; 2]) 10 0 tt
                               (sim_board [MasterRead; MasterRead; MasterWrite 7])))))
       = sim_sent (hw (sim_board [MasterRead; MasterRead; MasterWrite 7]))
         ++ take k (cb_bytes (cbs (snd (bsc_i2c_write (table_cb [1; 2]) 10 0 tt
                     (sim_board [MasterRead; MasterRead; MasterWrite 7])))))
       /\ Nat.le k (length (cb_bytes (cbs (snd (bsc_i2c_write (table_cb [1; 2]) 10 0 tt
                     (sim_board [MasterRead; MasterRead; MasterWrite 7]))))))
       /\ 1 <= Z.of_nat k <= 1 + 1.
Proof.
  split; [vm_compute; reflexivity |]. split; [vm_compute; reflexivity |].
  apply (bsc_i2c_write_delivers (table_cb [1; 2]) 10 0 tt
           (sim_board [MasterRead; MasterRead; MasterWrite 7]) 1 tt
           (snd (fst (bsc_i2c_write (table_cb [1; 2]) 10 0 tt
                        (sim_board [MasterRead; MasterRead; MasterWrite 7]))))
           (snd (bsc_i2c_write (table_cb [1; 2]) 10 0 tt
                   (sim_board [MasterRead; MasterRead; MasterWrite 7]))));
    vm_compute; reflexivity.
Defined.

(** ** Waiting for the master *)

Lemma sim_store_dr_rx v s :
  sim_rx (sim_store WIN_BSC BSC_DR v s) = sim_rx s
  /\ sim_master (sim_store WIN_BSC BSC_DR v s) = sim_master s.
Proof.
  unfold sim_store. change (BSC_DR =? BSC_DR) with true. cbv iota.
  destruct (sim_staged s); [| destruct (txe_on (sim_cr s))]; split; reflexivity.
Qed.

Section Waiting.
Context {C : Type} (cb : Z -> C -> option Z * C).

(** The inner loop leaves the RX FIFO and the master's script alone. *)
Lemma write_fill_sim_rx fuel :
  forall addr offset c fd g s cn a w' tr,
    write_fill cb fuel addr offset c (mkWorld fd (Mapped WIN_BSC) g s cn)
    = (Ok a, w', tr) ->
    exists s' cn',
      w' = mkWorld fd (Mapped WIN_BSC) g s' cn'
      /\ sim_rx s' = sim_rx s /\ sim_master s' = sim_master s.
Proof.
  induction fuel as [| fuel IH]; intros addr offset c fd g s cn a w' tr;
    [discriminate |].
  cbn [write_fill]. intros Hrun.
  apply bind_ok_inv in Hrun as (fr & w1 & t1 & t2 & Hload & Hrun & ->).
  rewrite sim_load_fr in Hload. injection Hload as <- <- <-.
  destruct (Z.land (wrap32 (sim_fr s)) FR_TXFF =? 0).
  2:{ injection Hrun as <- <- <-. exists s, cn. auto. }
  apply bind_ok_inv in Hrun as ([] & w2 & t2' & t3 & Htc & Hrun & ->).
  apply testcancel_ok_inv in Htc as (cn1 & -> & -> & Hcn1).
  apply bind_ok_inv in Hrun as (rsr & w3 & t3' & t4 & Hl2 & Hrun & ->).
  rewrite sim_load_rsr in Hl2. injection Hl2 as <- <- <-.
  apply bind_ok_inv in Hrun as ([] & w4 & t4' & t5 & Hchk & Hrun & ->).
  apply rsr_check_sim_inv in Hchk as (v & -> & _).
  rewrite call_cb_bind in Hrun. destruct (cb (wrap16 addr) c) as [res c1].
  destruct res as [b0 |]; cbn [option_map] in Hrun.
  - destruct (bind _ _ _) as [[r5 w5] t6] eqn:Hk in Hrun.
    injection Hrun as -> -> <-.
    apply bind_ok_inv in Hk as ([] & w6 & t6' & t7 & Hst & Hk & ->).
    rewrite sim_store_bsc in Hst by (vm_compute; split; congruence).
    injection Hst as <- <-.
    apply bind_ok_inv in Hk as (o' & w7 & t7' & t8 & Hinc & Hk & ->).
    apply incr_int_ok_inv in Hinc as (-> & -> & -> & _).
    apply IH in Hk as (s' & cn' & -> & Hrx & Hms).
    destruct (sim_store_dr_rx (wrap32 (wrap8 b0)) (sim_with_rsr v s))
      as [Hrx1 Hms1].
    exists s', cn'. split; [reflexivity |].
    split; [exact (eq_trans Hrx Hrx1) | exact (eq_trans Hms Hms1)].
  - injection Hrun as <- <- <-. exists (sim_with_rsr v s), cn1. auto.
Qed.

Lemma write_serve_sim_waits ifuel fuel :
  forall addr offset c fd g s cn,
    sim_rx s = [] -> no_write (sim_master s) = true ->
    forall a,
      fst (fst (write_serve cb ifuel fuel addr offset c
                  (mkWorld fd (Mapped WIN_BSC) g s cn))) <> Ok a.
Proof.
  induction fuel as [| fuel IH]; intros addr offset c fd g s cn Hrx Hnw a;
    [discriminate |].
  destruct (write_serve cb ifuel (S fuel) addr offset c _)
    as [[r w'] tr] eqn:Hrun.
  cbn [fst]. intros ->. cbn [write_serve] in Hrun.
  apply bind_ok_inv in Hrun as (fr & w1 & t1 & t2 & Hload & Hrun & ->).
  rewrite sim_load_fr in Hload. injection Hload as <- <- <-.
  rewrite sim_rx_empty_test, Hrx in Hrun. cbn [is_nil negb] in Hrun.
  apply bind_ok_inv in Hrun as ([] & w2 & t2' & t3 & Htc & Hrun & ->).
  apply testcancel_ok_inv in Htc as (cn1 & -> & -> & _).
  apply bind_ok_inv in Hrun
    as ([[a1 o1] c1] & w3 & t3' & t4 & Hfill & Hrun & ->).
  apply write_fill_sim_rx in Hfill as (s1 & cn2 & -> & Hrx1 & Hms1).
  apply bind_ok_inv in Hrun as ([] & w4 & t4' & t5 & Hsl & Hrun & ->).
  injection Hsl as <- <-.
  rewrite <- Hms1 in Hnw.
  destruct (sim_usleep_no_write WRITE_USLEEP_INTERVAL s1 Hnw) as [Hrx2 Hnw2].
  refine (IH a1 o1 c1 fd g _ cn2 _ Hnw2 a _).
  - rewrite Hrx2, Hrx1. exact Hrx.
  - unfold usleep, set_hw in Hrun. cbn [hw mem_fd bsc gpio_reg cancel_after] in Hrun.
    rewrite Hrun. reflexivity.
Qed.

(** X16.  On the simulated peripheral, with the BSC window mapped, the RX
    FIFO empty and a master that never writes, [bsc_i2c_write] does not
    return, whatever the callback does and however much fuel the loops are
    given: the run is still in its loops when the fuel ends, unless the
    thread was cancelled or the byte count overflowed. *)
Theorem bsc_i2c_write_waits_for_master fuel addr c (w : world sim) :
  bsc w = Mapped WIN_BSC ->
  sim_rx (hw w) = [] -> no_write (sim_master (hw w)) = true ->
  forall n c', fst (fst (bsc_i2c_write cb fuel addr c w)) <> Ok (n, c').
Proof.
  intros Hb Hrx Hnw n c'. destruct w as [fd b g s cn]. cbn [bsc hw] in *. subst b.
  destruct (bsc_i2c_write cb fuel addr c _) as [[r w'] tr] eqn:Hrun.
  cbn [fst]. intros ->.
  destruct (bsc_i2c_write_ok_inv _ _ _ _ _ _ _ _ _ Hrun)
    as (w0 & addr' & offset & w1 & t_fill & win & fr & w2 & t_flush
        & Htc & Hserve & _).
  apply testcancel_ok_inv in Htc as (cn0 & -> & _ & _).
  apply (write_serve_sim_waits fuel fuel addr 0 c fd g s cn0 Hrx Hnw
           (addr', offset, c')).
  rewrite Hserve. reflexivity.
Qed.
End Waiting.

(** The theorem applied to a board whose master only reads. *)
Lemma bsc_i2c_write_waits_for_master_witness :
  fst (fst (bsc_i2c_write (table_cb [1; 2]) 10 0 tt
              (sim_board [MasterRead; MasterIdle; MasterRead])))
  = OutOfFuel
  /\ forall n c',
       fst (fst (bsc_i2c_write (table_cb [1; 2]) 10 0 tt
                   (sim_board [MasterRead; MasterIdle; MasterRead])))
       <> Ok (n, c').
Proof.
  split; [vm_compute; reflexivity |].
  apply (bsc_i2c_write_waits_for_master (table_cb [1; 2]) 10 0 tt
           (sim_board [MasterRead; MasterIdle; MasterRead]));
    vm_compute; reflexivity.
Defined.

Lemma no_sleep_nil : no_sleep [].
Proof. constructor. Qed.

Lemma write_flush_loop_no_sleep {H} `{!Bus H} fuel :
  traced (fun _ => no_sleep) (@write_flush_loop H _ fuel).
Proof.
  induction fuel as [| fuel IH]; cbn [write_flush_loop];
    repeat traced_step (fun _ : ptr => no_sleep_nil)
                       (fun _ : ptr => no_sleep_app)
                       ltac:(cbv beta; repeat constructor).
  exact IH.
Qed.

Section MasterSending.
Context {C : Type} (cb : Z -> C -> option Z * C).

(** With a byte in the RX FIFO the outer loop ends at its first test. *)
Lemma write_serve_sim_exit ifuel fuel addr offset c fd g s cn :
  sim_rx s <> [] ->
  write_serve cb ifuel (S fuel) addr offset c (mkWorld fd (Mapped WIN_BSC) g s cn)
  = (Ok (addr, offset, c), mkWorld fd (Mapped WIN_BSC) g s cn,
     [EvLoad WIN_BSC BSC_FR (wrap32 (sim_fr s))]).
Proof.
  intros Hrx. cbn [write_serve]. unfold bind at 1.
  rewrite sim_load_fr, sim_rx_empty_test.
  destruct (sim_rx s); [contradiction | reflexivity].
Qed.

(** X17.  On the simulated peripheral, with the BSC window mapped, if the
    RX FIFO already holds a byte when [bsc_i2c_write] is called (the master
    is writing), no cancellation is due and the fuel exceeds the TX FIFO
    level, the call returns 0 without invoking the callback and without
    sleeping; it has only flushed the TX FIFO, and the RX FIFO is as it
    was. *)
Theorem bsc_i2c_write_master_sending fuel addr c (w : world sim) :
  bsc w = Mapped WIN_BSC ->
  sim_rx (hw w) <> [] -> cancel_after w <> Some O ->
  (length (sim_tx (hw w)) < fuel)%nat ->
  exists w' tr,
    bsc_i2c_write cb fuel addr c w = (Ok (0, c), w', tr)
    /\ cbs tr = [] /\ no_sleep tr
    /\ sim_rx (hw w') = sim_rx (hw w)
    /\ sim_tx (hw w') = [] /\ sim_staged (hw w') = None.
Proof.
  intros Hb Hrx Hc Hfuel. destruct w as [fd b g s cn].
  cbn [bsc hw cancel_after] in *. subst b.
  destruct fuel as [| f]; [lia |].
  unfold bsc_i2c_write. rewrite bind_testcancel. cbv beta.
  set (rest := bind (write_serve cb (S f) (S f) addr 0 c) _).
  assert (Hrest : forall c1, exists w' tr,
    rest (mkWorld fd (Mapped WIN_BSC) g s c1) = (Ok (0, c), w', tr)
    /\ cbs tr = [] /\ no_sleep tr
    /\ sim_rx (hw w') = sim_rx s
    /\ sim_tx (hw w') = [] /\ sim_staged (hw w') = None).
  { intros c1. subst rest.
    destruct (write_flush_loop_sim (S f) fd g s c1 Hfuel)
      as (s' & trl & Hloop & Htx & Hrx' & _).
    destruct (quiet_write_flush_loop _ _ _ _ _ Hloop) as [Hq _].
    destruct (write_flush_loop_no_sleep _ _ _ _ _ Hloop) as [Hns _].
    erewrite bind_ok by (apply write_serve_sim_exit; exact Hrx).
    cbv beta iota.
    erewrite bind_ok by apply sim_load_fr. cbv beta iota.
    erewrite bind_ok
      by (unfold write_flush; erewrite bind_ok by exact Hloop; cbv beta iota;
          rewrite txe_toggle_sim; reflexivity).
    cbv beta iota. unfold ret.
    rewrite write_ret_exact by (unfold INT_MAX; lia).
    pose proof (txflevel_range (wrap32 (sim_fr s))) as Hlv.
    destruct (Z.ltb_spec (0 - txflevel (wrap32 (sim_fr s)) - 1) 0); [| lia].
    eexists _, _. split; [reflexivity |].
    cbn [hw sim_stage sim_with_cr sim_rx sim_tx sim_staged].
    rewrite Htx.
    split; [| split; [| split; [exact Hrx' | split; reflexivity]]].
    - rewrite cbs_app in Hq. apply app_eq_nil in Hq as [Hq _].
      rewrite !cbs_app, Hq. reflexivity.
    - apply Forall_app in Hns as [Hns _].
      repeat apply no_sleep_app; try exact Hns; repeat constructor. }
  destruct cn as [[| m] |]; [congruence | |].
  - destruct (Hrest (Some m)) as (w' & tr & Hrun & Hcbs & Hns & Hst).
    rewrite Hrun. exists w', (EvTestCancel :: tr). split; [reflexivity |].
    split; [exact Hcbs |]. split; [constructor; [reflexivity | exact Hns] |].
    exact Hst.
  - destruct (Hrest None) as (w' & tr & Hrun & Hcbs & Hns & Hst).
    rewrite Hrun. exists w', (EvTestCancel :: tr). split; [reflexivity |].
    split; [exact Hcbs |]. split; [constructor; [reflexivity | exact Hns] |].
    exact Hst.
Qed.
End MasterSending.

(** The theorem applied to a board whose RX FIFO holds a byte and whose TX
    FIFO holds two left-over bytes. *)
Lemma bsc_i2c_write_master_sending_witness :
  exists w' tr,
    bsc_i2c_write (table_cb [1; 2]) 5 0 tt
      (world_mapped (mkSim [9] [1; 2] (Some 0) 0x305 0
                       (fun _ => 0) (fun _ => 0) [] []))
    = (Ok (0, tt), w', tr)
    /\ cbs tr = [] /\ sim_tx (hw w') = [].
Proof.
  destruct (bsc_i2c_write_master_sending (table_cb [1; 2]) 5 0 tt
              (world_mapped (mkSim [9] [1; 2] (Some 0) 0x305 0
                               (fun _ => 0) (fun _ => 0) [] []))
              eq_refl ltac:(simpl; discriminate) ltac:(simpl; discriminate)
              ltac:(simpl; lia))
    as (w' & tr & Hrun & Hcbs & _ & _ & Htx & _).
  exists w', tr. split; [exact Hrun |]. split; [exact Hcbs | exact Htx].
Defined.

(** ** [bsc_i2c_write] returns once the master has written *)

Lemma rsr_check_sim rsr flag msg fd g s c :
  exists v t,
    (if Z.land rsr flag =? 0 then ret tt
     else bind (diag msg) (fun _ => rsr_clear flag))
      (mkWorld fd (Mapped WIN_BSC) g s c)
    = (Ok tt, mkWorld fd (Mapped WIN_BSC) g (sim_with_rsr v s) c, t).
Proof.
  destruct (Z.land rsr flag =? 0).
  - exists (sim_rsr s), []. destruct s. reflexivity.
  - unfold diag, rsr_clear, emit.
    erewrite bind_ok by reflexivity. cbv beta iota.
    erewrite bind_ok by apply sim_load_rsr. cbv beta iota.
    rewrite sim_store_bsc by (vm_compute; split; congruence).
    eexists _, _. reflexivity.
Qed.

Lemma sim_store_dr_room s v :
  tx_live s -> (length (sim_tx s) < 16)%nat ->
  S (room (sim_store WIN_BSC BSC_DR v s)) = room s.
Proof.
  destruct s as [rx tx st cr rsr regs gp ms sent].
  unfold tx_live, room, sim_store. cbn [sim_tx sim_staged sim_cr].
  intros (Hcr & Hst & Hlen) Hroom.
  change (BSC_DR =? BSC_DR) with true. cbv iota.
  destruct (Z.ltb_spec (Z.of_nat (length tx)) FIFO_LEN) as [_ | Hfull];
    [| unfold FIFO_LEN in Hfull; lia].
  destruct st as [b |].
  - cbn [sim_tx sim_staged]. rewrite length_app. simpl. lia.
  - rewrite Hcr. rewrite (Hst eq_refl). reflexivity.
Qed.

Lemma sim_usleep_master us s a m :
  sim_master s = a :: m -> sim_master (sim_usleep us s) = m.
Proof.
  destruct s as [rx tx st cr rsr regs gp ms sent]. unfold sim_usleep.
  cbn [sim_master sim_staged sim_rx]. intros ->.
  destruct a as [| b |]; [destruct st | destruct (_ <? _) |]; reflexivity.
Qed.

Lemma sim_usleep_write us s b m :
  sim_master s = MasterWrite b :: m -> sim_rx s = [] ->
  sim_rx (sim_usleep us s) <> [].
Proof.
  destruct s as [rx tx st cr rsr regs gp ms sent]. unfold sim_usleep.
  cbn [sim_master sim_staged sim_rx]. intros -> ->. simpl. discriminate.
Qed.

Section Returns.
Context {C : Type} (cb : Z -> C -> option Z * C).

(** The inner loop ends: within [room s] + 1 iterations the TX FIFO is
    full or the callback has nothing more. *)
Lemma write_fill_sim_returns fuel :
  forall addr offset c fd g s,
    tx_live s -> (room s < fuel)%nat ->
    offset + Z.of_nat (room s) <= INT_MAX ->
    exists a s' tr,
      write_fill cb fuel addr offset c (mkWorld fd (Mapped WIN_BSC) g s None)
      = (Ok a, mkWorld fd (Mapped WIN_BSC) g s' None, tr)
      /\ snd (fst a) <= offset + Z.of_nat (room s).
Proof.
  induction fuel as [| fuel IH]; intros addr offset c fd g s Hlive Hfuel Hoff;
    [lia |].
  cbn [write_fill].
  erewrite bind_ok by apply sim_load_fr. cbv beta iota.
  rewrite sim_tx_full_test.
  destruct (Z.leb_spec FIFO_LEN (Z.of_nat (length (sim_tx s)))) as [Hfull | Hroom];
    cbn [negb].
  { unfold ret. eexists _, _, _. split; [reflexivity |]. simpl. lia. }
  erewrite bind_ok by reflexivity. cbv beta iota.
  erewrite bind_ok by apply sim_load_rsr. cbv beta iota.
  destruct (rsr_check_sim (wrap32 (sim_rsr s)) RSR_UE "pi2cslave: Underrun!"
              fd g s None) as (v & t & Hchk).
  erewrite bind_ok by exact Hchk. cbv beta iota.
  rewrite call_cb_bind. destruct (cb (wrap16 addr) c) as [res c1].
  destruct res as [b0 |]; cbn [option_map].
  - assert (Hlen : (length (sim_tx s) < 16)%nat)
      by (unfold FIFO_LEN in Hroom; lia).
    pose proof (sim_store_dr_room (sim_with_rsr v s) (wrap32 (wrap8 b0))
                  Hlive Hlen) as Hr.
    change (room (sim_with_rsr v s)) with (room s) in Hr.
    destruct (sim_store_dr_fed (sim_with_rsr v s) (wrap32 (wrap8 b0))
                Hlive Hlen) as ((_ & _ & Hlive2) & _).
    erewrite bind_ok by (apply sim_store_bsc; vm_compute; split; congruence).
    cbv beta iota. unfold incr_int.
    destruct (Z.ltb_spec offset INT_MAX); [| lia].
    erewrite bind_ok by reflexivity. cbv beta iota.
    destruct (IH (wrap16 (addr + 1)) (offset + 1) c1 fd g
                (sim_store WIN_BSC BSC_DR (wrap32 (wrap8 b0)) (sim_with_rsr v s))
                Hlive2 ltac:(lia) ltac:(lia))
      as (a & s' & tr & Hrun & Ha).
    rewrite Hrun. eexists _, _, _. split; [reflexivity | lia].
  - unfold ret. eexists _, _, _. split; [reflexivity |]. simpl. lia.
Qed.

(** The outer loop ends at the first test after the master's write. *)
Lemma write_serve_sim_returns pre :
  no_write pre = true ->
  forall fuel ifuel addr offset c fd g s b rest,
    sim_master s = pre ++ MasterWrite b :: rest ->
    tx_live s ->
    (length pre + 1 < fuel)%nat -> (17 < ifuel)%nat ->
    offset + 17 * (Z.of_nat (length pre) + 1) <= INT_MAX ->
    exists a s' tr,
      write_serve cb ifuel fuel addr offset c (mkWorld fd (Mapped WIN_BSC) g s None)
      = (Ok a, mkWorld fd (Mapped WIN_BSC) g s' None, tr)
      /\ tx_live s' /\ sim_rx s' <> [].
Proof.
  induction pre as [| act pre IH]; intros Hnw fuel ifuel addr offset c fd g s b
    rest Hms Hlive Hfuel Hifuel Hoff.
  all: destruct fuel as [| fuel]; [simpl in Hfuel; lia |].
  all: destruct (sim_rx s) as [| x rx] eqn:Hrx;
    [| exists (addr, offset, c), s; eexists;
       split; [| split; [exact Hlive | rewrite Hrx; discriminate]];
       apply write_serve_sim_exit; rewrite Hrx; discriminate].
  all: cbn [write_serve].
  all: erewrite bind_ok by apply sim_load_fr; cbv beta iota.
  all: rewrite sim_rx_empty_test, Hrx; cbn [is_nil negb].
  all: erewrite bind_ok by reflexivity; cbv beta iota.
  all: assert (Hroom : (room s <= 17)%nat)
    by (unfold room; destruct (sim_staged s); lia).
  all: destruct (write_fill_sim_returns ifuel addr offset c fd g s Hlive
                   ltac:(lia) ltac:(simpl length in Hoff; lia))
    as ([[a1 o1] c1] & s1 & tr1 & Hfill & Ho1); cbn [fst snd] in Ho1.
  all: destruct (write_fill_sim cb _ _ _ _ _ _ _ _ _ _ _ Hfill Hlive)
    as (s1' & cn' & Hw & (_ & _ & Hlive1) & Hrx1 & Hms1 & _).
  all: injection Hw as <- _.
  all: erewrite bind_ok by exact Hfill; cbv beta iota.
  all: erewrite bind_ok by reflexivity; cbv beta iota.
  all: unfold set_hw; cbn [mem_fd bsc gpio_reg hw cancel_after bus_usleep sim_bus].
  all: pose proof (sim_usleep_fed WRITE_USLEEP_INTERVAL s1 Hlive1)
    as (_ & _ & Hlive2).
  all: rewrite Hms in Hms1.
  - destruct fuel as [| fuel]; [simpl in Hfuel; lia |].
    assert (Hrx2 : sim_rx (sim_usleep WRITE_USLEEP_INTERVAL s1) <> [])
      by (apply (sim_usleep_write _ _ b rest); [exact Hms1 | congruence]).
    rewrite write_serve_sim_exit by exact Hrx2.
    eexists _, _, _. split; [reflexivity | split; [exact Hlive2 | exact Hrx2]].
  - simpl in Hnw. apply andb_true_iff in Hnw as [_ Hnw].
    destruct (IH Hnw fuel ifuel a1 o1 c1 fd g
                (sim_usleep WRITE_USLEEP_INTERVAL s1) b rest)
      as (a & s' & tr & Hrun & Hlive');
      [apply (sim_usleep_master _ _ act); exact Hms1 | exact Hlive2
       | simpl in Hfuel; lia | exact Hifuel | simpl length in Hoff; lia |].
    rewrite Hrun. eexists _, _, _. split; [reflexivity | exact Hlive'].
Qed.
End Returns.

Section ReturnsAfterWrite.
Context {C : Type} (cb : Z -> C -> option Z * C).

(** X18.  On the simulated peripheral, with the BSC window mapped, transmit
    enabled, the transmitter idle and no cancellation requested, if the
    master's script has a write after [length pre] other actions, then
    [bsc_i2c_write] returns, whatever the callback does, as soon as the
    fuel exceeds 17 (one more than the inner loop can need) and the number
    of actions up to and including that write, provided 17 times that
    number stays within [INT_MAX] (the byte count cannot overflow); when it
    returns the RX FIFO is not empty, and the TX FIFO is empty. *)
Theorem bsc_i2c_write_returns fuel addr c (w : world sim) pre b rest :
  bsc w = Mapped WIN_BSC -> cancel_after w = None ->
  txe_on (sim_cr (hw w)) = true ->
  sim_tx (hw w) = [] -> sim_staged (hw w) = None ->
  sim_master (hw w) = pre ++ MasterWrite b :: rest -> no_write pre = true ->
  (17 < fuel)%nat -> (length pre + 1 < fuel)%nat ->
  17 * (Z.of_nat (length pre) + 1) <= INT_MAX ->
  exists n c' w' tr,
    bsc_i2c_write cb fuel addr c w = (Ok (n, c'), w', tr)
    /\ sim_rx (hw w') <> [] /\ sim_tx (hw w') = [].
Proof.
  intros Hb Hc Htxe Htx Hst Hms Hnw Hfuel Hpre Hoff.
  destruct w as [fd p g s cn]. cbn [bsc hw cancel_after] in *. subst p cn.
  assert (Hlive : tx_live s).
  { split; [exact Htxe |]. split; [intros _; exact Htx |].
    rewrite Htx. simpl. lia. }
  destruct (write_serve_sim_returns cb pre Hnw fuel fuel addr 0 c fd g s b rest
              Hms Hlive Hpre Hfuel ltac:(lia))
    as ([[a1 o1] c1] & s1 & tr1 & Hserve & (_ & _ & Hlen1) & Hrx1).
  destruct (write_flush_loop_sim fuel fd g s1 None ltac:(lia))
    as (s2 & trl & Hloop & Htx2 & Hrx2 & _).
  unfold bsc_i2c_write.
  erewrite bind_ok by reflexivity. cbv beta iota.
  erewrite bind_ok by exact Hserve. cbv beta iota.
  erewrite bind_ok by apply sim_load_fr. cbv beta iota.
  erewrite bind_ok
    by (unfold write_flush; erewrite bind_ok by exact Hloop; cbv beta iota;
        rewrite txe_toggle_sim; reflexivity).
  cbv beta iota. unfold ret. eexists _, _, _, _. split; [reflexivity |].
  cbn [hw sim_stage sim_with_cr sim_rx sim_tx]. rewrite Hrx2, Htx2.
  split; [exact Hrx1 | reflexivity].
Qed.
End ReturnsAfterWrite.

(** The theorem applied to a board whose master reads twice and then
    writes. *)
Lemma bsc_i2c_write_returns_witness :
  exists n c' w' tr,
    bsc_i2c_write (table_cb [1; 2; 3]) 18 0 tt
      (world_mapped (mkSim [] [] None 0x305 0 (fun _ => 0) (fun _ => 0)
                       [MasterRead; MasterRead; MasterWrite 7; MasterRead] []))
    = (Ok (n, c'), w', tr)
    /\ sim_rx (hw w') <> [] /\ sim_tx (hw w') = [].
Proof.
  apply (bsc_i2c_write_returns (table_cb [1; 2; 3]) 18 0 tt
           (world_mapped (mkSim [] [] None 0x305 0 (fun _ => 0) (fun _ => 0)
                            [MasterRead; MasterRead; MasterWrite 7; MasterRead] []))
           [MasterRead; MasterRead] 7 [MasterRead]);
    try reflexivity; simpl; unfold INT_MAX; lia.
Defined.

(** ** The failure paths of [init_bcm_reg_mem] *)

Section MappingFailure.
Context {H : Type} `{!Bus H}.

Implicit Types w : world H.

(** X19.  When [init_bcm_reg_mem] returns false, either open(2) failed, and
    then nothing else was called, the failure was reported and the pointers
    are as they were; or mmap gave a null pointer for the BSC window, and
    then the failure was reported, the descriptor was closed and the GPIO
    window was never mapped.  In the second case [mem_fd] still holds the
    descriptor that was closed, so that a later [shutdown_bcm_reg_mem]
    closes it a second time. *)
Theorem init_bcm_reg_mem_false_run (sys : os) w :
  fst (fst (init_bcm_reg_mem sys w)) = Ok false ->
  (os_open sys < 0
   /\ init_bcm_reg_mem sys w
      = (Ok false, set_mem_fd (os_open sys) w,
         [EvOpen (os_open sys); EvDiag "pi2cslave: Unable to open /dev/mem"]))
  \/ (0 <= os_open sys
      /\ os_mmap sys BSC_LEN BSC_BASE = NULL
      /\ init_bcm_reg_mem sys w
         = (Ok false, set_bsc NULL (set_mem_fd (os_open sys) w),
            [EvOpen (os_open sys); EvMmap BSC_LEN BSC_BASE NULL;
             EvDiag "pi2cslave: Unable to mmap BSC memory";
             EvClose (os_open sys)])
      /\ snd (shutdown_bcm_reg_mem (snd (fst (init_bcm_reg_mem sys w))))
         = (if is_null (gpio_reg w) then [] else [EvMunmap (gpio_reg w) GPIO_LEN])
           ++ [EvClose (os_open sys)]).
Proof.
  destruct w as [fd b g h c]. rewrite shutdown_bcm_reg_mem_run.
  unfold init_bcm_reg_mem, bind, modify, emit, get, do_mmap, diag, ret,
    release_calls, set_bsc, set_mem_fd.
  simpl. destruct (Z.ltb_spec (os_open sys) 0) as [Hneg | Hpos]; simpl.
  - intros _. left. split; [exact Hneg | reflexivity].
  - destruct (os_mmap sys BSC_LEN BSC_BASE) eqn:Hmap; simpl; try discriminate.
    intros _. right. split; [exact Hpos |]. split; [reflexivity |].
    split; [reflexivity |].
    destruct (Z.leb_spec 0 (os_open sys)); [reflexivity | lia].
Qed.

(** X20.  Whatever open(2) and mmap(2) return, [init_bcm_reg_mem] calls
    nothing but open, mmap and close and reports nothing but a failed open
    or a failed BSC mapping: it never unmaps a window and never reports a
    failed GPIO mapping; it accesses no register, and it always returns. *)
Theorem init_bcm_reg_mem_events (sys : os) w :
  Forall (fun e => init_event e = true) (snd (init_bcm_reg_mem sys w))
  /\ hw (snd (fst (init_bcm_reg_mem sys w))) = hw w
  /\ exists r, fst (fst (init_bcm_reg_mem sys w)) = Ok r.
Proof.
  destruct w as [fd b g h c].
  unfold init_bcm_reg_mem, bind, modify, emit, get, do_mmap, diag, ret.
  simpl. destruct (os_open sys <? 0); simpl.
  - split; [repeat constructor | split; [reflexivity | eauto]].
  - destruct (os_mmap sys BSC_LEN BSC_BASE); simpl;
      (split; [repeat constructor | split; [reflexivity | eauto]]).
Qed.
End MappingFailure.

(** The theorem applied to an mmap that gives a null pointer for the BSC
    window. *)
Lemma init_bcm_reg_mem_false_run_witness :
  snd (init_bcm_reg_mem os_bsc_map_null (world_unmapped (sim_reset [])))
  = [EvOpen 3; EvMmap BSC_LEN BSC_BASE NULL;
     EvDiag "pi2cslave: Unable to mmap BSC memory"; EvClose 3]
  /\ snd (shutdown_bcm_reg_mem
            (snd (fst (init_bcm_reg_mem os_bsc_map_null
                         (world_unmapped (sim_reset []))))))
     = [EvClose 3].
Proof.
  destruct (init_bcm_reg_mem_false_run os_bsc_map_null
              (world_unmapped (sim_reset [])) eq_refl)
    as [[Hneg _] | (_ & _ & Hrun & Hshut)].
  - vm_compute in Hneg. discriminate.
  - split; [rewrite Hrun; reflexivity | exact Hshut].
Defined.

(** ** No byte of the callback is lost *)

Lemma dr_matches_nil p : dr_matches p [].
Proof. intros _. reflexivity. Qed.

Lemma dr_matches_app p t1 t2 :
  dr_matches p t1 -> dr_matches p t2 -> dr_matches p (t1 ++ t2).
Proof.
  intros H1 H2 Hp. rewrite dr_stores_app, cbs_app, cb_bytes_app, H1, H2 by exact Hp.
  reflexivity.
Qed.

Ltac dr_ev := intros _; reflexivity.

Section NothingLost.
Context {H : Type} `{!Bus H} {C : Type} (cb : Z -> C -> option Z * C).

(** An invocation of the callback followed, when it produced a byte, by the
    store of that byte to the data register. *)
Lemma traced_cb_store {A} addr c (k : option Z * C -> M H A) :
  (forall b c', exists k1,
      (forall w, k (Some b, c') w = bind (store bsc BSC_DR b) k1 w)
      /\ forall u, traced dr_matches (k1 u)) ->
  (forall c', traced dr_matches (k (None, c'))) ->
  traced dr_matches (bind (call_cb cb addr c) k).
Proof.
  intros Hsome Hnone w r w' tr Hrun.
  rewrite call_cb_bind in Hrun. destruct (cb (wrap16 addr) c) as [res c1].
  destruct res as [b0 |]; cbn [option_map] in Hrun.
  - destruct (Hsome (wrap8 b0) c1) as (k1 & Hk & Hk1). rewrite Hk in Hrun.
    destruct (bind (store bsc BSC_DR (wrap8 b0)) k1 w) as [[r5 w5] t6] eqn:Hb.
    injection Hrun as <- <- <-.
    apply bind_inv in Hb
      as [([] & w1 & t1 & t2 & Hst & Hrest & ->) | (r1 & Hst & Hn & ->)].
    + apply store_ok_inv in Hst as (win & h & Hp & -> & ->).
      destruct (Hk1 tt _ _ _ _ Hrest) as [HP Hbsc]. split; [| exact Hbsc].
      intros Hmap. cbn [app dr_stores cbs cb_bytes].
      change (BSC_DR =? BSC_DR) with true. cbv iota.
      rewrite wrap32_wrap8. f_equal. apply HP. exact Hmap.
    + split.
      * intros [win Hmap].
        rewrite (store_mapped _ _ _ _ win Hmap) in Hst
          by (vm_compute; split; congruence).
        injection Hst as <- _ _. destruct Hn.
      * intros a Ha. destruct r1; simpl in *; try discriminate; contradiction.
  - destruct (k (None, c1) w) as [[r5 w5] t6] eqn:Hk. injection Hrun as <- <- <-.
    destruct (Hnone c1 _ _ _ _ Hk) as [HP Hbsc]. split; [| exact Hbsc].
    intros Hmap. cbn [dr_stores cbs cb_bytes]. apply HP. exact Hmap.
Qed.

Ltac dr_go :=
  repeat first
    [ match goal with
      | |- traced _ (bind (call_cb _ _ _) _) =>
          apply traced_cb_store;
          [ intros ? ?; eexists; split;
            [intros ?; reflexivity | intros ?; cbv beta]
          | intros ?; cbv beta iota ]
      end
    | traced_step dr_matches_nil dr_matches_app dr_ev ].

Lemma write_fill_dr fuel : forall addr offset c,
  traced dr_matches (write_fill cb fuel addr offset c).
Proof.
  induction fuel as [| fuel IH]; intros addr offset c; cbn [write_fill]; dr_go.
  apply IH.
Qed.

Lemma write_serve_dr ifuel fuel : forall addr offset c,
  traced dr_matches (write_serve cb ifuel fuel addr offset c).
Proof.
  induction fuel as [| fuel IH]; intros addr offset c; cbn [write_serve];
    dr_go; [apply write_fill_dr | apply IH].
Qed.

Lemma write_flush_dr fuel : traced dr_matches (@write_flush H _ fuel).
Proof.
  unfold write_flush. dr_go.
  induction fuel as [| fuel IH]; cbn [write_flush_loop]; dr_go. exact IH.
Qed.

(** X21.  With [bsc] pointing to a mapped window, in every run of
    [bsc_i2c_write], however it ends (returned, cancelled, faulted, out of
    fuel), the bytes stored to the data register are exactly the bytes the
    callback produced, in the same order: a byte the callback has handed
    over is never dropped, and nothing else is ever queued. *)
Theorem bsc_i2c_write_queues_always fuel addr c (w : world H) win :
  bsc w = Mapped win ->
  dr_stores (snd (bsc_i2c_write cb fuel addr c w))
  = cb_bytes (cbs (snd (bsc_i2c_write cb fuel addr c w))).
Proof.
  intros Hb.
  destruct (bsc_i2c_write cb fuel addr c w) as [[r w'] tr] eqn:Hrun.
  assert (Ht : traced dr_matches (bsc_i2c_write cb fuel addr c)).
  { unfold bsc_i2c_write. dr_go.
    - apply write_serve_dr.
    - apply write_flush_dr. }
  apply (proj1 (Ht _ _ _ _ Hrun)). exists win. exact Hb.
Qed.
End NothingLost.

(** The theorem applied to a run that is cancelled at its fifth
    cancellation point, after two bytes were queued. *)
Lemma bsc_i2c_write_queues_always_witness :
  fst (fst (bsc_i2c_write (table_cb [1; 2; 3]) 10 0 tt
              (set_cancel_after (Some 4%nat) (sim_board [])))) = Cancelled
  /\ dr_stores (snd (bsc_i2c_write (table_cb [1; 2; 3]) 10 0 tt
                       (set_cancel_after (Some 4%nat) (sim_board []))))
     = cb_bytes (cbs (snd (bsc_i2c_write (table_cb [1; 2; 3]) 10 0 tt
                             (set_cancel_after (Some 4%nat) (sim_board []))))).
Proof.
  split; [reflexivity |].
  apply (bsc_i2c_write_queues_always (table_cb [1; 2; 3]) 10 0 tt
           (set_cancel_after (Some 4%nat) (sim_board [])) WIN_BSC).
  reflexivity.
Defined.

Lemma sim_store_dr_cr v s : sim_cr (sim_store WIN_BSC BSC_DR v s) = sim_cr s.
Proof.
  unfold sim_store. change (BSC_DR =? BSC_DR) with true. cbv iota.
  destruct (sim_staged s); [| destruct (txe_on (sim_cr s))]; reflexivity.
Qed.

Lemma sim_usleep_cr us s : sim_cr (sim_usleep us s) = sim_cr s.
Proof.
  unfold sim_usleep. destruct (sim_master s) as [| [| b |] m]; try reflexivity.
  - destruct (sim_staged s); reflexivity.
  - destruct (_ <? _); reflexivity.
Qed.

(** ** The control register across [bsc_i2c_write] *)

(** The value a toggle leaves in the control register: transmit enable
    set, every other bit as it was. *)
Lemma testbit_cr_on cr i :
  Z.testbit (cr_on cr) i = (i =? 8) || Z.testbit (wrap32 cr) i.
Proof.
  unfold cr_on. change CR_TXE with (wrap32 (Z.shiftl 1 8)).
  rewrite testbit_set_bit by (try lia; symmetry; apply wrap32_idem).
  unfold cr_off, CR_TXE. rewrite wrap32_idem.
  rewrite testbit_clear_bit by (try lia; symmetry; apply wrap32_idem).
  destruct (i =? 8); reflexivity.
Qed.

Lemma wrap32_cr_on cr : wrap32 (cr_on cr) = cr_on cr.
Proof. unfold cr_on. apply wrap32_idem. Qed.

Section Frame.
Context {C : Type} (cb : Z -> C -> option Z * C).
Context {X : Type} (f : sim -> X).
Hypothesis f_dr : forall v s, f (sim_store WIN_BSC BSC_DR v s) = f s.
Hypothesis f_rsr : forall v s, f (sim_with_rsr v s) = f s.
Hypothesis f_usleep : forall us s, f (sim_usleep us s) = f s.

(** What neither a store to the data register, nor a change of the status
    register, nor the master's turn changes, the filling loops leave as it
    was. *)
Lemma write_fill_sim_frame fuel :
  forall addr offset c fd g s cn a w' tr,
    write_fill cb fuel addr offset c (mkWorld fd (Mapped WIN_BSC) g s cn)
    = (Ok a, w', tr) ->
    exists s' cn', w' = mkWorld fd (Mapped WIN_BSC) g s' cn' /\ f s' = f s.
Proof.
  induction fuel as [| fuel IH]; intros addr offset c fd g s cn a w' tr;
    [discriminate |].
  cbn [write_fill]. intros Hrun.
  apply bind_ok_inv in Hrun as (fr & w1 & t1 & t2 & Hload & Hrun & ->).
  rewrite sim_load_fr in Hload. injection Hload as <- <- <-.
  destruct (Z.land (wrap32 (sim_fr s)) FR_TXFF =? 0).
  2:{ injection Hrun as <- <- <-. exists s, cn. auto. }
  apply bind_ok_inv in Hrun as ([] & w2 & t2' & t3 & Htc & Hrun & ->).
  apply testcancel_ok_inv in Htc as (cn1 & -> & -> & Hcn1).
  apply bind_ok_inv in Hrun as (rsr & w3 & t3' & t4 & Hl2 & Hrun & ->).
  rewrite sim_load_rsr in Hl2. injection Hl2 as <- <- <-.
  apply bind_ok_inv in Hrun as ([] & w4 & t4' & t5 & Hchk & Hrun & ->).
  apply rsr_check_sim_inv in Hchk as (v & -> & _).
  rewrite call_cb_bind in Hrun. destruct (cb (wrap16 addr) c) as [res c1].
  destruct res as [b0 |]; cbn [option_map] in Hrun.
  - destruct (bind _ _ _) as [[r5 w5] t6] eqn:Hk in Hrun.
    injection Hrun as -> -> <-.
    apply bind_ok_inv in Hk as ([] & w6 & t6' & t7 & Hst & Hk & ->).
    rewrite sim_store_bsc in Hst by (vm_compute; split; congruence).
    injection Hst as <- <-.
    apply bind_ok_inv in Hk as (o' & w7 & t7' & t8 & Hinc & Hk & ->).
    apply incr_int_ok_inv in Hinc as (-> & -> & -> & _).
    apply IH in Hk as (s' & cn' & -> & Hf).
    exists s', cn'. split; [reflexivity |].
    rewrite <- (f_rsr v s), <- (f_dr (wrap32 (wrap8 b0)) (sim_with_rsr v s)).
    exact Hf.
  - injection Hrun as <- <- <-. exists (sim_with_rsr v s), cn1.
    split; [reflexivity | apply f_rsr].
Qed.

Lemma write_serve_sim_frame ifuel fuel :
  forall addr offset c fd g s cn a w' tr,
    write_serve cb ifuel fuel addr offset c (mkWorld fd (Mapped WIN_BSC) g s cn)
    = (Ok a, w', tr) ->
    exists s' cn', w' = mkWorld fd (Mapped WIN_BSC) g s' cn' /\ f s' = f s.
Proof.
  induction fuel as [| fuel IH]; intros addr offset c fd g s cn a w' tr;
    [discriminate |].
  cbn [write_serve]. intros Hrun.
  apply bind_ok_inv in Hrun as (fr & w1 & t1 & t2 & Hload & Hrun & ->).
  rewrite sim_load_fr in Hload. injection Hload as <- <- <-.
  destruct (Z.land (wrap32 (sim_fr s)) FR_RXFE =? 0).
  { injection Hrun as <- <- <-. exists s, cn. auto. }
  apply bind_ok_inv in Hrun as ([] & w2 & t2' & t3 & Htc & Hrun & ->).
  apply testcancel_ok_inv in Htc as (cn1 & -> & -> & Hcn1).
  apply bind_ok_inv in Hrun
    as ([[a1 o1] c1] & w3 & t3' & t4 & Hfill & Hrun & ->).
  apply write_fill_sim_frame in Hfill as (s1 & cn2 & -> & Hf1).
  apply bind_ok_inv in Hrun as ([] & w4 & t4' & t5 & Hsl & Hrun & ->).
  injection Hsl as <- <-.
  apply IH in Hrun as (s' & cn' & -> & Hf2).
  exists s', cn'. split; [reflexivity |].
  rewrite <- Hf1, <- (f_usleep WRITE_USLEEP_INTERVAL s1). exact Hf2.
Qed.
End Frame.

Lemma write_flush_loop_sim_cr fuel :
  forall fd g s c w' tr,
    write_flush_loop fuel (mkWorld fd (Mapped WIN_BSC) g s c) = (Ok tt, w', tr) ->
    forall i, i <> 8 ->
      Z.testbit (wrap32 (sim_cr (hw w'))) i = Z.testbit (wrap32 (sim_cr s)) i.
Proof.
  induction fuel as [| fuel IH]; intros fd g s c w' tr; [discriminate |].
  cbn [write_flush_loop]. unfold bind at 1.
  rewrite sim_load_fr. destruct (Z.land (wrap32 (sim_fr s)) FR_TXFE =? 0).
  - unfold bind at 1. rewrite txe_toggle_sim.
    destruct (write_flush_loop fuel _) as [[r2 w2] t2] eqn:Hloop.
    intros [= -> <- _] i Hi.
    rewrite (IH _ _ _ _ _ _ Hloop i Hi).
    cbn [sim_stage sim_with_cr sim_cr]. rewrite wrap32_cr_on, testbit_cr_on.
    destruct (Z.eqb_spec i 8); [contradiction | reflexivity].
  - intros [= <- _] i Hi. reflexivity.
Qed.

Section ControlFrame.
Context {C : Type} (cb : Z -> C -> option Z * C).

(** X22.  On the simulated peripheral, where the control register reads
    back what was stored, a run of [bsc_i2c_write] that returns leaves
    transmit enable (bit 8) set and every other bit of the control
    register as it found it: filling does not touch the register, and the
    flush only toggles transmit enable. *)
Theorem bsc_i2c_write_control_frame fuel addr c (w : world sim) n c' w' tr :
  bsc w = Mapped WIN_BSC ->
  bsc_i2c_write cb fuel addr c w = (Ok (n, c'), w', tr) ->
  forall i,
    Z.testbit (sim_cr (hw w')) i
    = (i =? 8) || Z.testbit (wrap32 (sim_cr (hw w))) i.
Proof.
  intros Hb Hrun i. destruct w as [fd b g s cn]. cbn [bsc hw] in *. subst b.
  destruct (bsc_i2c_write_ok_inv _ _ _ _ _ _ _ _ _ Hrun)
    as (w0 & addr' & offset & w1 & t_fill & win & fr & w2 & t_flush
        & Htc & Hserve & Hload & Hflush & _).
  apply testcancel_ok_inv in Htc as (cn0 & -> & _ & _).
  apply (write_serve_sim_frame cb sim_cr) in Hserve as (s1 & cn1 & -> & Hcr1);
    [| intros v s0; apply sim_store_dr_cr
     | reflexivity
     | intros us s0; apply sim_usleep_cr].
  rewrite sim_load_fr in Hload. injection Hload as _ Hw2 _ _. subst w2.
  unfold write_flush in Hflush.
  apply bind_ok_inv in Hflush as ([] & w3 & t1 & t2 & Hloop & Htog & _).
  pose proof (write_flush_loop_sim_cr _ _ _ _ _ _ _ Hloop) as Hbits.
  apply write_flush_loop_sim_sent in Hloop as (s2 & -> & _).
  rewrite txe_toggle_sim in Htog. injection Htog as <- _.
  cbn [hw sim_stage sim_with_cr sim_cr] in *.
  rewrite testbit_cr_on. destruct (Z.eqb_spec i 8) as [-> | Hi]; [reflexivity |].
  rewrite (Hbits i Hi), Hcr1. reflexivity.
Qed.
End ControlFrame.

(** The theorem applied to a board whose transmit enable is off when
    [bsc_i2c_write] is called: it is on afterwards. *)
Lemma bsc_i2c_write_control_frame_witness :
  sim_cr (hw (snd (fst (bsc_i2c_write (table_cb [1; 2]) 5 0 tt
                          (world_mapped (mkSim [9] [] None 0x205 0
                                           (fun _ => 0) (fun _ => 0) [] []))))))
  = 0x305
  /\ forall i,
       Z.testbit
         (sim_cr (hw (snd (fst (bsc_i2c_write (table_cb [1; 2]) 5 0 tt
                                  (world_mapped (mkSim [9] [] None 0x205 0
                                     (fun _ => 0) (fun _ => 0) [] [])))))))
         i
       = (i =? 8)
         || Z.testbit
              (wrap32 (sim_cr (hw (world_mapped (mkSim [9] [] None 0x205 0
                                     (fun _ => 0) (fun _ => 0) [] [])))))
              i.
Proof.
  split; [vm_compute; reflexivity |].
  apply (bsc_i2c_write_control_frame (table_cb [1; 2]) 5 0 tt
           (world_mapped (mkSim [9] [] None 0x205 0
                            (fun _ => 0) (fun _ => 0) [] []))
           0 tt
           (snd (fst (bsc_i2c_write (table_cb [1; 2]) 5 0 tt
                        (world_mapped (mkSim [9] [] None 0x205 0
                                         (fun _ => 0) (fun _ => 0) [] [])))))
           (snd (bsc_i2c_write (table_cb [1; 2]) 5 0 tt
                   (world_mapped (mkSim [9] [] None 0x205 0
                                    (fun _ => 0) (fun _ => 0) [] [])))));
    vm_compute; reflexivity.
Defined.

(** ** What [bsc_i2c_read_poll] puts in the buffer, on any bus *)

Lemma dr_loads_app t1 t2 : dr_loads (t1 ++ t2) = dr_loads t1 ++ dr_loads t2.
Proof.
  induction t1 as [| e t1 IH]; simpl; [reflexivity |].
  destruct e; try exact IH. destruct (idx =? BSC_DR); simpl; rewrite IH; reflexivity.
Qed.

Section ReadBuffer.
Context {H : Type} `{!Bus H}.

Implicit Types w : world H.

Lemma rsr_check_ok_dr_loads rsr flag msg w u w' t :
  (if Z.land rsr flag =? 0 then ret tt
   else bind (diag msg) (fun _ => rsr_clear flag)) w = (Ok u, w', t) ->
  dr_loads t = [].
Proof.
  destruct (Z.land rsr flag =? 0).
  - intros [= _ _ <-]. reflexivity.
  - unfold diag, rsr_clear, emit. intros Hrun.
    apply bind_ok_inv in Hrun as ([] & w1 & t1 & t2 & [= <- <-] & Hrun & ->).
    apply bind_ok_inv in Hrun as (v & w2 & t2' & t3 & Hl & Hst & ->).
    apply load_ok_inv in Hl as (win & h & _ & _ & -> & _).
    destruct u. apply store_ok_inv in Hst as (win' & h' & _ & _ & ->).
    reflexivity.
Qed.

(** One iteration that returns has loaded the data register once and put
    the low 8 bits of the value at the current position. *)
Lemma read_poll_body_ok_inv buf read w buf' read' w' tr :
  read_poll_body buf read w = (Ok (buf', read'), w', tr) ->
  0 <= read < Z.of_nat (length buf) /\ read' = read + 1
  /\ exists d, dr_loads tr = [d]
               /\ buf' = <[Z.to_nat read := Z.land d 0xFF]> buf.
Proof.
  unfold read_poll_body. intros Hrun.
  apply bind_ok_inv in Hrun as ([] & w1 & t1 & t2 & Htc & Hrun & ->).
  assert (Ht1 : t1 = [EvTestCancel]).
  { revert Htc. unfold testcancel.
    destruct (cancel_after w) as [[| m] |]; intros [= <- <-]; reflexivity. }
  subst t1.
  apply bind_ok_inv in Hrun as (rsr & w2 & t2' & t3 & Hl & Hrun & ->).
  apply load_ok_inv in Hl as (win & h & _ & _ & -> & _).
  apply bind_ok_inv in Hrun as ([] & w3 & t3' & t4 & Hchk & Hrun & ->).
  apply rsr_check_ok_dr_loads in Hchk.
  apply bind_ok_inv in Hrun as (d & w4 & t4' & t5 & Hld & Hrun & ->).
  apply load_ok_inv in Hld as (win' & h' & _ & _ & -> & _).
  apply bind_ok_inv in Hrun as (b1 & w5 & t5' & t6 & Hbuf & Hret & ->).
  unfold buf_store in Hbuf.
  destruct (Z.leb_spec 0 read); [| discriminate].
  destruct (Z.ltb_spec read (Z.of_nat (length buf))); [| discriminate].
  injection Hbuf as <- _ <-. injection Hret as <- <- _ <-.
  split; [lia |]. split; [reflexivity |]. exists d.
  split; [| reflexivity].
  cbn [app dr_loads]. change (BSC_RSR =? BSC_DR) with false. cbv iota.
  rewrite dr_loads_app, Hchk. reflexivity.
Qed.

Lemma read_poll_loop_ok_inv n :
  forall buf read w buf' read' w' tr,
    read_poll_loop n buf read w = (Ok (buf', read'), w', tr) ->
    0 <= read ->
    buf' = take (Z.to_nat read) buf
           ++ ((fun d => Z.land d 0xFF) <$> dr_loads tr)
           ++ drop (Z.to_nat read + length (dr_loads tr)) buf
    /\ length buf' = length buf
    /\ read' = read + Z.of_nat (length (dr_loads tr))
    /\ (length (dr_loads tr) <= n)%nat.
Proof.
  induction n as [| n IH]; intros buf read w buf' read' w' tr.
  - intros [= <- <- _ <-] _. simpl. rewrite Nat.add_0_r, take_drop.
    repeat split; lia.
  - cbn [read_poll_loop]. intros Hrun Hread.
    apply bind_ok_inv in Hrun as (fr & w1 & t1 & t2 & Hl & Hrun & ->).
    apply load_ok_inv in Hl as (win & h & _ & _ & -> & _).
    cbn [app dr_loads]. change (BSC_FR =? BSC_DR) with false. cbv iota.
    destruct (Z.land fr FR_RXFE =? 0).
    + apply bind_ok_inv in Hrun
        as ([buf1 read1] & w2 & t2' & t3 & Hbody & Hloop & ->).
      apply read_poll_body_ok_inv in Hbody
        as (Hrange & -> & d & Hd & ->).
      apply IH in Hloop as (Hbuf & Hlen & Hcount & Hn); [| lia].
      rewrite length_insert in Hlen. rewrite dr_loads_app, Hd.
      cbn [app length fmap list_fmap].
      split; [| split; [exact Hlen | split; [lia | lia]]].
      rewrite Hbuf.
      replace (Z.to_nat (read + 1)) with (S (Z.to_nat read)) by lia.
      assert (Hlt : (Z.to_nat read < length buf)%nat) by lia.
      rewrite (take_S_r _ _ (Z.land d 0xFF))
        by (apply list_lookup_insert_eq; exact Hlt).
      rewrite take_insert_ge by lia.
      rewrite drop_insert_lt by lia.
      rewrite <- app_assoc. simpl.
      replace (Z.to_nat read + S (length (dr_loads t3)))%nat
        with (S (Z.to_nat read + length (dr_loads t3)))%nat by lia.
      reflexivity.
    + injection Hrun as <- <- _ <-. simpl. rewrite Nat.add_0_r, take_drop.
      repeat split; lia.
Qed.

(** X23.  On any register bus, a run of [bsc_i2c_read_poll] with a buffer
    that returns has put into the buffer, from position 0 on and in the
    order of the loads, the low 8 bits of each value it loaded from the
    data register, and left the rest of the buffer as it was; the buffer
    keeps its length; the number of loads is at most [len], and the value
    returned is that number (converted to [int]). *)
Theorem bsc_i2c_read_poll_fills (b : list Z) len w n b' w' tr :
  0 <= len ->
  bsc_i2c_read_poll (Some b) len w = (Ok (n, Some b'), w', tr) ->
  b' = ((fun d => Z.land d 0xFF) <$> dr_loads tr) ++ drop (length (dr_loads tr)) b
  /\ length b' = length b
  /\ Z.of_nat (length (dr_loads tr)) <= len
  /\ n = to_int32 (Z.of_nat (length (dr_loads tr))).
Proof.
  intros Hlen Hrun. unfold bsc_i2c_read_poll in Hrun.
  apply bind_ok_inv in Hrun as ([] & w1 & t1 & t2 & Htc & Hrun & ->).
  assert (Ht1 : t1 = [EvTestCancel]).
  { revert Htc. unfold testcancel.
    destruct (cancel_after w) as [[| m] |]; intros [= <- <-]; reflexivity. }
  subst t1. cbn [app dr_loads].
  destruct (Z.eqb_spec len 0) as [-> | Hne].
  - injection Hrun as <- <- _ <-. simpl. rewrite drop_0. repeat split. lia.
  - apply bind_ok_inv in Hrun as ([b1 read] & w2 & t2' & t3 & Hloop & Hret & ->).
    injection Hret as <- <- _ <-. rewrite app_nil_r.
    apply read_poll_loop_ok_inv in Hloop as (Hbuf & Hl & -> & Hn); [| lia].
    simpl in Hbuf. split; [exact Hbuf |]. split; [exact Hl |].
    split; [lia |]. f_equal.
Qed.
End ReadBuffer.

(** The theorem applied to a board with two bytes in the RX FIFO and a
    buffer of four. *)
Lemma bsc_i2c_read_poll_fills_witness :
  exists w' tr,
    bsc_i2c_read_poll (Some [1; 2; 3; 4]) 4
      (world_mapped (mkSim [0xAA; 0x1BB] [] None 0x305 0
                       (fun _ => 0) (fun _ => 0) [] []))
    = (Ok (2, Some [0xAA; 0xBB; 3; 4]), w', tr)
    /\ [0xAA; 0xBB; 3; 4]
       = ((fun d => Z.land d 0xFF) <$> dr_loads tr)
         ++ drop (length (dr_loads tr)) [1; 2; 3; 4].
Proof.
  eexists _, _. split; [vm_compute; reflexivity |].
  exact (proj1
    (bsc_i2c_read_poll_fills [1; 2; 3; 4] 4
       (world_mapped (mkSim [0xAA; 0x1BB] [] None 0x305 0
                        (fun _ => 0) (fun _ => 0) [] []))
       2 [0xAA; 0xBB; 3; 4] _ _ ltac:(lia) eq_refl)).
Defined.
